(** * Budget-document ingestion and extraction pipeline

    A shallow embedding of the extraction core of the repository
    (`pdf_processor/data_extractor.py`, `pdf_processor/pdf_reader.py`,
    `pdf_processor/ocr_processor.py`, `pdf_processor/format_detector.py`)
    and the properties of the pipeline stated against it.

    Layout of the development:
    - [Str]        Python `str` values as lists of Unicode code points, the
                   part of the Unicode character database the code consults,
                   and the `str` methods the code calls;
    - [Re]         a backtracking matcher for the fragment of `re` the
                   patterns of the repository are written in;
    - [ReFacts], [StrFacts]
                   what the matcher and the `str` methods do on runs of
                   characters;
    - [Dec]        `decimal.Decimal` under the default context, and
                   [DecFacts], when a product overflows;
    - [Extractor]  `DataExtractor`, and [ExtractorProps], its properties;
    - [Reader]     `PDFReader._detect_scanned_pdf`;
    - [Ocr]        `OCRProcessor._process_ocr_data`, `batch_process_images`;
    - [Detector]   `FormatDetector`;
    - [ExtractorInvariants], [StrategyBounds], [DecOrder], [TablePrices],
      [Totals]     what the strategies and the validator of `DataExtractor`
                   keep true, the prices of a table row and
                   `extract_totals`;
    - [OcrInvariants]
                   the words, lines and table rows of `OCRProcessor`;
    - [Detection], [AnalysisBounds]
                   `FormatDetector.detect_format` with its layout analysis,
                   and the counters of its structure and pattern analyses;
    - [ReaderInvariants], [Upload]
                   the scanned test on page lengths and the processing
                   part of `upload_pdf` (`main.py`). *)

From Stdlib Require Import List NArith ZArith QArith Bool Lia Ascii String.
From Stdlib Require Import Permutation.
Import ListNotations.

(* Source patterns are quoted in comments as they are written. *)
Set Warnings "-comment-terminator-in-string".

Close Scope Q_scope.
Open Scope nat_scope.
Open Scope list_scope.

(* ================================================================== *)
(** * Python strings *)
(* ================================================================== *)

Module Str.

(** A Python [str] is a sequence of Unicode code points. *)
Definition char := N.
Definition str := list char.

Definition char_eqb (a b : char) : bool := N.eqb a b.

Fixpoint str_eqb (a b : str) : bool :=
  match a, b with
  | [], [] => true
  | x :: a', y :: b' => char_eqb x y && str_eqb a' b'
  | _, _ => false
  end.

Lemma str_eqb_eq (a b : str) : str_eqb a b = true <-> a = b.
Proof.
  revert b; induction a as [|x a IH]; intros [|y b]; simpl; split;
    try discriminate; try reflexivity.
  - intros H. apply andb_true_iff in H as [H1 H2].
    apply N.eqb_eq in H1. apply IH in H2. now subst.
  - intros H. injection H as -> ->. apply andb_true_iff. split.
    + apply N.eqb_refl.
    + now apply IH.
Qed.

Lemma str_eqb_refl (a : str) : str_eqb a a = true.
Proof. now apply str_eqb_eq. Qed.

(** ** Literals

    String literals of this file are UTF-8, as the source files are;
    [lit] decodes one into its code points. *)

Definition cont_bits (b : N) : N := (b - 128)%N.

Fixpoint utf8_decode (bs : list N) : str :=
  match bs with
  | [] => []
  | b0 :: t0 =>
    if (b0 <? 128)%N then b0 :: utf8_decode t0
    else match t0 with
    | [] => [b0]
    | b1 :: t1 =>
      if (b0 <? 224)%N then
        ((b0 - 192) * 64 + cont_bits b1)%N :: utf8_decode t1
      else match t1 with
      | [] => [b0; b1]
      | b2 :: t2 =>
        if (b0 <? 240)%N then
          ((b0 - 224) * 4096 + cont_bits b1 * 64 + cont_bits b2)%N
            :: utf8_decode t2
        else match t2 with
        | [] => [b0; b1; b2]
        | b3 :: t3 =>
          ((b0 - 240) * 262144 + cont_bits b1 * 4096
           + cont_bits b2 * 64 + cont_bits b3)%N :: utf8_decode t3
        end
      end
    end
  end.

Definition lit (s : string) : str :=
  utf8_decode (map N_of_ascii (list_ascii_of_string s)).

(** Code points the code names. *)
Definition LF : char := 10%N.
Definition SP : char := 32%N.
Definition TAB : char := 9%N.
Definition DOLLAR : char := 36%N.
Definition COMMA : char := 44%N.
Definition DOT : char := 46%N.
Definition UNDERSCORE : char := 95%N.

Definition in_range (lo hi c : N) : bool := ((lo <=? c) && (c <=? hi))%N.

(** ASCII lower-case letters and digits: every code point of the unit
    abbreviations the extractor writes. *)
Definition ascii_lower_or_digit (c : char) : bool :=
  in_range 97 122 c || in_range 48 57 c.

(** ** The character database

    What CPython asks of the Unicode character database on behalf of the
    code: the properties behind [str.isspace], [str.isdigit],
    [str.isalnum], [str.isupper], the decimal value of a digit, the case
    conversions of [str.lower] and [str.upper] (on whole strings: the
    lower-casing of a capital sigma depends on its neighbours), and the
    simple case folding of the [re] module with its table of equivalent
    letters.  The development is parametric in the database; the only
    fact it relies on is that lower-casing leaves ASCII lower-case
    letters and digits alone. *)
Class UnicodeDB := {
  uc_isspace : char -> bool;
  uc_decimal : char -> option N;
  uc_isdigit : char -> bool;
  uc_isalnum : char -> bool;
  uc_islower : char -> bool;
  uc_isupper : char -> bool;
  uc_istitle : char -> bool;
  str_lower : str -> str;
  str_upper : str -> str;
  sre_tolower : char -> char;
  sre_iscased : char -> bool;
  sre_fixes : char -> list char;
  str_lower_ascii :
    forall s, forallb ascii_lower_or_digit s = true -> str_lower s = s
}.

Section Methods.
Context {U : UnicodeDB}.

Definition uc_isdecimal (c : char) : bool :=
  match uc_decimal c with Some _ => true | None => false end.

(** [\w] of a [str] pattern: alphanumeric or the underscore. *)
Definition uc_isword (c : char) : bool :=
  uc_isalnum c || char_eqb c UNDERSCORE.

(** [str.lstrip()], [str.rstrip()], [str.strip()]. *)
Fixpoint lstrip (s : str) : str :=
  match s with
  | c :: s' => if uc_isspace c then lstrip s' else s
  | [] => []
  end.

Fixpoint rstrip (s : str) : str :=
  match s with
  | [] => []
  | c :: s' =>
    match rstrip s' with
    | [] => if uc_isspace c then [] else [c]
    | r => c :: r
    end
  end.

Definition strip (s : str) : str := rstrip (lstrip s).

(** [str.split(sep)] for a one-character separator: the pieces between
    the separators, empty ones kept. *)
Fixpoint split_on_aux (sep : char) (cur_rev : str) (s : str) : list str :=
  match s with
  | [] => [rev cur_rev]
  | c :: s' =>
    if char_eqb c sep then rev cur_rev :: split_on_aux sep [] s'
    else split_on_aux sep (c :: cur_rev) s'
  end.

Definition split_on (sep : char) (s : str) : list str := split_on_aux sep [] s.

(** [str.split()]: the maximal runs of non-whitespace characters. *)
Fixpoint split_ws_aux (cur_rev : str) (s : str) : list str :=
  match s with
  | [] => match cur_rev with [] => [] | _ => [rev cur_rev] end
  | c :: s' =>
    if uc_isspace c then
      match cur_rev with
      | [] => split_ws_aux [] s'
      | _ => rev cur_rev :: split_ws_aux [] s'
      end
    else split_ws_aux (c :: cur_rev) s'
  end.

Definition split_ws (s : str) : list str := split_ws_aux [] s.

(** [sep.join(parts)]. *)
Fixpoint join (sep : str) (parts : list str) : str :=
  match parts with
  | [] => []
  | [p] => p
  | p :: ps => p ++ sep ++ join sep ps
  end.

(** [s.replace(c, '')] for a one-character [c]. *)
Definition remove_char (c : char) (s : str) : str :=
  filter (fun x => negb (char_eqb x c)) s.

(** [s.startswith(p)] and [p in s]. *)
Fixpoint startswith (p s : str) : bool :=
  match p, s with
  | [], _ => true
  | x :: p', y :: s' => char_eqb x y && startswith p' s'
  | _ :: _, [] => false
  end.

Fixpoint contains (p s : str) : bool :=
  startswith p s ||
  match s with
  | [] => false
  | _ :: s' => contains p s'
  end.

(** [str.isupper()]: no lower-case or title-case character, and at least
    one upper-case one. *)
Definition isupper (s : str) : bool :=
  forallb (fun c => negb (uc_islower c || uc_istitle c)) s
  && existsb uc_isupper s.

(** Truth value of a string. *)
Definition nonempty (s : str) : bool :=
  match s with [] => false | _ => true end.

End Methods.

(** [str(n)] for a natural number. *)
Fixpoint digits_of_nat (fuel n : nat) (acc : str) : str :=
  match fuel with
  | O => acc
  | S fuel' =>
    let acc' := N.of_nat (48 + n mod 10) :: acc in
    if n / 10 =? 0 then acc' else digits_of_nat fuel' (n / 10) acc'
  end.

Definition str_of_nat (n : nat) : str := digits_of_nat (S n) n [].

(** ** The Latin-1 block

    The database restricted to U+0000..U+00FF, where it is small enough
    to write down; code points above are given no property.  Concrete
    runs of the pipeline below use it on texts of that block. *)

Definition in_ranges (rs : list (N * N)) (c : char) : bool :=
  existsb (fun r => in_range (fst r) (snd r) c) rs.

Definition latin1_isspace : char -> bool :=
  in_ranges [(9, 13); (28, 32); (133, 133); (160, 160)]%N.

Definition latin1_decimal (c : char) : option N :=
  if in_range 48 57 c then Some (c - 48)%N else None.

Definition latin1_isdigit : char -> bool :=
  in_ranges [(48, 57); (178, 179); (185, 185)]%N.

Definition latin1_isalnum : char -> bool :=
  in_ranges [(48, 57); (65, 90); (97, 122); (170, 170); (178, 179);
             (181, 181); (185, 186); (188, 190); (192, 214); (216, 246);
             (248, 255)]%N.

Definition latin1_islower : char -> bool :=
  in_ranges [(97, 122); (170, 170); (181, 181); (186, 186); (223, 246);
             (248, 255)]%N.

Definition latin1_isupper : char -> bool :=
  in_ranges [(65, 90); (192, 214); (216, 222)]%N.

Definition latin1_tolower (c : char) : char :=
  if latin1_isupper c then (c + 32)%N else c.

Definition latin1_upper_char (c : char) : str :=
  if in_ranges [(97, 122); (224, 246); (248, 254)]%N c then [(c - 32)%N]
  else if char_eqb c 181%N then [924%N]
  else if char_eqb c 223%N then [83%N; 83%N]
  else if char_eqb c 255%N then [376%N]
  else [c].

Definition latin1_iscased : char -> bool :=
  in_ranges [(65, 90); (97, 122); (181, 181); (192, 214); (216, 246);
             (248, 255)]%N.

Definition latin1_fixes (c : char) : list char :=
  if char_eqb c 105%N then [305%N]
  else if char_eqb c 115%N then [383%N]
  else if char_eqb c 181%N then [956%N]
  else [].

Lemma latin1_lower_ascii (s : str) :
  forallb ascii_lower_or_digit s = true -> map latin1_tolower s = s.
Proof.
  induction s as [|c s IH]; simpl; [reflexivity|].
  intros H. apply andb_true_iff in H as [Hc Hs].
  rewrite (IH Hs). f_equal.
  unfold latin1_tolower, latin1_isupper, in_ranges; simpl.
  unfold ascii_lower_or_digit, in_range in *.
  repeat match goal with
  | |- context [(?a <=? ?b)%N] => destruct (N.leb_spec a b)
  | H : context [(?a <=? ?b)%N] |- _ => destruct (N.leb_spec a b)
  end; simpl in *; try reflexivity; try discriminate; lia.
Qed.

#[export] Instance Latin1 : UnicodeDB := {|
  uc_isspace := latin1_isspace;
  uc_decimal := latin1_decimal;
  uc_isdigit := latin1_isdigit;
  uc_isalnum := latin1_isalnum;
  uc_islower := latin1_islower;
  uc_isupper := latin1_isupper;
  uc_istitle := fun _ => false;
  str_lower := map latin1_tolower;
  str_upper := fun s => flat_map latin1_upper_char s;
  sre_tolower := latin1_tolower;
  sre_iscased := latin1_iscased;
  sre_fixes := latin1_fixes;
  str_lower_ascii := latin1_lower_ascii
|}.

End Str.

(* ================================================================== *)
(** * Regular expressions *)
(* ================================================================== *)

Module Re.
Import Str.

(** The fragment of [re] syntax the repository's patterns use: literals,
    [.], character sets with ranges and the categories [\s], [\d], [\w],
    sequencing, alternation, greedy and lazy bounded repetition, numbered
    groups, and the assertions [^], [$] and [\b].  Matching is the
    backtracking search of CPython's engine: alternatives are tried left
    to right, a greedy repetition tries one more iteration before the
    rest of the pattern and a lazy one the rest of the pattern first, and
    the first way through the whole pattern is the match. *)

Inductive category := CatSpace | CatDigit | CatWord.

Inductive cset :=
| CLit (c : char)
| CRange (lo hi : char)
| CCat (k : category).

Inductive regex :=
| REmpty
| RLit (c : char)
| RAny
| RIn (items : list cset)
| RSeq (r1 r2 : regex)
| RAlt (r1 r2 : regex)
| RRepeat (mn : nat) (mx : option nat) (greedy : bool) (r : regex)
| RGroup (i : nat) (r : regex)
| RBol
| REol
| RWordB.

Record flags := mkFlags { IGNORECASE : bool; MULTILINE : bool }.

Definition NOFLAGS : flags := mkFlags false false.
Definition I : flags := mkFlags true false.
Definition IM : flags := mkFlags true true.

(** A position of the subject during a match: how many characters lie
    behind it, the last of them, the characters ahead, and the groups
    closed so far (latest first). *)
Record mstate := mkState {
  ms_pos : N;
  ms_prev : option char;
  ms_rest : str;
  ms_caps : list (nat * str)
}.

Definition advance (st : mstate) (c : char) (rest : str) : mstate :=
  mkState (N.succ (ms_pos st)) (Some c) rest (ms_caps st).

Definition set_cap (i : nat) (s : str) (st : mstate) : mstate :=
  mkState (ms_pos st) (ms_prev st) (ms_rest st) ((i, s) :: ms_caps st).

Definition N_range (lo hi : N) : list N :=
  map N.of_nat (seq (N.to_nat lo) (S (N.to_nat hi) - N.to_nat lo)).

Section Matcher.
Context {U : UnicodeDB}.
Variable fl : flags.

Definition cat_match (k : category) (c : char) : bool :=
  match k with
  | CatSpace => uc_isspace c
  | CatDigit => uc_isdecimal c
  | CatWord => uc_isword c
  end.

(** Under [IGNORECASE] a letter of the pattern stands for its lower-case
    form and the letters the engine's table lists as equivalent to it,
    and the subject character is lower-cased before the comparison; a
    set without cased members is matched as written. *)
Definition fold_char (c : char) : list char :=
  let lo := sre_tolower c in lo :: sre_fixes lo.

Definition cset_chars (it : cset) : list char :=
  match it with
  | CLit c => [c]
  | CRange lo hi => N_range lo hi
  | CCat _ => []
  end.

Definition cset_plain (it : cset) (c : char) : bool :=
  match it with
  | CLit x => char_eqb x c
  | CRange lo hi => in_range lo hi c
  | CCat k => cat_match k c
  end.

Definition cset_folded (it : cset) (c : char) : bool :=
  match it with
  | CCat k => cat_match k c
  | _ => existsb (fun x => existsb (char_eqb c) (fold_char x)) (cset_chars it)
  end.

Definition in_match (items : list cset) (c : char) : bool :=
  if IGNORECASE fl then
    if existsb sre_iscased (flat_map cset_chars items)
    then existsb (fun it => cset_folded it (sre_tolower c)) items
    else existsb (fun it => cset_folded it c) items
  else existsb (fun it => cset_plain it c) items.

Definition lit_match (c x : char) : bool :=
  if IGNORECASE fl && sre_iscased c
  then existsb (char_eqb (sre_tolower x)) (fold_char c)
  else char_eqb c x.

Definition at_bol (st : mstate) : bool :=
  (ms_pos st =? 0)%N ||
  (MULTILINE fl &&
   match ms_prev st with Some c => char_eqb c LF | None => false end).

Definition at_eol (st : mstate) : bool :=
  match ms_rest st with
  | [] => true
  | c :: rest => char_eqb c LF && (MULTILINE fl || match rest with [] => true | _ => false end)
  end.

Definition at_word_boundary (st : mstate) : bool :=
  xorb (match ms_prev st with Some c => uc_isword c | None => false end)
       (match ms_rest st with c :: _ => uc_isword c | [] => false end).

Definition one_char (p : char -> bool) (k : mstate -> option mstate)
  (st : mstate) : option mstate :=
  match ms_rest st with
  | c :: rest => if p c then k (advance st c rest) else None
  | [] => None
  end.

Definition below (count : nat) (mx : option nat) : bool :=
  match mx with Some n => count <? n | None => true end.

(** Repetition of a sub-pattern [body] between [mn] and [mx] times.
    Below the minimum another iteration is required; from there on a
    greedy repetition prefers one more iteration (which has to consume
    something) to the rest of the pattern [k], a lazy one the reverse. *)
Fixpoint rep_loop (body : (mstate -> option mstate) -> mstate -> option mstate)
  (k : mstate -> option mstate) (mn : nat) (mx : option nat) (greedy : bool)
  (fuel count : nat) (st : mstate) {struct fuel} : option mstate :=
  match fuel with
  | O => None
  | S fuel' =>
    if count <? mn then
      body (fun st' => rep_loop body k mn mx greedy fuel' (S count) st') st
    else if negb (below count mx) then k st
    else if greedy then
      match body (fun st' =>
                    if (ms_pos st <? ms_pos st')%N
                    then rep_loop body k mn mx greedy fuel' (S count) st'
                    else None) st with
      | Some e => Some e
      | None => k st
      end
    else
      match k st with
      | Some e => Some e
      | None =>
        body (fun st' =>
                if (ms_pos st <? ms_pos st')%N
                then rep_loop body k mn mx greedy fuel' (S count) st'
                else None) st
      end
  end.

(** [m r k st]: the first way to match [r] at [st] and then the rest of
    the pattern, [k]; [None] when there is none. *)
Fixpoint m (r : regex) (k : mstate -> option mstate) (st : mstate)
  {struct r} : option mstate :=
  match r with
  | REmpty => k st
  | RLit c => one_char (lit_match c) k st
  | RAny => one_char (fun x => negb (char_eqb x LF)) k st
  | RIn items => one_char (in_match items) k st
  | RSeq r1 r2 => m r1 (fun st' => m r2 k st') st
  | RAlt r1 r2 =>
    match m r1 k st with
    | Some e => Some e
    | None => m r2 k st
    end
  | RGroup i r1 =>
    m r1 (fun st' =>
            k (set_cap i (firstn (N.to_nat (ms_pos st' - ms_pos st))
                                 (ms_rest st)) st'))
      st
  | RRepeat mn mx greedy r1 =>
    rep_loop (m r1) k mn mx greedy (S (mn + List.length (ms_rest st))) 0 st
  | RBol => if at_bol st then k st else None
  | REol => if at_eol st then k st else None
  | RWordB => if at_word_boundary st then k st else None
  end.

(** The end of the pattern.  A scan that has just reported an empty
    match asks the next one to advance. *)
Definition accept (must_advance : bool) (start : N) (st : mstate)
  : option mstate :=
  if must_advance && (ms_pos st =? start)%N then None else Some st.

Definition match_at (r : regex) (must_advance : bool) (st : mstate)
  : option mstate :=
  m r (accept must_advance (ms_pos st)) st.

(** The leftmost match at or after a position, with the characters
    skipped on the way to it. *)
Fixpoint search_from (r : regex) (pos : N) (prev : option char)
  (rest : str) (must_advance : bool) : option (str * mstate * mstate) :=
  let st := mkState pos prev rest [] in
  match match_at r must_advance st with
  | Some e => Some ([], st, e)
  | None =>
    match rest with
    | [] => None
    | c :: rest' =>
      match search_from r (N.succ pos) (Some c) rest' false with
      | Some (gap, s, e) => Some (c :: gap, s, e)
      | None => None
      end
    end
  end.

(** A match object: where it starts and ends, the text it covers, and
    its groups. *)
Record rmatch := mkMatch {
  m_start : N;
  m_end : N;
  m_text : str;
  m_caps : list (nat * str)
}.

Definition to_match (s e : mstate) : rmatch :=
  mkMatch (ms_pos s) (ms_pos e)
          (firstn (N.to_nat (ms_pos e - ms_pos s)) (ms_rest s)) (ms_caps e).

Fixpoint lookup_cap (i : nat) (caps : list (nat * str)) : option str :=
  match caps with
  | [] => None
  | (j, s) :: caps' => if i =? j then Some s else lookup_cap i caps'
  end.

(** [match.group(i)] for a group that took part in the match (every
    numbered group of the repository's patterns does whenever the pattern
    matches). *)
Definition group (mt : rmatch) (i : nat) : str :=
  match lookup_cap i (m_caps mt) with Some s => s | None => [] end.

(** The successive non-overlapping matches of a scan, each with the text
    between it and the previous one, and the text after the last. *)
Fixpoint scan (r : regex) (fuel : nat) (pos : N) (prev : option char)
  (rest : str) (must_advance : bool) : list (str * rmatch) * str :=
  match fuel with
  | O => ([], rest)
  | S fuel' =>
    match search_from r pos prev rest must_advance with
    | None => ([], rest)
    | Some (gap, s, e) =>
      let (more, tail) :=
        scan r fuel' (ms_pos e) (ms_prev e) (ms_rest e)
             (ms_pos e =? ms_pos s)%N in
      ((gap, to_match s e) :: more, tail)
    end
  end.

Definition scan_all (r : regex) (s : str) : list (str * rmatch) * str :=
  scan r (2 * List.length s + 2) 0%N None s false.

(** [re.match], [re.search], [re.finditer], [re.findall] (for a pattern
    without groups), [re.sub] with a constant replacement and [re.split]
    (for a pattern without groups). *)
Definition re_match (r : regex) (s : str) : option rmatch :=
  let st := mkState 0%N None s [] in
  match match_at r false st with
  | Some e => Some (to_match st e)
  | None => None
  end.

Definition re_search (r : regex) (s : str) : option rmatch :=
  match search_from r 0%N None s false with
  | Some (_, st, e) => Some (to_match st e)
  | None => None
  end.

Definition re_finditer (r : regex) (s : str) : list rmatch :=
  map snd (fst (scan_all r s)).

Definition re_findall (r : regex) (s : str) : list str :=
  map m_text (re_finditer r s).

Definition re_sub (r : regex) (repl : str) (s : str) : str :=
  let (ms, tail) := scan_all r s in
  flat_map (fun gm => fst gm ++ repl) ms ++ tail.

Definition re_split (r : regex) (s : str) : list str :=
  let (ms, tail) := scan_all r s in
  map fst ms ++ [tail].

End Matcher.

(** ** Writing patterns *)

Fixpoint seq_of (rs : list regex) : regex :=
  match rs with
  | [] => REmpty
  | [r] => r
  | r :: rs' => RSeq r (seq_of rs')
  end.

Fixpoint alt_of (rs : list regex) : regex :=
  match rs with
  | [] => REmpty
  | [r] => r
  | r :: rs' => RAlt r (alt_of rs')
  end.

(** A run of literal characters, and an alternation of such runs. *)
Definition word (s : string) : regex := seq_of (map RLit (lit s)).
Definition words (ss : list string) : regex := alt_of (map word ss).

Definition ch (s : string) : char := hd 0%N (lit s).

Definition star (r : regex) : regex := RRepeat 0 None true r.
Definition plus (r : regex) : regex := RRepeat 1 None true r.
Definition opt (r : regex) : regex := RRepeat 0 (Some 1) true r.
Definition lazy_plus (r : regex) : regex := RRepeat 1 None false r.
Definition times (n : nat) (r : regex) : regex := RRepeat n (Some n) true r.
Definition between (lo hi : nat) (r : regex) : regex :=
  RRepeat lo (Some hi) true r.
Definition at_least (n : nat) (r : regex) : regex := RRepeat n None true r.

Definition space : regex := RIn [CCat CatSpace].
Definition digit : regex := RIn [CCat CatDigit].
Definition dot : regex := RLit DOT.

End Re.

(** ** Substitution of the runs of a character set

    [re.sub] of a pattern [[...]+] replaces every maximal run of
    characters of the set. *)

Module ReFacts.
Import Str Re.

(** What is left of a subject once the run at its head is consumed. *)
Fixpoint eat (p : char -> bool) (rest : str) (pos : N)
  (prev : option char) (caps : list (nat * str)) : mstate :=
  match rest with
  | c :: rest' =>
    if p c then eat p rest' (N.succ pos) (Some c) caps
    else mkState pos prev rest caps
  | [] => mkState pos prev [] caps
  end.

Fixpoint drop_run (p : char -> bool) (s : str) : str :=
  match s with
  | c :: s' => if p c then drop_run p s' else s
  | [] => []
  end.

(** The subject with every maximal run replaced by [repl]; [in_run]
    tells whether the character before belonged to a run. *)
Fixpoint sub_runs_aux (p : char -> bool) (repl : str) (in_run : bool)
  (s : str) : str :=
  match s with
  | [] => []
  | c :: s' =>
    if p c then
      if in_run then sub_runs_aux p repl true s'
      else repl ++ sub_runs_aux p repl true s'
    else c :: sub_runs_aux p repl false s'
  end.

Definition sub_runs (p : char -> bool) (repl : str) (s : str) : str :=
  sub_runs_aux p repl false s.

Lemma eat_rest p rest pos prev caps :
  ms_rest (eat p rest pos prev caps) = drop_run p rest.
Proof.
  revert pos prev; induction rest as [|c r IH]; intros; simpl; [reflexivity|].
  destruct (p c); [apply IH | reflexivity].
Qed.

Lemma eat_pos p rest pos prev caps :
  (pos <= ms_pos (eat p rest pos prev caps))%N.
Proof.
  revert pos prev; induction rest as [|c r IH]; intros; simpl; [lia|].
  destruct (p c); simpl; [|lia].
  specialize (IH (N.succ pos) (Some c)). lia.
Qed.

Lemma drop_run_length p s : List.length (drop_run p s) <= List.length s.
Proof.
  induction s as [|c s IH]; simpl; [lia|].
  destruct (p c); simpl; lia.
Qed.

Lemma sub_runs_in_run p repl s :
  sub_runs_aux p repl true s = sub_runs_aux p repl false (drop_run p s).
Proof.
  induction s as [|c s IH]; simpl; [reflexivity|].
  destruct (p c) eqn:E; [exact IH|]. simpl. now rewrite E.
Qed.

Section Runs.
Context {U : UnicodeDB}.
Variable fl : flags.

(** A pattern [r1] for one character of a set [p]: [[...]], [\s], or a
    literal. *)
Variable r1 : regex.
Variable p : char -> bool.
Hypothesis r1_one_char : m fl r1 = one_char p.

Let r : regex := plus r1.

(** Past its first iteration the greedy loop consumes the whole run,
    whenever the rest of the pattern accepts there. *)
Lemma rep_loop_run (k : mstate -> option mstate) (start : N) :
  (forall st, (start < ms_pos st)%N -> k st = Some st) ->
  forall rest fuel count pos prev caps,
    1 <= count -> List.length rest < fuel -> (start < pos)%N ->
    rep_loop (one_char p) k 1 None true fuel count
             (mkState pos prev rest caps)
    = Some (eat p rest pos prev caps).
Proof.
  intros Hk. induction rest as [|c rest IH]; intros fuel count pos prev caps
    Hc Hf Hp; (destruct fuel as [|fuel]; [simpl in Hf; lia|]); simpl.
  - destruct count as [|count]; [lia|]. simpl.
    unfold one_char; simpl. apply Hk. simpl. exact Hp.
  - destruct count as [|count]; [lia|]. simpl.
    unfold one_char at 1; simpl.
    destruct (p c) eqn:E.
    + unfold advance; simpl.
      replace (pos <? N.succ pos)%N with true
        by (symmetry; apply N.ltb_lt; lia).
      rewrite IH; [reflexivity| lia | simpl in Hf; lia | lia].
    + apply Hk. simpl. exact Hp.
Qed.

Lemma rep_loop_first body (k : mstate -> option mstate) fuel st :
  rep_loop body k 1 None true (S fuel) 0 st
  = body (fun st' => rep_loop body k 1 None true fuel 1 st') st.
Proof. reflexivity. Qed.

Lemma accept_after (must_advance : bool) (start : N) (st : mstate) :
  (start < ms_pos st)%N -> accept must_advance start st = Some st.
Proof.
  intros H. unfold accept.
  replace (ms_pos st =? start)%N with false
    by (symmetry; apply N.eqb_neq; lia).
  now rewrite andb_false_r.
Qed.

Lemma match_at_run (must_advance : bool) pos prev rest :
  match_at fl r must_advance (mkState pos prev rest [])
  = match rest with
    | c :: rest' =>
      if p c then Some (eat p rest' (N.succ pos) (Some c) []) else None
    | [] => None
    end.
Proof.
  unfold match_at, r, plus. cbn [m ms_rest ms_pos]. rewrite r1_one_char.
  rewrite rep_loop_first. unfold one_char at 1. cbn [ms_rest].
  destruct rest as [|c rest]; [reflexivity|].
  destruct (p c) eqn:E; [|reflexivity].
  unfold advance; cbn [ms_pos ms_caps].
  apply (rep_loop_run (accept must_advance pos) pos).
  - intros st. apply accept_after.
  - lia.
  - simpl. lia.
  - lia.
Qed.

Lemma search_from_run pos prev rest :
  search_from fl r pos prev rest false
  = match rest with
    | [] => None
    | c :: rest' =>
      if p c then
        Some ([], mkState pos prev rest [], eat p rest' (N.succ pos) (Some c) [])
      else
        match search_from fl r (N.succ pos) (Some c) rest' false with
        | Some (gap, s, e) => Some (c :: gap, s, e)
        | None => None
        end
    end.
Proof.
  destruct rest as [|c rest]; cbn [search_from]; rewrite match_at_run;
    [reflexivity|].
  destruct (p c); reflexivity.
Qed.

(** The subject put together again with [repl] in the place of each
    match. *)
Definition substituted (repl : str) (res : list (str * rmatch) * str) : str :=
  flat_map (fun gm => fst gm ++ repl) (fst res) ++ snd res.

Lemma scan_runs (repl : str) :
  forall n rest, List.length rest <= n ->
  forall fuel pos prev, List.length rest < fuel ->
    substituted repl (scan fl r fuel pos prev rest false)
    = sub_runs p repl rest.
Proof.
  unfold sub_runs.
  induction n as [|n IH]; intros rest Hn fuel pos prev Hf.
  - destruct rest; [|simpl in Hn; lia].
    destruct fuel; [simpl in Hf; lia|].
    cbn [scan]. now rewrite search_from_run.
  - destruct rest as [|c rest].
    + destruct fuel; [simpl in Hf; lia|].
      cbn [scan]. now rewrite search_from_run.
    + destruct fuel as [|fuel]; [simpl in Hf; lia|].
      simpl in Hn, Hf.
      cbn [scan]. rewrite search_from_run.
      destruct (p c) eqn:E.
      * cbn [sub_runs_aux]. rewrite E.
        pose proof (eat_pos p rest (N.succ pos) (Some c) []) as Hpos.
        cbn [ms_pos].
        replace (ms_pos (eat p rest (N.succ pos) (Some c) []) =? pos)%N
          with false by (symmetry; apply N.eqb_neq; lia).
        rewrite eat_rest.
        specialize (IH (drop_run p rest)
                       ltac:(pose proof (drop_run_length p rest); lia)
                       fuel (ms_pos (eat p rest (N.succ pos) (Some c) []))
                       (ms_prev (eat p rest (N.succ pos) (Some c) []))
                       ltac:(pose proof (drop_run_length p rest); lia)).
        destruct (scan fl r fuel _ _ (drop_run p rest) false) as [more tail].
        unfold substituted in *. cbn [fst snd flat_map app] in *.
        rewrite <- app_assoc, IH. now rewrite sub_runs_in_run.
      * cbn [sub_runs_aux]. rewrite E.
        specialize (IH rest ltac:(lia) (S fuel) (N.succ pos) (Some c)
                       ltac:(lia)).
        cbn [scan] in IH.
        destruct (search_from fl r (N.succ pos) (Some c) rest false)
          as [[[gap s] e]|].
        -- destruct (scan fl r fuel (ms_pos e) (ms_prev e) (ms_rest e)
                          (ms_pos e =? ms_pos s)%N) as [more tail].
           unfold substituted in *. cbn [fst snd flat_map app] in *.
           now rewrite <- IH.
        -- unfold substituted in *. cbn [fst snd flat_map app] in *.
           now rewrite <- IH.
Qed.

(** [re.sub] of [r1+] by a constant. *)
Lemma re_sub_runs (repl s : str) :
  re_sub fl r repl s = sub_runs p repl s.
Proof.
  unfold re_sub, scan_all.
  pose proof (scan_runs repl (List.length s) s (le_n _)
                (2 * List.length s + 2) 0%N None ltac:(lia)) as H.
  destruct (scan fl r _ 0%N None s false) as [ms tail].
  exact H.
Qed.

(** ** Substitution of single characters *)

Lemma match_at_char (must_advance : bool) pos prev rest :
  match_at fl r1 must_advance (mkState pos prev rest [])
  = match rest with
    | c :: rest' =>
      if p c then Some (mkState (N.succ pos) (Some c) rest' []) else None
    | [] => None
    end.
Proof.
  unfold match_at. rewrite r1_one_char. unfold one_char. cbn [ms_rest ms_pos].
  destruct rest as [|c rest]; [reflexivity|].
  destruct (p c); [|reflexivity].
  apply accept_after. simpl. lia.
Qed.

Lemma scan_chars (repl : str) :
  forall rest fuel pos prev, List.length rest < fuel ->
    substituted repl (scan fl r1 fuel pos prev rest false)
    = flat_map (fun c => if p c then repl else [c]) rest.
Proof.
  induction rest as [|c rest IH]; intros fuel pos prev Hf;
    (destruct fuel as [|fuel]; [simpl in Hf; lia|]); simpl in Hf.
  - cbn [scan search_from]. rewrite match_at_char. reflexivity.
  - cbn [scan search_from]. rewrite match_at_char.
    cbn [flat_map]. destruct (p c) eqn:E.
    + cbn [ms_pos ms_prev ms_rest].
      replace (N.succ pos =? pos)%N with false
        by (symmetry; apply N.eqb_neq; lia).
      specialize (IH fuel (N.succ pos) (Some c) ltac:(lia)).
      destruct (scan fl r1 fuel (N.succ pos) (Some c) rest false)
        as [more tail].
      unfold substituted in *. cbn [fst snd flat_map app] in *.
      now rewrite <- app_assoc, IH.
    + specialize (IH (S fuel) (N.succ pos) (Some c) ltac:(lia)).
      cbn [scan] in IH.
      destruct (search_from fl r1 (N.succ pos) (Some c) rest false)
        as [[[gap s] e]|].
      * destruct (scan fl r1 fuel (ms_pos e) (ms_prev e) (ms_rest e)
                       (ms_pos e =? ms_pos s)%N) as [more tail].
        unfold substituted in *. cbn [fst snd flat_map app] in *.
        now rewrite <- IH.
      * unfold substituted in *. cbn [fst snd flat_map app] in *.
        now rewrite <- IH.
Qed.

(** [re.sub] of [r1] by a constant. *)
Lemma re_sub_chars (repl s : str) :
  re_sub fl r1 repl s = flat_map (fun c => if p c then repl else [c]) s.
Proof.
  unfold re_sub, scan_all.
  pose proof (scan_chars repl s (2 * List.length s + 2) 0%N None ltac:(lia))
    as H.
  destruct (scan fl r1 _ 0%N None s false) as [ms tail].
  exact H.
Qed.

End Runs.

(** ** Subjects without a match *)

Section NoMatch.
Context {U : UnicodeDB}.
Variable fl : flags.
Variable r : regex.

(** A property of subjects that passes to suffixes and excludes a match
    at the head. *)
Variable clear : str -> Prop.
Hypothesis clear_tail : forall c rest, clear (c :: rest) -> clear rest.
Hypothesis clear_no_match :
  forall must_advance pos prev rest,
    clear rest -> match_at fl r must_advance (mkState pos prev rest []) = None.

Lemma search_from_no_match rest :
  clear rest ->
  forall pos prev must_advance,
    search_from fl r pos prev rest must_advance = None.
Proof.
  induction rest as [|c rest IH]; intros H pos prev ma; cbn [search_from];
    rewrite (clear_no_match _ _ _ _ H); [reflexivity|].
  now rewrite (IH (clear_tail _ _ H)).
Qed.

Lemma scan_no_match (s : str) :
  clear s -> scan_all fl r s = ([], s).
Proof.
  intros H. unfold scan_all.
  replace (2 * List.length s + 2) with (S (2 * List.length s + 1)) by lia.
  cbn [scan]. now rewrite (search_from_no_match _ H).
Qed.

Lemma re_sub_no_match (repl s : str) : clear s -> re_sub fl r repl s = s.
Proof. intros H. unfold re_sub. now rewrite (scan_no_match _ H). Qed.

Lemma re_split_no_match (s : str) : clear s -> re_split fl r s = [s].
Proof. intros H. unfold re_split. now rewrite (scan_no_match _ H). Qed.

End NoMatch.

(** ** One step of a match at a time

    How the matcher gets through one piece of a pattern when the rest of
    the pattern, [k], matches behind it: enough to follow a match along
    a subject of any length. *)

(** The last character behind the position after a run. *)
Definition prev_after (run : str) (prev : option char) : option char :=
  fold_left (fun _ c => Some c) run prev.

Lemma firstn_run (a b : str) (x y : N) :
  (y = x + N.of_nat (List.length a))%N ->
  firstn (N.to_nat (y - x)) (a ++ b) = a.
Proof.
  intros ->. replace (N.to_nat _) with (List.length a + 0) by lia.
  rewrite firstn_app_2. cbn [firstn]. apply app_nil_r.
Qed.

Lemma firstn_whole (a : str) (x y : N) :
  (y = x + N.of_nat (List.length a))%N ->
  firstn (N.to_nat (y - x)) a = a.
Proof.
  intros ->. replace (N.to_nat _) with (List.length a) by lia.
  apply firstn_all.
Qed.

Section Steps.
Context {U : UnicodeDB}.
Variable fl : flags.

Lemma m_seq (a b : regex) (k : mstate -> option mstate) st :
  m fl (RSeq a b) k st = m fl a (fun st' => m fl b k st') st.
Proof. reflexivity. Qed.

Lemma m_group (i : nat) (r : regex) (k : mstate -> option mstate) st :
  m fl (RGroup i r) k st
  = m fl r (fun st' =>
              k (set_cap i (firstn (N.to_nat (ms_pos st' - ms_pos st))
                                   (ms_rest st)) st')) st.
Proof. reflexivity. Qed.

Lemma m_bol (k : mstate -> option mstate) prev rest caps :
  m fl RBol k (mkState 0 prev rest caps) = k (mkState 0 prev rest caps).
Proof. reflexivity. Qed.

Lemma m_alt_left (a b : regex) (k : mstate -> option mstate) st e :
  m fl a k st = Some e -> m fl (RAlt a b) k st = Some e.
Proof. intros H. cbn [m]. now rewrite H. Qed.

Lemma m_char (r1 : regex) (q : char -> bool) (k : mstate -> option mstate)
  c rest pos prev caps :
  m fl r1 = one_char q -> q c = true ->
  m fl r1 k (mkState pos prev (c :: rest) caps)
  = k (mkState (N.succ pos) (Some c) rest caps).
Proof.
  intros H1 Hc. rewrite H1. unfold one_char. cbn [ms_rest].
  now rewrite Hc.
Qed.

Lemma rep_loop_greedy_run (p : char -> bool) (k : mstate -> option mstate)
  (mn : nat) (tail : str) (caps : list (nat * str)) (e : mstate) :
  match tail with c :: _ => p c | [] => false end = false ->
  forall run fuel count pos prev,
    forallb p run = true ->
    List.length run < fuel -> mn <= count + List.length run ->
    k (mkState (pos + N.of_nat (List.length run)) (prev_after run prev)
               tail caps) = Some e ->
    rep_loop (one_char p) k mn None true fuel count
             (mkState pos prev (run ++ tail) caps) = Some e.
Proof.
  intros Ht.
  induction run as [|c run IH]; intros fuel count pos prev Hp Hf Hn Hk.
  - cbn [app List.length prev_after fold_left N.of_nat] in *.
    rewrite N.add_0_r in Hk.
    destruct fuel as [|fuel]; [lia|].
    cbn [rep_loop].
    replace (count <? mn) with false by (symmetry; apply Nat.ltb_ge; lia).
    cbn [below negb]. unfold one_char at 1. cbn [ms_rest].
    destruct tail as [|c t]; [exact Hk|]. now rewrite Ht.
  - cbn [forallb] in Hp. apply andb_true_iff in Hp as [Hc Hr].
    cbn [List.length] in Hf, Hn, Hk.
    destruct fuel as [|fuel]; [lia|].
    assert (Hnext : rep_loop (one_char p) k mn None true fuel (S count)
                      (mkState (N.succ pos) (Some c) (run ++ tail) caps)
                    = Some e).
    { apply IH; [exact Hr | lia | lia |].
      rewrite <- Hk. f_equal. f_equal. lia. }
    cbn [rep_loop app]. destruct (count <? mn).
    + unfold one_char at 1. cbn [ms_rest]. rewrite Hc. exact Hnext.
    + cbn [below negb]. unfold one_char at 1. cbn [ms_rest]. rewrite Hc.
      unfold advance. cbn [ms_pos ms_caps].
      replace (pos <? N.succ pos)%N with true
        by (symmetry; apply N.ltb_lt; lia).
      now rewrite Hnext.
Qed.

(** A greedy repetition of a one-character pattern in front of a run of
    such characters takes the whole run when the rest of the pattern
    matches behind it. *)
Lemma m_greedy_run (r1 : regex) (p : char -> bool)
  (k : mstate -> option mstate) (mn : nat) (run tail : str) pos prev caps e :
  m fl r1 = one_char p ->
  forallb p run = true ->
  match tail with c :: _ => p c | [] => false end = false ->
  mn <= List.length run ->
  k (mkState (pos + N.of_nat (List.length run)) (prev_after run prev)
             tail caps) = Some e ->
  m fl (RRepeat mn None true r1) k (mkState pos prev (run ++ tail) caps)
  = Some e.
Proof.
  intros H1 Hp Ht Hn Hk. cbn [m ms_rest]. rewrite H1.
  apply rep_loop_greedy_run; try assumption.
  rewrite length_app. lia.
Qed.

(** The same for a run that ends the subject. *)
Lemma m_greedy_run_end (r1 : regex) (p : char -> bool)
  (k : mstate -> option mstate) (mn : nat) (run : str) pos prev caps e :
  m fl r1 = one_char p ->
  forallb p run = true ->
  mn <= List.length run ->
  k (mkState (pos + N.of_nat (List.length run)) (prev_after run prev)
             [] caps) = Some e ->
  m fl (RRepeat mn None true r1) k (mkState pos prev run caps) = Some e.
Proof.
  intros H1 Hp Hn Hk. rewrite <- (app_nil_r run).
  now apply (m_greedy_run r1 p).
Qed.

(** A greedy repetition that may be empty is skipped where its
    sub-pattern cannot start. *)
Lemma m_skip (r1 : regex) (k : mstate -> option mstate) (mx : option nat)
  (st : mstate) :
  (forall k', m fl r1 k' st = None) ->
  m fl (RRepeat 0 mx true r1) k st = k st.
Proof.
  intros H. cbn [m Nat.add rep_loop Nat.ltb Nat.leb].
  destruct (negb (below 0 mx)); [reflexivity|]. now rewrite H.
Qed.

(** A lazy repetition stops after its first character when the rest of
    the pattern matches there. *)
Lemma m_lazy_one (r1 : regex) (q : char -> bool)
  (k : mstate -> option mstate) c rest pos prev caps e :
  m fl r1 = one_char q -> q c = true ->
  k (mkState (N.succ pos) (Some c) rest caps) = Some e ->
  m fl (RRepeat 1 None false r1) k (mkState pos prev (c :: rest) caps)
  = Some e.
Proof.
  intros H1 Hc Hk. cbn [m ms_rest List.length Nat.add]. rewrite H1.
  cbn [rep_loop Nat.ltb Nat.leb].
  unfold one_char at 1. cbn [ms_rest]. rewrite Hc.
  unfold advance. cbn [ms_pos ms_caps below negb].
  destruct (List.length rest) as [|fuel];
    cbn [rep_loop Nat.ltb Nat.leb below negb]; now rewrite Hk.
Qed.

(** A match at the position where the search starts is the one the
    search reports. *)
Lemma search_from_hit (r : regex) pos prev rest must_advance e :
  match_at fl r must_advance (mkState pos prev rest []) = Some e ->
  search_from fl r pos prev rest must_advance
  = Some ([], mkState pos prev rest [], e).
Proof. intros H. destruct rest; cbn [search_from]; now rewrite H. Qed.

End Steps.

(** After a step: the rest of the pattern applied to the new position. *)
Ltac step :=
  cbv beta; cbn [set_cap advance ms_pos ms_prev ms_rest ms_caps].

End ReFacts.

(** ** Whitespace normalisation

    [re.sub(r'\s+', ' ', s).strip()], the cleaning the extractor applies
    to descriptions: it keeps every character that is not whitespace and
    applying it twice changes nothing more. *)

Module StrFacts.
Import Str Re ReFacts.

Section Whitespace.
Context {U : UnicodeDB}.

(** [re.sub(r'\s+', ' ', s)] *)
Definition collapse (s : str) : str := sub_runs uc_isspace [SP] s.

Definition has_nonspace (s : str) : bool :=
  existsb (fun c => negb (uc_isspace c)) s.

(** No two adjacent whitespace characters, and no whitespace character
    other than the blank; [after_space] tells whether the character
    before was whitespace. *)
Fixpoint tidy (after_space : bool) (s : str) : bool :=
  match s with
  | [] => true
  | c :: s' =>
    if uc_isspace c then negb after_space && char_eqb c SP && tidy true s'
    else tidy false s'
  end.

Lemma sub_runs_ext (p q : char -> bool) repl b s :
  (forall c, p c = q c) ->
  sub_runs_aux p repl b s = sub_runs_aux q repl b s.
Proof.
  intros H. revert b; induction s as [|c s IH]; intros b; simpl;
    [reflexivity|].
  rewrite <- H. destruct (p c); destruct b; now rewrite ?IH.
Qed.

Lemma re_sub_spaces (s : str) :
  re_sub NOFLAGS (plus space) [SP] s = collapse s.
Proof.
  unfold space, collapse, sub_runs.
  rewrite (re_sub_runs NOFLAGS (RIn [CCat CatSpace])
             (in_match NOFLAGS [CCat CatSpace]) eq_refl).
  unfold sub_runs.
  apply sub_runs_ext. intros c. unfold in_match. simpl.
  apply orb_false_r.
Qed.

Lemma lstrip_nonempty s : nonempty (lstrip s) = has_nonspace s.
Proof.
  induction s as [|c s IH]; simpl; [reflexivity|].
  destruct (uc_isspace c); simpl; [exact IH | reflexivity].
Qed.

Lemma rstrip_nonempty s : nonempty (rstrip s) = has_nonspace s.
Proof.
  induction s as [|c s IH]; simpl; [reflexivity|].
  destruct (rstrip s) as [|x r]; simpl in *.
  - rewrite <- IH. destruct (uc_isspace c); reflexivity.
  - rewrite <- IH. now rewrite orb_true_r.
Qed.

Lemma lstrip_has_nonspace s : has_nonspace (lstrip s) = has_nonspace s.
Proof.
  induction s as [|c s IH]; simpl; [reflexivity|].
  destruct (uc_isspace c) eqn:E; simpl; [exact IH | now rewrite E].
Qed.

Lemma strip_nonempty s : nonempty (strip s) = has_nonspace s.
Proof.
  unfold strip. now rewrite rstrip_nonempty, lstrip_has_nonspace.
Qed.

Lemma has_nonspace_app a b :
  has_nonspace (a ++ b) = has_nonspace a || has_nonspace b.
Proof. apply existsb_app. Qed.

Lemma sub_runs_keeps_nonspace repl b s :
  has_nonspace s = true ->
  has_nonspace (sub_runs_aux uc_isspace repl b s) = true.
Proof.
  revert b; induction s as [|c s IH]; intros b; simpl; [discriminate|].
  destruct (uc_isspace c) eqn:E; simpl; intros H.
  - destruct b; [now apply IH|].
    rewrite has_nonspace_app, (IH true H). apply orb_true_r.
  - now rewrite E.
Qed.

(** A description that is not blank is not blank after cleaning. *)
Lemma clean_nonempty s :
  nonempty (strip s) = true -> nonempty (strip (collapse s)) = true.
Proof.
  rewrite !strip_nonempty. apply sub_runs_keeps_nonspace.
Qed.

Lemma tidy_fixed b s :
  tidy b s = true -> sub_runs_aux uc_isspace [SP] b s = s.
Proof.
  revert b; induction s as [|c s IH]; intros b; simpl; [reflexivity|].
  destruct (uc_isspace c) eqn:E.
  - intros H. apply andb_true_iff in H as [H Ht].
    apply andb_true_iff in H as [Hb Hc].
    apply negb_true_iff in Hb. subst b.
    apply N.eqb_eq in Hc. subst c. simpl. now rewrite (IH true Ht).
  - intros H. now rewrite (IH false H).
Qed.

Lemma tidy_no_space b s :
  forallb (fun c => negb (uc_isspace c)) s = true -> tidy b s = true.
Proof.
  revert b; induction s as [|c s IH]; intros b; simpl; [reflexivity|].
  intros H. apply andb_true_iff in H as [Hc Hs].
  apply negb_true_iff in Hc. rewrite Hc. now apply IH.
Qed.

Lemma collapse_no_space b s :
  uc_isspace SP = false ->
  forallb (fun c => negb (uc_isspace c))
          (sub_runs_aux uc_isspace [SP] b s) = true.
Proof.
  intros Hsp. revert b; induction s as [|c s IH]; intros b; simpl;
    [reflexivity|].
  destruct (uc_isspace c) eqn:E.
  - destruct b; [apply IH|]. simpl. rewrite Hsp. simpl. apply IH.
  - simpl. rewrite E. simpl. apply IH.
Qed.

Lemma collapse_tidy b s :
  tidy b (sub_runs_aux uc_isspace [SP] b s) = true.
Proof.
  destruct (uc_isspace SP) eqn:Hsp.
  - revert b; induction s as [|c s IH]; intros b; simpl; [reflexivity|].
    destruct (uc_isspace c) eqn:E.
    + destruct b; [apply IH|]. simpl. rewrite Hsp. simpl. apply IH.
    + simpl. rewrite E. apply IH.
  - apply tidy_no_space, collapse_no_space, Hsp.
Qed.

Lemma tidy_weaken b s : tidy b s = true -> tidy false s = true.
Proof.
  destruct s as [|c s]; simpl; [reflexivity|].
  destruct (uc_isspace c); [|trivial].
  intros H. apply andb_true_iff in H as [H Ht].
  apply andb_true_iff in H as [_ Hc]. now rewrite Hc, Ht.
Qed.

Lemma tidy_lstrip b s : tidy b s = true -> tidy false (lstrip s) = true.
Proof.
  revert b; induction s as [|c s IH]; intros b; simpl; [reflexivity|].
  destruct (uc_isspace c) eqn:E.
  - intros H. apply andb_true_iff in H as [_ Ht]. now apply (IH true).
  - intros H. simpl. now rewrite E.
Qed.

Lemma tidy_rstrip b s : tidy b s = true -> tidy b (rstrip s) = true.
Proof.
  revert b; induction s as [|c s IH]; intros b; simpl; [reflexivity|].
  destruct (uc_isspace c) eqn:E.
  - intros H. apply andb_true_iff in H as [H Ht].
    specialize (IH true Ht).
    destruct (rstrip s) as [|x r]; [reflexivity|].
    simpl. rewrite E. simpl in IH. now rewrite H, IH.
  - intros H. specialize (IH false H).
    destruct (rstrip s) as [|x r]; simpl; rewrite E; [reflexivity|].
    exact IH.
Qed.

Lemma rstrip_idem s : rstrip (rstrip s) = rstrip s.
Proof.
  induction s as [|c s IH]; simpl; [reflexivity|].
  destruct (rstrip s) as [|x r] eqn:R.
  - destruct (uc_isspace c) eqn:E; simpl; [reflexivity | now rewrite E].
  - change (rstrip (c :: x :: r))
      with (match rstrip (x :: r) with
            | [] => if uc_isspace c then [] else [c]
            | r' => c :: r'
            end).
    now rewrite IH.
Qed.

Lemma rstrip_head c s :
  uc_isspace c = false -> exists r, rstrip (c :: s) = c :: r.
Proof.
  intros E. simpl. destruct (rstrip s) as [|x r]; rewrite ?E; eauto.
Qed.

Lemma lstrip_head s :
  lstrip s = [] \/ exists c r, lstrip s = c :: r /\ uc_isspace c = false.
Proof.
  induction s as [|c s IH]; simpl; [now left|].
  destruct (uc_isspace c) eqn:E; [exact IH|]. right. eauto.
Qed.

Lemma strip_idem s : strip (strip s) = strip s.
Proof.
  unfold strip.
  destruct (lstrip_head s) as [H | (c & r & H & E)]; rewrite H.
  - reflexivity.
  - destruct (rstrip_head c r E) as [r' Hr]. rewrite Hr.
    simpl lstrip. rewrite E. rewrite <- Hr. apply rstrip_idem.
Qed.

(** Cleaning a cleaned description gives it back. *)
Lemma clean_idem s :
  strip (collapse (strip (collapse s))) = strip (collapse s).
Proof.
  assert (Ht : tidy false (strip (collapse s)) = true).
  { unfold strip. apply tidy_rstrip, (tidy_lstrip false).
    apply collapse_tidy. }
  unfold collapse at 1, sub_runs. rewrite (tidy_fixed _ _ Ht).
  apply strip_idem.
Qed.

(** ** Characters that survive *)

Lemma forallb_lstrip (q : char -> bool) s :
  forallb q s = true -> forallb q (lstrip s) = true.
Proof.
  induction s as [|c s IH]; simpl; [reflexivity|].
  intros H. apply andb_true_iff in H as [Hc Hs].
  destruct (uc_isspace c); [now apply IH|]. simpl. now rewrite Hc, Hs.
Qed.

Lemma forallb_rstrip (q : char -> bool) s :
  forallb q s = true -> forallb q (rstrip s) = true.
Proof.
  induction s as [|c s IH]; simpl; [reflexivity|].
  intros H. apply andb_true_iff in H as [Hc Hs]. specialize (IH Hs).
  destruct (rstrip s) as [|x r].
  - destruct (uc_isspace c); simpl; [reflexivity | now rewrite Hc].
  - change (forallb q (c :: x :: r)) with (q c && forallb q (x :: r)).
    now rewrite Hc, IH.
Qed.

Lemma forallb_strip (q : char -> bool) s :
  forallb q s = true -> forallb q (strip s) = true.
Proof. intros H. now apply forallb_rstrip, forallb_lstrip. Qed.

Lemma forallb_sub_runs (q p : char -> bool) repl b s :
  forallb q repl = true -> forallb q s = true ->
  forallb q (sub_runs_aux p repl b s) = true.
Proof.
  intros Hr. revert b; induction s as [|c s IH]; intros b; simpl;
    [reflexivity|].
  intros H. apply andb_true_iff in H as [Hc Hs].
  destruct (p c).
  - destruct b; [now apply IH|]. rewrite forallb_app, Hr. now apply IH.
  - simpl. rewrite Hc. now apply IH.
Qed.

Lemma sub_runs_none (p : char -> bool) repl b s :
  forallb (fun c => negb (p c)) s = true -> sub_runs_aux p repl b s = s.
Proof.
  revert b; induction s as [|c s IH]; intros b; simpl; [reflexivity|].
  intros H. apply andb_true_iff in H as [Hc Hs].
  apply negb_true_iff in Hc. rewrite Hc. now rewrite IH.
Qed.

Lemma split_on_aux_none (sep : char) (acc s : str) :
  forallb (fun c => negb (char_eqb c sep)) s = true ->
  split_on_aux sep acc s = [rev acc ++ s].
Proof.
  revert acc; induction s as [|c s IH]; intros acc; simpl.
  - now rewrite app_nil_r.
  - intros H. apply andb_true_iff in H as [Hc Hs].
    apply negb_true_iff in Hc. rewrite Hc, (IH _ Hs). simpl.
    now rewrite <- app_assoc.
Qed.

Lemma split_on_none (sep : char) (s : str) :
  forallb (fun c => negb (char_eqb c sep)) s = true -> split_on sep s = [s].
Proof. apply split_on_aux_none. Qed.

Lemma rstrip_last (s : str) (c : char) :
  uc_isspace c = false -> rstrip (s ++ [c]) = s ++ [c].
Proof.
  intros Hc. induction s as [|x s IH]; cbn [app rstrip].
  - now rewrite Hc.
  - rewrite IH. destruct (s ++ [c]) eqn:E; [|reflexivity].
    now destruct s.
Qed.

Lemma tidy_skip (run t : str) :
  forallb (fun c => negb (uc_isspace c)) run = true ->
  tidy false (run ++ t) = tidy false t.
Proof.
  induction run as [|c run IH]; [reflexivity|].
  cbn [forallb app tidy]. intros H. apply andb_true_iff in H as [Hc Hr].
  apply negb_true_iff in Hc. rewrite Hc. now apply IH.
Qed.

End Whitespace.

Lemma forallb_repeat (q : char -> bool) (c : char) (n : nat) :
  q c = true -> forallb q (repeat c n) = true.
Proof.
  intros H. induction n as [|n IH]; [reflexivity|].
  cbn [repeat forallb]. now rewrite H, IH.
Qed.

Lemma filter_kept (q : char -> bool) (s : str) :
  forallb q s = true -> filter q s = s.
Proof.
  induction s as [|x s IH]; [reflexivity|].
  cbn [forallb filter]. intros H. apply andb_true_iff in H as [Hx Hs].
  now rewrite Hx, IH.
Qed.

End StrFacts.

(* ================================================================== *)
(** * Exceptions *)
(* ================================================================== *)

(** The exceptions of the modelled code ([decimal.Overflow],
    [decimal.InvalidOperation], [IndexError], and any other exception
    with its message), and computations that either return or raise. *)
Inductive exn :=
| DecimalOverflow
| InvalidOperation
| IndexError
| Error (message : Str.str).

Inductive result (A : Type) : Type :=
| Ok (a : A)
| Raise (e : exn).
Arguments Ok {A} a.
Arguments Raise {A} e.

(** [str(e)] *)
Definition exn_message (e : exn) : Str.str :=
  match e with
  | DecimalOverflow => Str.lit "[<class 'decimal.Overflow'>]"
  | InvalidOperation => Str.lit "[<class 'decimal.ConversionSyntax'>]"
  | IndexError => Str.lit "list index out of range"
  | Error message => message
  end.

Definition bind {A B : Type} (x : result A) (f : A -> result B) : result B :=
  match x with
  | Ok a => f a
  | Raise e => Raise e
  end.

Notation "x <- c ;; k" := (bind c (fun x => k))
  (at level 61, c at next level, right associativity).

(** [o is not None] *)
Definition is_some {A : Type} (o : option A) : bool :=
  match o with Some _ => true | None => false end.

(** [n > len * share] for a count [n], a number of lines [len] and the
    share [num/den] ([table_lines > len(lines) * 0.6]).  The code
    multiplies by a float; for the shares 0.3, 0.4 and 0.6 the float
    product compares with a count as the exact product does. *)
Definition exceeds_share (n len : nat) (num den : Z) : bool :=
  (num * Z.of_nat len <? den * Z.of_nat n)%Z.

(** [a < b] on rationals. *)
Definition Qlt_bool (a b : Q) : bool := negb (Qle_bool b a).

(* ================================================================== *)
(** * Decimal numbers *)
(* ================================================================== *)

Module Dec.
Import Str.

(** A finite [decimal.Decimal]: sign, coefficient and exponent, standing
    for [(-1)^sign * coeff * 10^exp]. *)
Record Decimal := mkDec { d_sign : bool; d_coeff : N; d_exp : Z }.

(** The default context: 28 significant digits, round-half-even,
    exponents between -999999 and 999999, overflow trapped. *)
Definition PREC : Z := 28.
Definition EMAX : Z := 999999.
Definition EMIN : Z := -999999.
Definition ETINY : Z := EMIN - PREC + 1.
Definition ETOP : Z := EMAX - PREC + 1.

(** Number of decimal digits of a coefficient ([len(str(n))]). *)
Fixpoint ndigits_fuel (fuel : nat) (n : N) : Z :=
  match fuel with
  | O => 1
  | S fuel' => if (n <? 10)%N then 1 else 1 + ndigits_fuel fuel' (n / 10)%N
  end.

Definition ndigits (n : N) : Z := ndigits_fuel (N.size_nat n) n.

Definition pow10 (k : Z) : N := (10 ^ Z.to_N k)%N.

(** [Decimal._fix]: bring a result within the context, rounding the
    coefficient to the precision; [Raise] when the exponent overflows. *)
Definition fix_context (d : Decimal) : result Decimal :=
  if (d_coeff d =? 0)%N then
    Ok (mkDec (d_sign d) 0 (Z.min (Z.max (d_exp d) ETINY) EMAX))
  else
    let len := ndigits (d_coeff d) in
    let exp_min := (len + d_exp d - PREC)%Z in
    if (exp_min >? ETOP)%Z then Raise DecimalOverflow
    else
      let exp_min := Z.max exp_min ETINY in
      if (d_exp d <? exp_min)%Z then
        let unit := pow10 (exp_min - d_exp d) in
        let q := (d_coeff d / unit)%N in
        let r := (d_coeff d mod unit)%N in
        let up := ((unit <? 2 * r) || ((unit =? 2 * r) && N.odd q))%N in
        let q' := if up then (q + 1)%N else q in
        let carry := up && (ndigits q' >? PREC)%Z in
        let coeff := if carry then (q' / 10)%N else q' in
        let exp' := if carry then (exp_min + 1)%Z else exp_min in
        if (exp' >? ETOP)%Z then Raise DecimalOverflow
        else Ok (mkDec (d_sign d) coeff exp')
      else Ok d.

(** [a * b]. *)
Definition mul (a b : Decimal) : result Decimal :=
  fix_context (mkDec (xorb (d_sign a) (d_sign b))
                     (d_coeff a * d_coeff b) (d_exp a + d_exp b)).

(** The numerator of a value once both are written over the smaller of
    the two exponents [e]. *)
Definition scaled (a : Decimal) (e : Z) : Z :=
  let v := Z.of_N (d_coeff a * pow10 (d_exp a - e)) in
  if d_sign a then (- v)%Z else v.

(** [a < b]. *)
Definition lt (a b : Decimal) : bool :=
  let e := Z.min (d_exp a) (d_exp b) in
  (scaled a e <? scaled b e)%Z.

(** [a > 0] and [bool(a)]. *)
Definition positive (a : Decimal) : bool :=
  negb (d_sign a) && negb (d_coeff a =? 0)%N.

Definition nonzero (a : Decimal) : bool := negb (d_coeff a =? 0)%N.

(** [sorted(xs)]: stable, by [<]. *)
Fixpoint insert_sorted (x : Decimal) (xs : list Decimal) : list Decimal :=
  match xs with
  | [] => [x]
  | y :: ys => if lt x y then x :: xs else y :: insert_sorted x ys
  end.

Definition sorted (xs : list Decimal) : list Decimal :=
  fold_left (fun acc x => insert_sorted x acc) xs [].

Section Parse.
Context {U : UnicodeDB}.

(** The digits of a numeral, most significant first, as a number. *)
Fixpoint digits_value (acc : N) (s : str) : option N :=
  match s with
  | [] => Some acc
  | c :: s' =>
    match uc_decimal c with
    | Some d => digits_value (acc * 10 + d)%N s'
    | None => None
    end
  end.

(** [Decimal(s)] for the numerals the extractor builds, which hold
    decimal digits and dots only: digits with at most one dot among
    them.  [None] stands for the [InvalidOperation] the constructor
    raises on anything else in that alphabet; signs, exponents, blanks
    and the special values never reach it. *)
Definition of_str (s : str) : option Decimal :=
  match split_on DOT s with
  | [ip] =>
    match ip, digits_value 0 ip with
    | _ :: _, Some n => Some (mkDec false n 0)
    | _, _ => None
    end
  | [ip; fp] =>
    match ip ++ fp, digits_value 0 (ip ++ fp) with
    | _ :: _, Some n => Some (mkDec false n (- Z.of_nat (List.length fp)))
    | _, _ => None
    end
  | _ => None
  end.

(** [Decimal(s)] outside a handler. *)
Definition decimal (s : str) : result Decimal :=
  match of_str s with
  | Some d => Ok d
  | None => Raise InvalidOperation
  end.

End Parse.

End Dec.

(** ** Numerals too long for the context

    The product of two coefficients of more than [ka] and [kb] digits
    has more than [ka + kb] digits; beyond the largest exponent the
    multiplication raises. *)

Module DecFacts.
Import Str StrFacts Dec.

Lemma size_nat_gt (n : N) : (n < 2 ^ N.of_nat (N.size_nat n))%N.
Proof.
  destruct n as [|p]; [reflexivity|].
  cbn [N.size_nat].
  induction p as [p IH|p IH|]; cbn [Pos.size_nat]; try reflexivity;
    rewrite Nat2N.inj_succ, N.pow_succ_r' by lia;
    set (x := (2 ^ _)%N) in *.
  all: lia.
Qed.

Lemma ndigits_fuel_pos fuel n : (1 <= ndigits_fuel fuel n)%Z.
Proof.
  revert n; induction fuel as [|f IH]; intros n; cbn [ndigits_fuel]; [lia|].
  destruct (n <? 10)%N; [lia|]. specialize (IH (n / 10)%N). lia.
Qed.

Lemma ndigits_fuel_lower (k : nat) :
  forall fuel n,
    (n < 2 ^ N.of_nat fuel)%N -> (10 ^ N.of_nat k <= n)%N ->
    (Z.of_nat k + 1 <= ndigits_fuel fuel n)%Z.
Proof.
  induction k as [|k IH]; intros fuel n Hf Hk.
  - pose proof (ndigits_fuel_pos fuel n). lia.
  - rewrite Nat2N.inj_succ, N.pow_succ_r' in Hk.
    assert (H1 : (1 <= 10 ^ N.of_nat k)%N).
    { pose proof (N.pow_nonzero 10 (N.of_nat k)). lia. }
    destruct fuel as [|fuel]; [simpl in Hf; lia|].
    rewrite Nat2N.inj_succ, N.pow_succ_r' in Hf.
    cbn [ndigits_fuel].
    replace (n <? 10)%N with false by (symmetry; apply N.ltb_ge; lia).
    assert (Hq : (10 ^ N.of_nat k <= n / 10)%N)
      by (apply N.div_le_lower_bound; lia).
    assert (Hd : (n / 10 < 2 ^ N.of_nat fuel)%N).
    { apply N.Div0.div_lt_upper_bound. lia. }
    specialize (IH fuel (n / 10)%N Hd Hq). lia.
Qed.

(** A coefficient from [10^k] on has more than [k] digits. *)
Lemma ndigits_lower (k : nat) (n : N) :
  (10 ^ N.of_nat k <= n)%N -> (Z.of_nat k + 1 <= ndigits n)%Z.
Proof. apply ndigits_fuel_lower, size_nat_gt. Qed.

Lemma mul_overflows (a b : Decimal) (ka kb : nat) :
  (10 ^ N.of_nat ka <= d_coeff a)%N ->
  (10 ^ N.of_nat kb <= d_coeff b)%N ->
  (ETOP < Z.of_nat (ka + kb) + 1 + (d_exp a + d_exp b) - PREC)%Z ->
  mul a b = Raise DecimalOverflow.
Proof.
  intros Ha Hb H. unfold mul, fix_context. cbn [d_coeff d_exp d_sign].
  assert (Hab : (10 ^ N.of_nat (ka + kb) <= d_coeff a * d_coeff b)%N).
  { rewrite Nat2N.inj_add, N.pow_add_r. now apply N.mul_le_mono. }
  assert (H1 : (1 <= 10 ^ N.of_nat (ka + kb))%N).
  { pose proof (N.pow_nonzero 10 (N.of_nat (ka + kb))). lia. }
  replace (d_coeff a * d_coeff b =? 0)%N with false
    by (symmetry; apply N.eqb_neq; lia).
  pose proof (ndigits_lower _ _ Hab) as Hn.
  replace (_ >? ETOP)%Z with true; [reflexivity|].
  symmetry. apply Z.gtb_lt. lia.
Qed.

Section Numerals.
Context {U : UnicodeDB}.

Definition numeral_char (c : char) : bool :=
  is_some (uc_decimal c) && negb (char_eqb c DOT).

(** A numeral without a dot, of [k] digits after a first digit that is
    not zero. *)
Definition long_numeral (k : nat) (s : str) : bool :=
  match s with
  | c :: rest =>
    match uc_decimal c with Some d => (1 <=? d)%N | None => false end
    && forallb numeral_char s && (k =? List.length rest)
  | [] => false
  end.

Lemma digits_value_lower (s : str) :
  forall acc,
    forallb numeral_char s = true ->
    exists v, digits_value acc s = Some v /\
              (acc * 10 ^ N.of_nat (List.length s) <= v)%N.
Proof.
  induction s as [|c s IH]; intros acc H.
  - exists acc. split; [reflexivity|]. cbn [List.length N.of_nat]. lia.
  - cbn [forallb] in H. apply andb_true_iff in H as [Hc Hs].
    unfold numeral_char in Hc. apply andb_true_iff in Hc as [Hc _].
    cbn [digits_value].
    destruct (uc_decimal c) as [d|]; [|discriminate].
    destruct (IH (acc * 10 + d)%N Hs) as (v & Hv & Hle).
    exists v. split; [exact Hv|].
    cbn [List.length]. rewrite Nat2N.inj_succ, N.pow_succ_r'.
    set (x := (10 ^ _)%N) in *. nia.
Qed.

(** [Decimal(s)] of such a numeral is an integer from [10^k] on. *)
Lemma of_str_long (k : nat) (s : str) :
  long_numeral k s = true ->
  exists v, of_str s = Some (mkDec false v 0) /\ (10 ^ N.of_nat k <= v)%N.
Proof.
  unfold long_numeral. destruct s as [|c rest]; [discriminate|].
  intros H. apply andb_true_iff in H as [H Hk].
  apply andb_true_iff in H as [Hd Hs].
  apply Nat.eqb_eq in Hk. subst k.
  unfold of_str. rewrite split_on_none.
  2:{ clear Hd. induction (c :: rest) as [|x l IH]; [reflexivity|].
      cbn [forallb] in *. apply andb_true_iff in Hs as [Hx Hl].
      unfold numeral_char in Hx. apply andb_true_iff in Hx as [_ Hx].
      now rewrite Hx, IH. }
  cbn [forallb] in Hs. apply andb_true_iff in Hs as [_ Hs].
  cbn [digits_value].
  destruct (uc_decimal c) as [d|]; [|discriminate].
  apply N.leb_le in Hd.
  destruct (digits_value_lower rest (0 * 10 + d)%N Hs) as (v & Hv & Hle).
  rewrite Hv. exists v. split; [reflexivity|].
  set (x := (10 ^ _)%N) in *. nia.
Qed.

End Numerals.
End DecFacts.

(* ================================================================== *)
(** * DataExtractor *)
(* ================================================================== *)

Module Extractor.
Import Str Re Dec.

(** A budget item: the dictionary with the six keys ['code'],
    ['description'], ['unit'], ['quantity'], ['unit_price'] and
    ['total_price'] that every extraction strategy builds.  The three
    amounts are [None] or a [Decimal]. *)
Record item := mkItem {
  code : str;
  description : str;
  unit : str;
  quantity : option Decimal;
  unit_price : option Decimal;
  total_price : option Decimal
}.

(** [len(item)]: the number of keys of the dictionary. *)
Definition dict_len (_ : item) : nat := 6.

Definition empty_item : item := mkItem [] [] [] None None None.

Definition set_code (v : str) (it : item) : item :=
  mkItem v (description it) (unit it) (quantity it) (unit_price it)
         (total_price it).
Definition set_description (v : str) (it : item) : item :=
  mkItem (code it) v (unit it) (quantity it) (unit_price it) (total_price it).
Definition set_unit (v : str) (it : item) : item :=
  mkItem (code it) (description it) v (quantity it) (unit_price it)
         (total_price it).
Definition set_quantity (v : option Decimal) (it : item) : item :=
  mkItem (code it) (description it) (unit it) v (unit_price it)
         (total_price it).
Definition set_unit_price (v : option Decimal) (it : item) : item :=
  mkItem (code it) (description it) (unit it) (quantity it) v (total_price it).
Definition set_total_price (v : option Decimal) (it : item) : item :=
  mkItem (code it) (description it) (unit it) (quantity it) (unit_price it) v.

(** Truth value of an optional amount: present and not zero. *)
Definition truthy (d : option Decimal) : bool :=
  match d with Some x => Dec.nonzero x | None => false end.

Fixpoint foldM {A B : Type} (f : A -> B -> result A) (l : list B) (a : A)
  : result A :=
  match l with
  | [] => Ok a
  | b :: l' => a' <- f a b ;; foldM f l' a'
  end.

(** ** The patterns of the class *)

(** [(m2|m3|kg|ml|l|un|m)] *)
Definition units : regex :=
  words ["m2"; "m3"; "kg"; "ml"; "l"; "un"; "m"]%string.

(** [\d+(?:\.\d+)?] and [\d+(?:\.\d+)*] *)
Definition number : regex := RSeq (plus digit) (opt (RSeq dot (plus digit))).
Definition dotted : regex := RSeq (plus digit) (star (RSeq dot (plus digit))).

(** [\d+(?:\.\d{2})?] *)
Definition amount : regex :=
  RSeq (plus digit) (opt (RSeq dot (times 2 digit))).

(** [[A-Z]{2,3}\d{2,4}] *)
Definition work_code : regex :=
  RSeq (between 2 3 (RIn [CRange (ch "A") (ch "Z")])) (between 2 4 digit).

(** [[$\d,\.]+] *)
Definition price_chars : regex :=
  plus (RIn [CLit DOLLAR; CCat CatDigit; CLit COMMA; CLit DOT]).

(** [self.currency_patterns]:
    [\$?\d{1,3}(?:,\d{3})*\.?\d{0,2}], [\d{1,3}(?:\.\d{3})*,\d{2}] and
    [\b\d+\.\d{2}\b]. *)
Definition currency_patterns : list regex :=
  [ seq_of [opt (RLit DOLLAR); between 1 3 digit;
            star (RSeq (RLit COMMA) (times 3 digit)); opt dot;
            between 0 2 digit];
    seq_of [between 1 3 digit; star (RSeq dot (times 3 digit));
            RLit COMMA; times 2 digit];
    seq_of [RWordB; plus digit; dot; times 2 digit; RWordB] ].

(** [self.common_units] *)
Definition common_units : list str :=
  map lit ["m2"; "m3"; "kg"; "ml"; "l"; "un"; "hm"; "km"; "m"; "pieza";
           "juego"; "global"; "metros"; "kilogramos"; "litros"; "unidades";
           "metros cuadrados"; "metros cúbicos"]%string.

Definition str_in (s : str) (l : list str) : bool := existsb (str_eqb s) l.

(** [price.replace('$', '').replace(',', '')] *)
Definition clean_price (s : str) : str :=
  remove_char COMMA (remove_char DOLLAR s).

(** [f"{n:03d}"] *)
Definition format_03d (n : nat) : str :=
  let d := str_of_nat n in repeat 48%N (3 - List.length d) ++ d.

Section WithDB.
Context {U : UnicodeDB}.

(** ** Text cleaning and format detection *)

Definition _clean_text (text : str) : str :=
  (* re.sub(r'[\x00-\x1f\x7f-\x9f]', ' ', text) *)
  let text :=
    re_sub NOFLAGS (RIn [CRange 0%N 31%N; CRange 127%N 159%N]) [SP] text in
  (* re.sub(r'\s+', ' ', text) *)
  let text := re_sub NOFLAGS (plus space) [SP] text in
  (* re.sub(r'\n+', '\n', text) *)
  let text := re_sub NOFLAGS (plus (RLit LF)) [LF] text in
  strip text.

Definition _is_table_row (line : str) : bool :=
  let numbers := re_findall NOFLAGS number line in
  (3 <=? List.length numbers) && (4 <=? List.length (split_ws line)).

Definition _is_list_item (line : str) : bool :=
  let has_code :=
    is_some (re_match NOFLAGS (seq_of [RBol; star space; dotted]) line) in
  let has_number :=
    is_some (re_search I (seq_of [number; star space; units; RWordB]) line) in
  let has_price :=
    existsb (fun p => is_some (re_search NOFLAGS p line)) currency_patterns in
  has_code && (has_number || has_price).

Fixpoint count_formats (lines : list str) (table_lines list_lines : nat)
  : nat * nat :=
  match lines with
  | [] => (table_lines, list_lines)
  | line :: lines' =>
    if _is_table_row line then count_formats lines' (S table_lines) list_lines
    else if _is_list_item line
         then count_formats lines' table_lines (S list_lines)
         else count_formats lines' table_lines list_lines
  end.

Definition _detect_format (lines : list str) : str :=
  if List.length lines <? 3 then lit "unknown"
  else
    let (table_lines, list_lines) := count_formats lines 0 0 in
    if exceeds_share table_lines (List.length lines) 6 10 then lit "table"
    else if exceeds_share list_lines (List.length lines) 4 10 then lit "list"
    else lit "mixed".

(** ** Tables *)

Definition _split_table_row (line : str) : list str :=
  (* re.split(r'\s{2,}|\t', line.strip()) *)
  let columns :=
    re_split NOFLAGS (RAlt (at_least 2 space) (RLit TAB)) (strip line) in
  map strip (filter (fun col => nonempty (strip col)) columns).

(** The search for a code among the first two columns. *)
Fixpoint code_loop (i : nat) (cols columns : list str) (it : item) : item :=
  match cols with
  | [] => it
  | col :: cols' =>
    if is_some (re_match NOFLAGS (seq_of [RBol; dotted; REol]) col) then
      let it := set_code col it in
      match nth_error columns (i + 1) with
      | Some next => set_description next it
      | None => it
      end
    else code_loop (S i) cols' columns it
  end.

(** The search for quantity and unit, one column. *)
Definition quantity_step (it : item) (col : str) : result item :=
  it <- match re_search I (seq_of [RGroup 1 number; star space;
                                   RGroup 2 units; RWordB]) col with
        | Some qty_match =>
          if negb (truthy (quantity it)) then
            q <- decimal (group qty_match 1) ;;
            Ok (set_unit (group qty_match 2) (set_quantity (Some q) it))
          else Ok it
        | None => Ok it
        end ;;
  Ok match re_search I (seq_of [RWordB; RGroup 1 units; RWordB]) col with
     | Some unit_match =>
       if negb (nonempty (unit it)) then set_unit (group unit_match 1) it
       else it
     | None => it
     end.

(** The amounts a list of pattern matches yields; a match [Decimal]
    rejects is passed over. *)
Definition prices_of (matches : list str) : list Decimal :=
  flat_map (fun price =>
              match of_str (clean_price price) with
              | Some d => [d]
              | None => []
              end) matches.

Definition column_prices (columns : list str) : list Decimal :=
  flat_map (fun col =>
              flat_map (fun pattern =>
                          prices_of (re_findall NOFLAGS pattern col))
                       currency_patterns) columns.

Definition _parse_table_columns (columns : list str) : option item :=
  let attempt : result (option item) :=
    match columns with
    | [] => Raise IndexError (* columns[0] *)
    | first :: _ =>
      let it := code_loop 0 (firstn 2 columns) columns empty_item in
      let it := if negb (nonempty (code it)) then set_description first it
                else it in
      it <- foldM quantity_step columns it ;;
      let prices := column_prices columns in
      it <- match prices with
            | [] => Ok it
            | [p] =>
              let it := set_unit_price (Some p) it in
              match quantity it with
              | Some q =>
                if Dec.nonzero q
                then t <- Dec.mul q p ;; Ok (set_total_price (Some t) it)
                else Ok it
              | None => Ok it
              end
            | _ =>
              let prices_sorted := Dec.sorted prices in
              Ok (set_total_price
                    (Some (last prices_sorted (mkDec false 0 0)))
                    (set_unit_price (hd_error prices_sorted) it))
            end ;;
      if nonempty (description it)
         && (truthy (quantity it) || truthy (unit_price it))
      then Ok (Some it) else Ok None
    end in
  match attempt with
  | Ok r => r
  | Raise _ => None (* except Exception: return None *)
  end.

Fixpoint _extract_from_table (lines : list str) : list item :=
  match lines with
  | [] => []
  | line :: lines' =>
    let columns := _split_table_row line in
    if 4 <=? List.length columns then
      match _parse_table_columns columns with
      | Some it => it :: _extract_from_table lines'
      | None => _extract_from_table lines'
      end
    else _extract_from_table lines'
  end.

(** ** Lists *)

(** The three line templates of [_parse_list_item], each with its number
    of groups:
    "^(\d+(?:\.\d+)*)\s+(.+?)\s+(\d+(?:\.\d+)?)\s*(m2|m3|kg|ml|l|un|m)\s+([$\d,\.]+)",
    "^(\d+)\s+(.+?)\s+(\d+(?:\.\d+)?)\s+([$\d,\.]+)" and
    "^([A-Z]{2,3}\d{2,4})\s+(.+?)\s+(\d+(?:\.\d+)?)\s*(m2|m3|kg|ml|l|un|m)". *)
Definition list_patterns : list (regex * nat) :=
  [ (seq_of [RBol; RGroup 1 dotted; plus space; RGroup 2 (lazy_plus RAny);
             plus space; RGroup 3 number; star space; RGroup 4 units;
             plus space; RGroup 5 price_chars], 5);
    (seq_of [RBol; RGroup 1 (plus digit); plus space;
             RGroup 2 (lazy_plus RAny); plus space; RGroup 3 number;
             plus space; RGroup 4 price_chars], 4);
    (seq_of [RBol; RGroup 1 work_code; plus space;
             RGroup 2 (lazy_plus RAny); plus space; RGroup 3 number;
             star space; RGroup 4 units], 4) ].

(** [match.groups()] *)
Definition groups_of (mt : rmatch) (n : nat) : list str :=
  map (group mt) (seq 1 n).

Definition item_of_groups (groups : list str) : result item :=
  q <- decimal (nth 2 groups []) ;;
  let u := if (3 <? List.length groups) && str_in (nth 3 groups []) common_units
           then nth 3 groups [] else [] in
  let it := mkItem (nth 0 groups []) (strip (nth 1 groups [])) u
                   (Some q) None None in
  Ok (if 4 <? List.length groups then
        match of_str (clean_price (nth 4 groups [])) with
        | Some p => set_unit_price (Some p) it
        | None => it
        end
      else it).

Fixpoint first_template (patterns : list (regex * nat)) (line : str)
  : result (option item) :=
  match patterns with
  | [] => Ok None
  | (pattern, n) :: patterns' =>
    match re_search I pattern line with
    | Some mt => it <- item_of_groups (groups_of mt n) ;; Ok (Some it)
    | None => first_template patterns' line
    end
  end.

Definition _parse_list_item (line : str) : result (option item) :=
  let line := strip line in
  if negb (nonempty line) then Ok None
  else first_template list_patterns line.

(** [line.strip()[0].isdigit()] *)
Definition starts_with_digit (s : str) : bool :=
  match s with c :: _ => uc_isdigit c | [] => false end.

Definition push (items : list item) (current_item : option item)
  : list item :=
  match current_item with
  | Some it => items ++ [it]
  | None => items
  end.

Fixpoint list_loop (lines : list str) (items : list item)
  (current_item : option item) : result (list item) :=
  match lines with
  | [] => Ok (push items current_item)
  | line :: lines' =>
    new_item <- _parse_list_item line ;;
    match new_item, current_item with
    | Some it, _ => list_loop lines' (push items current_item) (Some it)
    | None, Some cur =>
      let s := strip line in
      if (10 <? List.length s) && negb (starts_with_digit s)
      then list_loop lines' items
             (Some (set_description (description cur ++ [SP] ++ s) cur))
      else list_loop lines' items current_item
    | None, None => list_loop lines' items None
    end
  end.

Definition _extract_from_list (lines : list str) : result (list item) :=
  list_loop lines [] None.

(** ** Free text *)

(** [_extract_item_with_patterns]: a code, a quantity with its unit, a
    price and a description looked for anywhere in a piece of text. *)
Fixpoint first_price (patterns : list regex) (text : str) : option Decimal :=
  match patterns with
  | [] => None
  | pattern :: patterns' =>
    match re_findall NOFLAGS pattern text with
    | price :: _ =>
      match of_str (clean_price price) with
      | Some d => Some d
      | None => first_price patterns' text
      end
    | [] => first_price patterns' text
    end
  end.

(** [_is_valid_item] *)
Definition _is_valid_item (it : item) : bool :=
  let has_description := nonempty (strip (description it)) in
  let has_quantity :=
    match quantity it with Some q => Dec.positive q | None => false end in
  let has_price :=
    match unit_price it with Some p => Dec.positive p | None => false end in
  has_description && (has_quantity || has_price).

Definition _extract_item_with_patterns (text : str) : result (option item) :=
  let it := empty_item in
  (* re.search("\b(\d+(?:\.\d+)*)\b", text) *)
  let it := match re_search NOFLAGS
                    (seq_of [RWordB; RGroup 1 dotted; RWordB]) text with
            | Some code_match => set_code (group code_match 1) it
            | None => it
            end in
  (* re.search("\b(\d+(?:\.\d+)?)\s*(m2|m3|kg|ml|l|un|m)\b", text, re.IGNORECASE) *)
  it <- match re_search I (seq_of [RWordB; RGroup 1 number; star space;
                                   RGroup 2 units; RWordB]) text with
        | Some qty_match =>
          q <- decimal (group qty_match 1) ;;
          Ok (set_unit (group qty_match 2) (set_quantity (Some q) it))
        | None => Ok it
        end ;;
  let it := match first_price currency_patterns text with
            | Some p => set_unit_price (Some p) it
            | None => it
            end in
  (* re.search(r'[a-zA-Z].*', text) *)
  let it := match re_search NOFLAGS
                    (RSeq (RIn [CRange (ch "a") (ch "z");
                                CRange (ch "A") (ch "Z")]) (star RAny))
                    text with
            | Some desc_match => set_description (strip (m_text desc_match)) it
            | None => it
            end in
  Ok (if _is_valid_item it then Some it else None).

(** ** Mixed layouts *)

Definition _is_new_item_line (line : str) : bool :=
  is_some (re_match NOFLAGS (seq_of [RBol; star space; dotted]) line)
  || is_some (re_match NOFLAGS (seq_of [RBol; star space; work_code]) line).

Definition _parse_buffered_lines (lines : list str) : result (option item) :=
  match lines with
  | [] => Ok None
  | _ =>
    let full_text := join [SP] lines in
    it <- _parse_list_item full_text ;;
    match it with
    | Some _ => Ok it
    | None => _extract_item_with_patterns full_text
    end
  end.

(** Parse the buffer, if there is one, into the items. *)
Definition flush (buffer : list str) (items : list item)
  : result (list item) :=
  match buffer with
  | [] => Ok items
  | _ =>
    it <- _parse_buffered_lines buffer ;;
    Ok (push items it)
  end.

Fixpoint line_break_loop (lines : list str) (items : list item)
  (buffer : list str) : result (list item) :=
  match lines with
  | [] => flush buffer items
  | line :: lines' =>
    let line := strip line in
    if negb (nonempty line) then line_break_loop lines' items buffer
    else if _is_new_item_line line then
      items <- flush buffer items ;;
      line_break_loop lines' items [line]
    else line_break_loop lines' items (buffer ++ [line])
  end.

Definition _extract_with_line_breaks (lines : list str)
  : result (list item) :=
  line_break_loop lines [] [].

(** [lines[max(0, i-1):i+2]] *)
Definition context_of (lines : list str) (i : nat) : list str :=
  let start := Nat.max 0 (i - 1) in
  firstn (i + 2 - start) (skipn start lines).

Fixpoint context_loop (all : list str) (i : nat) (lines : list str)
  (items : list item) : result (list item) :=
  match lines with
  | [] => Ok items
  | line :: lines' =>
    if negb (nonempty (strip line)) then context_loop all (S i) lines' items
    else
      let context_text := join [SP] (context_of all i) in
      it <- _extract_item_with_patterns context_text ;;
      match it with
      | Some x =>
        if _is_valid_item x then context_loop all (S i) lines' (items ++ [x])
        else context_loop all (S i) lines' items
      | None => context_loop all (S i) lines' items
      end
  end.

Definition _extract_with_context (lines : list str) : result (list item) :=
  context_loop lines 0 lines [].

(** The templates of [_extract_with_patterns], with the names of their
    groups:
    "(?P<code>\d+(?:\.\d+)*)\s+(?P<desc>.+?)\s+(?P<qty>\d+(?:\.\d+)?)\s*(?P<unit>m2|m3|kg|ml|l|un|m)\s+(?P<uprice>\d+(?:\.\d{2})?)\s+(?P<total>\d+(?:\.\d{2})?)",
    "(?P<code>[A-Z]{2,3}\d{2,4})\s+(?P<desc>.+?)\s+(?P<qty>\d+(?:\.\d+)?)\s+(?P<unit>m2|m3|kg|ml|l|un|m)" and
    "(?P<desc>.+?)\s+(?P<qty>\d+(?:\.\d+)?)\s*(?P<unit>m2|m3|kg|ml|l|un|m)\s+(?P<price>\d+(?:\.\d{2})?)". *)
Definition budget_patterns : list (regex * list (string * nat)) :=
  [ (seq_of [RGroup 1 dotted; plus space; RGroup 2 (lazy_plus RAny);
             plus space; RGroup 3 number; star space; RGroup 4 units;
             plus space; RGroup 5 amount; plus space; RGroup 6 amount],
     [("code", 1); ("desc", 2); ("qty", 3); ("unit", 4); ("uprice", 5);
      ("total", 6)]%string);
    (seq_of [RGroup 1 work_code; plus space; RGroup 2 (lazy_plus RAny);
             plus space; RGroup 3 number; plus space; RGroup 4 units],
     [("code", 1); ("desc", 2); ("qty", 3); ("unit", 4)]%string);
    (seq_of [RGroup 1 (lazy_plus RAny); plus space; RGroup 2 number;
             star space; RGroup 3 units; plus space; RGroup 4 amount],
     [("desc", 1); ("qty", 2); ("unit", 3); ("price", 4)]%string) ].

(** [match.groupdict()] and [groups.get(name)]. *)
Definition groupdict (mt : rmatch) (names : list (string * nat))
  : list (string * str) :=
  map (fun ni => (fst ni, group mt (snd ni))) names.

Fixpoint dict_get (name : string) (groups : list (string * str))
  : option str :=
  match groups with
  | [] => None
  | (n, v) :: groups' =>
    if String.eqb name n then Some v else dict_get name groups'
  end.

Definition get_or_empty (name : string) (groups : list (string * str))
  : str :=
  match dict_get name groups with Some v => v | None => [] end.

(** ['name' in groups and groups['name']] *)
Definition present (name : string) (groups : list (string * str)) : bool :=
  match dict_get name groups with Some v => nonempty v | None => false end.

Definition item_of_groupdict (groups : list (string * str)) : result item :=
  q <- (if present "qty" groups
        then d <- decimal (get_or_empty "qty" groups) ;; Ok (Some d)
        else Ok None) ;;
  let it := mkItem (get_or_empty "code" groups)
                   (strip (get_or_empty "desc" groups))
                   (get_or_empty "unit" groups) q None None in
  let it := if present "uprice" groups then
              match of_str (get_or_empty "uprice" groups) with
              | Some p => set_unit_price (Some p) it
              | None => it
              end
            else it in
  Ok (if present "total" groups then
        match of_str (get_or_empty "total" groups) with
        | Some t => set_total_price (Some t) it
        | None => it
        end
      else if present "price" groups then
        match of_str (get_or_empty "price" groups) with
        | Some p => set_unit_price (Some p) it
        | None => it
        end
      else it).

Definition matches_step (names : list (string * nat)) (items : list item)
  (mt : rmatch) : result (list item) :=
  it <- item_of_groupdict (groupdict mt names) ;;
  Ok (if _is_valid_item it then items ++ [it] else items).

Definition pattern_step (full_text : str) (items : list item)
  (pattern : regex * list (string * nat)) : result (list item) :=
  foldM (matches_step (snd pattern)) (re_finditer IM (fst pattern) full_text)
        items.

Definition _extract_with_patterns (lines : list str) : result (list item) :=
  let full_text := join [LF] lines in
  foldM (pattern_step full_text) budget_patterns [].

(** A strategy that raises is skipped; one that returns more items than
    the best so far replaces it. *)
Definition keep_longer (items : list item) (attempt : result (list item))
  : list item :=
  match attempt with
  | Ok strategy_items =>
    if List.length items <? List.length strategy_items then strategy_items
    else items
  | Raise _ => items
  end.

Definition _extract_from_mixed (lines : list str) : list item :=
  fold_left keep_longer
            [ _extract_with_line_breaks lines;
              _extract_with_context lines;
              _extract_with_patterns lines ] [].

(** ** Validation and cleaning *)

(** [unit_mapping] of [_clean_item] *)
Definition unit_mapping : list (str * str) :=
  [ (lit "metros cuadrados", lit "m2");
    (lit "metros cúbicos", lit "m3");
    (lit "kilogramos", lit "kg");
    (lit "litros", lit "l");
    (lit "unidades", lit "un");
    (lit "metros", lit "m") ].

Fixpoint mapping_get (key : str) (mapping : list (str * str)) (default : str)
  : str :=
  match mapping with
  | [] => default
  | (k, v) :: mapping' =>
    if str_eqb key k then v else mapping_get key mapping' default
  end.

Definition _clean_item (it : item) : result item :=
  let cleaned := it in
  (* re.sub(r'\s+', ' ', description).strip() *)
  let cleaned :=
    set_description
      (strip (re_sub NOFLAGS (plus space) [SP] (description cleaned)))
      cleaned in
  let u := str_lower (unit cleaned) in
  let cleaned := set_unit (mapping_get u unit_mapping (unit cleaned)) cleaned in
  cleaned <-
    match quantity cleaned, unit_price cleaned with
    | Some q, Some p =>
      if Dec.nonzero q && Dec.nonzero p && negb (truthy (total_price cleaned))
      then t <- Dec.mul q p ;; Ok (set_total_price (Some t) cleaned)
      else Ok cleaned
    | _, _ => Ok cleaned
    end ;;
  Ok (if negb (nonempty (code cleaned))
      then set_code (lit "AUTO_" ++ format_03d (dict_len cleaned + 1)) cleaned
      else cleaned).

(** [f"{item.get('code', '')}_{item.get('description', '')[:50]}"] *)
Definition item_key (it : item) : str :=
  code it ++ [UNDERSCORE] ++ firstn 50 (description it).

Fixpoint clean_valid (items : list item) : result (list item) :=
  match items with
  | [] => Ok []
  | it :: items' =>
    if _is_valid_item it then
      cleaned_item <- _clean_item it ;;
      rest <- clean_valid items' ;;
      Ok (cleaned_item :: rest)
    else clean_valid items'
  end.

Fixpoint unique (items : list item) (seen_items : list str) : list item :=
  match items with
  | [] => []
  | it :: items' =>
    let key := item_key it in
    if str_in key seen_items then unique items' seen_items
    else it :: unique items' (key :: seen_items)
  end.

Definition _validate_and_clean_items (items : list item)
  : result (list item) :=
  validated_items <- clean_valid items ;;
  Ok (unique validated_items []).

(** ** The entry point *)

(** The body of the [try] block of [extract_budget_items]. *)
Definition extract_body (text : str) (format_type : option str)
  : result (list item) :=
  let clean_text := _clean_text text in
  let lines := split_on LF clean_text in
  let format_type :=
    match format_type with
    | Some (c :: f) => c :: f
    | _ => _detect_format lines
    end in
  items <-
    (if str_eqb format_type (lit "table") then Ok (_extract_from_table lines)
     else if str_eqb format_type (lit "list") then _extract_from_list lines
     else if str_eqb format_type (lit "mixed")
          then Ok (_extract_from_mixed lines)
          else _extract_with_patterns lines) ;;
  _validate_and_clean_items items.

(** [extract_budget_items]: whatever the body raises is logged and
    answered with the empty list. *)
Definition extract_budget_items (text : str) (format_type : option str)
  : list item :=
  match extract_body text format_type with
  | Ok validated_items => validated_items
  | Raise _ => []
  end.

End WithDB.
End Extractor.

(* ================================================================== *)
(** * Properties of the extractor *)
(* ================================================================== *)

Module ExtractorProps.
Import Str Re Dec Extractor ReFacts StrFacts DecFacts.

(** An amount that is present and strictly positive. *)
Definition has_positive (d : option Decimal) : Prop :=
  exists q, d = Some q /\ Dec.positive q = true.

(** The validity invariant of a returned item. *)
Definition validity_invariant (it : item) : Prop :=
  description it <> [] /\
  (has_positive (quantity it) \/ has_positive (unit_price it)).

(** The precondition of the calculator: quantity, unit price and unit
    all present and positive. *)
Definition calculator_precondition (it : item) : Prop :=
  has_positive (quantity it) /\ has_positive (unit_price it) /\
  unit it <> [].

(** An item the validator leaves as it is. *)
Definition stable {U : UnicodeDB} (it : item) : Prop :=
  _is_valid_item it = true /\ _clean_item it = Ok it.

Section Props.
Context {U : UnicodeDB}.

Lemma has_positive_spec (d : option Decimal) :
  match d with Some q => Dec.positive q | None => false end = true ->
  has_positive d.
Proof.
  destruct d as [q|]; [|discriminate]. intros H. now exists q.
Qed.

(** What [_clean_item] does to each field. *)
Lemma clean_item_fields (it o : item) :
  _clean_item it = Ok o ->
  description o = strip (collapse (description it)) /\
  unit o = mapping_get (str_lower (unit it)) unit_mapping (unit it) /\
  quantity o = quantity it /\
  unit_price o = unit_price it /\
  code o = (if nonempty (code it) then code it else lit "AUTO_007").
Proof.
  destruct it as [c d u q p t]. unfold _clean_item. rewrite re_sub_spaces.
  cbn [quantity unit_price total_price code unit description
       set_description set_unit].
  destruct q as [q|], p as [p|];
    try (destruct (Dec.nonzero q && Dec.nonzero p && negb (truthy t));
         [destruct (Dec.mul q p) as [t'|e]; [|discriminate]|]);
    cbn [bind]; intros H; injection H as <-;
    destruct c; repeat split; reflexivity.
Qed.

Lemma clean_valid_In (items out : list item) (o : item) :
  clean_valid items = Ok out -> In o out ->
  exists it, In it items /\ _is_valid_item it = true /\ _clean_item it = Ok o.
Proof.
  revert out; induction items as [|it items IH]; intros out; simpl.
  - intros H; injection H as <-. contradiction.
  - destruct (_is_valid_item it) eqn:V.
    + destruct (_clean_item it) as [c|e] eqn:C; [|discriminate]. cbn [bind].
      destruct (clean_valid items) as [rest|e]; [|discriminate]. cbn [bind].
      intros H; injection H as <-. intros [<- | Hin].
      * exists it; auto.
      * destruct (IH rest eq_refl Hin) as (it' & ? & ? & ?).
        exists it'; auto.
    + intros H Hin. destruct (IH out H Hin) as (it' & ? & ? & ?).
      exists it'; auto.
Qed.

Lemma unique_In (items : list item) (seen : list str) (o : item) :
  In o (unique items seen) -> In o items.
Proof.
  revert seen; induction items as [|it items IH]; intros seen; simpl; auto.
  destruct (str_in (item_key it) seen).
  - intros H. right. eapply IH, H.
  - intros [<- | H]; [now left | right; eapply IH, H].
Qed.

Lemma validate_In (items out : list item) (o : item) :
  _validate_and_clean_items items = Ok out -> In o out ->
  exists it, In it items /\ _is_valid_item it = true /\ _clean_item it = Ok o.
Proof.
  unfold _validate_and_clean_items.
  destruct (clean_valid items) as [cleaned|e] eqn:C; [|discriminate].
  cbn [bind]. intros H; injection H as <-. intros Hin.
  eapply clean_valid_In; [exact C|]. eapply unique_In, Hin.
Qed.

(** Every returned item is the cleaning of a valid candidate. *)
Lemma extract_In (text : str) (format_type : option str) (o : item) :
  In o (extract_budget_items text format_type) ->
  exists it, _is_valid_item it = true /\ _clean_item it = Ok o.
Proof.
  unfold extract_budget_items, extract_body.
  match goal with
  | |- In o match bind ?strategy _ with _ => _ end -> _ =>
    destruct strategy as [items|e]; [|contradiction]
  end.
  cbn [bind].
  destruct (_validate_and_clean_items items) as [out|e] eqn:V;
    [|contradiction].
  intros Hin. destruct (validate_In _ _ _ V Hin) as (it & _ & ? & ?).
  exists it; auto.
Qed.

Lemma valid_cleaned (it o : item) :
  _is_valid_item it = true -> _clean_item it = Ok o ->
  nonempty (strip (description o)) = true /\
  nonempty (description o) = true /\
  (has_positive (quantity o) \/ has_positive (unit_price o)).
Proof.
  intros V C. destruct (clean_item_fields it o C) as (D & _ & Q & P & _).
  unfold _is_valid_item in V. apply andb_true_iff in V as [Vd Va].
  rewrite D, Q, P. repeat split.
  - rewrite strip_idem. now apply clean_nonempty.
  - now apply clean_nonempty.
  - apply orb_true_iff in Va as [H | H]; [left | right];
      now apply has_positive_spec.
Qed.

(** ** The validity invariant *)

(** C2. For every input text and format hint, every item of the list
    [extract_budget_items] returns satisfies the validity invariant: its
    description, whitespace-collapsed, is not empty, and its quantity is
    present and positive or its unit price is. *)
Theorem returned_items_are_valid (text : str) (format_type : option str)
  (it : item) :
  In it (extract_budget_items text format_type) -> validity_invariant it.
Proof.
  intros Hin. destruct (extract_In _ _ _ Hin) as (cand & V & C).
  destruct (valid_cleaned cand it V C) as (_ & D & A).
  split; [|exact A].
  intros E. rewrite E in D. discriminate.
Qed.

(** C1, as the code has it. For every input text and format hint, every
    returned item has its quantity or its unit price present and
    strictly positive; nothing is promised of the other amount or of the
    unit. *)
Theorem returned_items_have_a_positive_amount (text : str)
  (format_type : option str) (it : item) :
  In it (extract_budget_items text format_type) ->
  has_positive (quantity it) \/ has_positive (unit_price it).
Proof.
  intros Hin. destruct (extract_In _ _ _ Hin) as (cand & V & C).
  now destruct (valid_cleaned cand it V C) as (_ & _ & A).
Qed.

(** ** Placeholder codes *)

(** Whatever the candidate, the placeholder written for a missing code is
    [AUTO_007]: the number is taken from the size of the dictionary. *)
Lemma placeholder_code_is_constant (it o : item) :
  _clean_item it = Ok o -> code it = [] -> code o = lit "AUTO_007".
Proof.
  intros C E. destruct (clean_item_fields it o C) as (_ & _ & _ & _ & H).
  now rewrite H, E.
Qed.

(** ** Idempotence of the validator *)

Lemma unit_mapping_stable (u : str) :
  mapping_get (str_lower (mapping_get (str_lower u) unit_mapping u))
              unit_mapping (mapping_get (str_lower u) unit_mapping u)
  = mapping_get (str_lower u) unit_mapping u.
Proof.
  cbv [mapping_get unit_mapping].
  destruct (str_eqb (str_lower u) (lit "metros cuadrados")) eqn:E1;
    [cbv iota; rewrite str_lower_ascii by reflexivity; reflexivity|].
  destruct (str_eqb (str_lower u) (lit "metros cúbicos")) eqn:E2;
    [cbv iota; rewrite str_lower_ascii by reflexivity; reflexivity|].
  destruct (str_eqb (str_lower u) (lit "kilogramos")) eqn:E3;
    [cbv iota; rewrite str_lower_ascii by reflexivity; reflexivity|].
  destruct (str_eqb (str_lower u) (lit "litros")) eqn:E4;
    [cbv iota; rewrite str_lower_ascii by reflexivity; reflexivity|].
  destruct (str_eqb (str_lower u) (lit "unidades")) eqn:E5;
    [cbv iota; rewrite str_lower_ascii by reflexivity; reflexivity|].
  destruct (str_eqb (str_lower u) (lit "metros")) eqn:E6;
    [cbv iota; rewrite str_lower_ascii by reflexivity; reflexivity|].
  cbv iota. now rewrite E1, E2, E3, E4, E5, E6.
Qed.

(** The derivation of a missing total. *)
Definition total_step (q p t : option Decimal) : result (option Decimal) :=
  match q, p with
  | Some q, Some p =>
    if Dec.nonzero q && Dec.nonzero p && negb (truthy t)
    then m <- Dec.mul q p ;; Ok (Some m)
    else Ok t
  | _, _ => Ok t
  end.

Definition code_or_placeholder (c : str) : str :=
  if nonempty c then c else lit "AUTO_007".

Lemma clean_item_eq (it : item) :
  _clean_item it =
  (t <- total_step (quantity it) (unit_price it) (total_price it) ;;
   Ok (mkItem (code_or_placeholder (code it))
              (strip (collapse (description it)))
              (mapping_get (str_lower (unit it)) unit_mapping (unit it))
              (quantity it) (unit_price it) t)).
Proof.
  destruct it as [c d u q p t]. unfold _clean_item, total_step.
  rewrite re_sub_spaces.
  cbn [quantity unit_price total_price code unit description
       set_description set_unit].
  destruct q as [q|], p as [p|];
    try (destruct (Dec.nonzero q && Dec.nonzero p && negb (truthy t));
         [destruct (Dec.mul q p) as [t'|e]; [|reflexivity]|]);
    cbn [bind]; destruct c; reflexivity.
Qed.

Lemma total_step_stable (q p t t' : option Decimal) :
  total_step q p t = Ok t' -> total_step q p t' = Ok t'.
Proof.
  unfold total_step. destruct q as [q|], p as [p|]; try congruence.
  destruct (Dec.nonzero q && Dec.nonzero p) eqn:NZ; cbn [andb].
  - destruct (truthy t) eqn:T; cbn [negb].
    + intros H; injection H as <-. rewrite T. reflexivity.
    + destruct (Dec.mul q p) as [m|e] eqn:M; [|discriminate]. cbn [bind].
      intros H; injection H as <-.
      destruct (truthy (Some m)); reflexivity.
  - congruence.
Qed.

Lemma code_or_placeholder_stable (c : str) :
  code_or_placeholder (code_or_placeholder c) = code_or_placeholder c.
Proof. destruct c; reflexivity. Qed.

Lemma clean_item_stable (it o : item) :
  _is_valid_item it = true -> _clean_item it = Ok o -> stable o.
Proof.
  intros V C. split.
  - destruct (valid_cleaned it o V C) as (D & _ & A).
    unfold _is_valid_item. rewrite D. cbn [andb].
    destruct A as [(q & -> & H) | (p & -> & H)]; rewrite H;
      [reflexivity | apply orb_true_r].
  - rewrite clean_item_eq in C.
    destruct (total_step (quantity it) (unit_price it) (total_price it))
      as [t|e] eqn:T; [|discriminate].
    cbn [bind] in C. injection C as <-.
    rewrite clean_item_eq.
    cbn [quantity unit_price total_price code unit description].
    rewrite (total_step_stable _ _ _ _ T). cbn [bind].
    f_equal. f_equal;
      [apply code_or_placeholder_stable | apply clean_idem
      | apply unit_mapping_stable].
Qed.

Lemma clean_valid_stable (items out : list item) :
  clean_valid items = Ok out -> Forall stable out.
Proof.
  revert out; induction items as [|it items IH]; intros out; simpl.
  - intros H; injection H as <-. constructor.
  - destruct (_is_valid_item it) eqn:V; [|apply IH].
    destruct (_clean_item it) as [c|e] eqn:C; [|discriminate]. cbn [bind].
    destruct (clean_valid items) as [rest|e]; [|discriminate]. cbn [bind].
    intros H; injection H as <-. constructor.
    + eapply clean_item_stable; eauto.
    + now apply IH.
Qed.

Lemma clean_valid_fixed (items : list item) :
  Forall stable items -> clean_valid items = Ok items.
Proof.
  induction 1 as [|it items [V C] _ IH]; simpl; [reflexivity|].
  now rewrite V, C, IH.
Qed.

Lemma unique_Forall (P : item -> Prop) (items : list item) (seen : list str) :
  Forall P items -> Forall P (unique items seen).
Proof.
  intros H. revert seen; induction H as [|it items Hit _ IH]; intros seen;
    simpl; [constructor|].
  destruct (str_in (item_key it) seen); [apply IH|].
  constructor; [exact Hit | apply IH].
Qed.

(** What the deduplication keeps has pairwise different keys: a second
    pass removes nothing. *)
Lemma unique_idem (items : list item) (seen : list str) :
  unique (unique items seen) seen = unique items seen.
Proof.
  revert seen; induction items as [|it items IH]; intros seen; simpl;
    [reflexivity|].
  destruct (str_in (item_key it) seen) eqn:E; [apply IH|].
  simpl. rewrite E. now rewrite IH.
Qed.

(** C5. The validator is idempotent: applied to its own output it
    returns that output unchanged, the same items in the same order,
    none removed by the deduplication key. *)
Theorem validate_and_clean_idempotent (items out : list item) :
  _validate_and_clean_items items = Ok out ->
  _validate_and_clean_items out = Ok out.
Proof.
  unfold _validate_and_clean_items.
  destruct (clean_valid items) as [cleaned|e] eqn:C; [|discriminate].
  cbn [bind]. intros H; injection H as <-.
  rewrite (clean_valid_fixed (unique cleaned [])).
  - cbn [bind]. now rewrite unique_idem.
  - apply unique_Forall. eapply clean_valid_stable, C.
Qed.

(** ** The table strategy after cleaning

    [_clean_text] leaves no control character and no two adjacent
    whitespace characters, so that no line of the cleaned text has a
    column separator: the table strategy finds nothing, whatever the
    text. *)

Definition control (c : char) : bool :=
  in_range 0 31 c || in_range 127 159 c.

Definition printable (s : str) : bool :=
  forallb (fun c => negb (control c)) s.

Lemma in_match_control (c : char) :
  in_match NOFLAGS [CRange 0%N 31%N; CRange 127%N 159%N] c = control c.
Proof. unfold in_match, control. simpl. now rewrite orb_false_r. Qed.

Lemma printable_excludes (c0 : char) (s : str) :
  control c0 = true -> printable s = true ->
  forallb (fun c => negb (char_eqb c c0)) s = true.
Proof.
  intros H0. induction s as [|c s IH]; simpl; [reflexivity|].
  intros H. apply andb_true_iff in H as [Hc Hs]. rewrite (IH Hs).
  destruct (char_eqb c c0) eqn:E; [|reflexivity].
  apply N.eqb_eq in E. subst c. now rewrite H0 in Hc.
Qed.

Lemma no_line_feed_no_match (must_advance : bool) pos prev rest :
  forallb (fun c => negb (char_eqb c LF)) rest = true ->
  match_at NOFLAGS (plus (RLit LF)) must_advance (mkState pos prev rest [])
  = None.
Proof.
  intros H.
  rewrite (match_at_run NOFLAGS (RLit LF) (lit_match NOFLAGS LF) eq_refl).
  destruct rest as [|c rest]; [reflexivity|].
  simpl in H. apply andb_true_iff in H as [Hc _].
  apply negb_true_iff in Hc. unfold lit_match. cbn [IGNORECASE NOFLAGS andb].
  unfold char_eqb in *. now rewrite N.eqb_sym, Hc.
Qed.

Lemma clean_text_shape (text : str) :
  tidy false (_clean_text text) = true /\ printable (_clean_text text) = true.
Proof.
  unfold _clean_text.
  rewrite (re_sub_chars NOFLAGS (RIn [CRange 0%N 31%N; CRange 127%N 159%N])
             (in_match NOFLAGS [CRange 0%N 31%N; CRange 127%N 159%N]) eq_refl).
  rewrite re_sub_spaces.
  set (s1 := flat_map _ text).
  assert (P1 : printable s1 = true).
  { subst s1. induction text as [|c text IH]; simpl; [reflexivity|].
    rewrite in_match_control. destruct (control c) eqn:E; simpl.
    - exact IH.
    - unfold printable in *. simpl. now rewrite E. }
  assert (P2 : printable (collapse s1) = true)
    by (apply forallb_sub_runs; [reflexivity | exact P1]).
  rewrite (re_sub_no_match NOFLAGS (plus (RLit LF))
             (fun s => forallb (fun c => negb (char_eqb c LF)) s = true)).
  - split.
    + unfold strip. apply tidy_rstrip, (tidy_lstrip false), collapse_tidy.
    + now apply forallb_strip.
  - intros c rest H. simpl in H. now apply andb_true_iff in H as [_ H].
  - intros ma pos prev rest H. now apply no_line_feed_no_match.
  - now apply (printable_excludes LF).
Qed.

(** Two iterations are required: without two characters of the set at
    the head there is no match. *)
Lemma rep_loop_two_fail (p : char -> bool) (k : mstate -> option mstate)
  fuel pos prev rest caps :
  match rest with c1 :: c2 :: _ => p c1 && p c2 | _ => false end = false ->
  rep_loop (one_char p) k 2 None true (S (S fuel)) 0
           (mkState pos prev rest caps) = None.
Proof.
  intros H. cbn [rep_loop Nat.ltb Nat.leb].
  unfold one_char at 1. cbn [ms_rest].
  destruct rest as [|c1 rest]; [reflexivity|].
  destruct (p c1); [|reflexivity].
  unfold one_char at 1. cbn [advance ms_rest].
  destruct rest as [|c2 rest]; [reflexivity|].
  cbn [andb] in H. now rewrite H.
Qed.

(** [\s{2,}|\t] *)
Definition column_break : regex := RAlt (at_least 2 space) (RLit TAB).

Lemma no_column_break_at (must_advance : bool) pos prev rest b :
  tidy b rest = true -> printable rest = true ->
  match_at NOFLAGS column_break must_advance (mkState pos prev rest [])
  = None.
Proof.
  intros Ht Hp. unfold match_at, column_break, at_least.
  cbn [m ms_rest ms_pos].
  change (m NOFLAGS space) with (one_char (in_match NOFLAGS [CCat CatSpace])).
  cbn [Nat.add]. rewrite rep_loop_two_fail.
  - unfold one_char. cbn [ms_rest].
    destruct rest as [|c rest]; [reflexivity|].
    pose proof (printable_excludes TAB _ eq_refl Hp) as H.
    simpl in H. apply andb_true_iff in H as [Hc _].
    apply negb_true_iff in Hc. unfold lit_match.
    cbn [IGNORECASE NOFLAGS andb]. unfold char_eqb in *.
    now rewrite N.eqb_sym, Hc.
  - destruct rest as [|c1 [|c2 rest]]; try reflexivity.
    unfold in_match. cbn [IGNORECASE NOFLAGS existsb cset_plain cat_match].
    rewrite !orb_false_r. simpl in Ht.
    destruct (uc_isspace c1); [|reflexivity].
    destruct (uc_isspace c2); [|reflexivity].
    rewrite !andb_false_r in Ht. discriminate.
Qed.

Lemma no_column_break (s : str) :
  tidy false s = true -> printable s = true ->
  re_split NOFLAGS column_break s = [s].
Proof.
  intros Ht Hp.
  apply (re_split_no_match NOFLAGS column_break
           (fun s => (exists b, tidy b s = true) /\ printable s = true)).
  - intros c rest [[b Hb] H]. simpl in Hb, H.
    apply andb_true_iff in H as [_ H]. split; [|exact H].
    destruct (uc_isspace c).
    + exists true. now apply andb_true_iff in Hb as [_ Hb].
    + now exists false.
  - intros ma pos prev rest [[b Hb] H]. now apply (no_column_break_at _ _ _ _ b).
  - split; [now exists false | exact Hp].
Qed.

Lemma split_table_row_single (s : str) :
  tidy false s = true -> printable s = true ->
  List.length (_split_table_row s) <= 1.
Proof.
  intros Ht Hp. unfold _split_table_row.
  fold column_break.
  rewrite no_column_break.
  - simpl. destruct (nonempty (strip (strip s))); simpl; lia.
  - unfold strip. now apply tidy_rstrip, (tidy_lstrip false).
  - now apply forallb_strip.
Qed.

(** For every text, the table strategy applied to the lines of the
    cleaned text returns no item. *)
Lemma table_strategy_finds_nothing (text : str) :
  _extract_from_table (split_on LF (_clean_text text)) = [].
Proof.
  destruct (clean_text_shape text) as [Ht Hp].
  rewrite split_on_none by now apply (printable_excludes LF).
  cbn [_extract_from_table].
  pose proof (split_table_row_single _ Ht Hp) as H.
  destruct (4 <=? List.length (_split_table_row (_clean_text text))) eqn:E;
    [|reflexivity].
  apply Nat.leb_le in E. lia.
Qed.

(** For every text, [extract_budget_items] with the format ['table']
    returns the empty list. *)
Lemma table_format_returns_nothing (text : str) :
  extract_budget_items text (Some (lit "table")) = [].
Proof.
  unfold extract_budget_items, extract_body.
  change (str_eqb (lit "table") (lit "table")) with true. cbv iota.
  now rewrite table_strategy_finds_nothing.
Qed.

(** ** Failures *)

(** [extract_budget_items] returns the list its body returns, and the
    empty list when anything inside raises. *)
Lemma entry_point_cases (text : str) (format_type : option str) :
  (exists items, extract_body text format_type = Ok items /\
                 extract_budget_items text format_type = items) \/
  (exists e, extract_body text format_type = Raise e /\
             extract_budget_items text format_type = []).
Proof.
  unfold extract_budget_items.
  destruct (extract_body text format_type) as [items|e].
  - left. now exists items.
  - right. now exists e.
Qed.

Lemma printable_kept (s : str) :
  printable s = true ->
  flat_map (fun c => if control c then [SP] else [c]) s = s.
Proof.
  induction s as [|c s IH]; [reflexivity|].
  unfold printable. cbn [forallb flat_map]. intros H.
  apply andb_true_iff in H as [Hc Hs]. apply negb_true_iff in Hc.
  rewrite Hc. cbn [app]. now rewrite (IH Hs).
Qed.

(** A text without control characters, with single blanks only and none
    at either end, is left as it is by [_clean_text]. *)
Lemma clean_text_fixed (s : str) :
  printable s = true -> tidy false s = true -> strip s = s ->
  _clean_text s = s.
Proof.
  intros Hp Ht Hs. unfold _clean_text.
  rewrite (re_sub_chars NOFLAGS (RIn [CRange 0%N 31%N; CRange 127%N 159%N])
             (in_match NOFLAGS [CRange 0%N 31%N; CRange 127%N 159%N]) eq_refl).
  rewrite (flat_map_ext _ (fun c => if control c then [SP] else [c]))
    by (intros c; now rewrite in_match_control).
  rewrite (printable_kept _ Hp), re_sub_spaces.
  unfold collapse, sub_runs. rewrite (tidy_fixed _ _ Ht).
  rewrite (re_sub_no_match NOFLAGS (plus (RLit LF))
             (fun s => forallb (fun c => negb (char_eqb c LF)) s = true)).
  - exact Hs.
  - intros c rest H. simpl in H. now apply andb_true_iff in H as [_ H].
  - intros ma pos prev rest H. now apply no_line_feed_no_match.
  - now apply (printable_excludes LF).
Qed.

(** With the format ['list'] the body runs the list strategy. *)
Lemma extract_body_list (text : str) :
  extract_body text (Some (lit "list"))
  = (items <- _extract_from_list (split_on LF (_clean_text text)) ;;
     _validate_and_clean_items items).
Proof. reflexivity. Qed.

(** The first line template of [_parse_list_item]. *)
Definition coded_template : regex := fst (nth 0 list_patterns (REmpty, 0)).

(** A one-line text that [_clean_text] leaves as it is and that the
    first template reads as a list line with a quantity of more than
    [kq] digits and a unit price of more than [kp] digits. *)
Definition long_amounts (kq kp : nat) (text : str) : bool :=
  printable text && tidy false text && str_eqb (strip text) text &&
  match re_search I coded_template text with
  | Some mt =>
    nonempty (strip (group mt 2)) && long_numeral kq (group mt 3) &&
    long_numeral kp (clean_price (group mt 5))
  | None => false
  end.

(** Such a line makes the body raise [decimal.Overflow] once the product
    of the two amounts is beyond the largest exponent: the parser builds
    both amounts, the validator accepts the item, and [_clean_item]
    multiplies them for the missing total. *)
Lemma long_amounts_raise (kq kp : nat) (text : str) :
  long_amounts kq kp text = true ->
  (ETOP < Z.of_nat (kq + kp) + 1 - PREC)%Z ->
  extract_body text (Some (lit "list")) = Raise DecimalOverflow.
Proof.
  unfold long_amounts. intros H Hk.
  apply andb_true_iff in H as [H Hm]. apply andb_true_iff in H as [H Hs].
  apply andb_true_iff in H as [Hp Ht]. apply str_eqb_eq in Hs.
  assert (Hne : nonempty text = true).
  { destruct text; [|reflexivity]. discriminate Hm. }
  rewrite extract_body_list, (clean_text_fixed _ Hp Ht Hs).
  rewrite split_on_none by now apply (printable_excludes LF).
  unfold _extract_from_list. cbn [list_loop].
  unfold _parse_list_item. rewrite Hs, Hne. cbn [negb].
  change (first_template list_patterns text)
    with (match re_search I coded_template text with
          | Some mt => it <- item_of_groups (groups_of mt 5) ;; Ok (Some it)
          | None => first_template (tl list_patterns) text
          end).
  destruct (re_search I coded_template text) as [mt|]; [|discriminate Hm].
  apply andb_true_iff in Hm as [Hm Hpr]. apply andb_true_iff in Hm as [Hd Hq].
  destruct (of_str_long _ _ Hq) as (vq & Eq & Lq).
  destruct (of_str_long _ _ Hpr) as (vp & Ep & Lp).
  unfold groups_of. cbn [seq map].
  unfold item_of_groups. cbn [nth List.length Nat.ltb Nat.leb andb].
  unfold decimal. rewrite Eq, Ep. cbn [bind push app].
  cbn [list_loop push app bind].
  unfold _validate_and_clean_items. cbn [clean_valid].
  assert (Pq : (vq =? 0)%N = false).
  { apply N.eqb_neq. pose proof (N.pow_nonzero 10 (N.of_nat kq)). lia. }
  assert (Pp : (vp =? 0)%N = false).
  { apply N.eqb_neq. pose proof (N.pow_nonzero 10 (N.of_nat kp)). lia. }
  set (u := if str_in (group mt 4) common_units then group mt 4 else []).
  assert (Hv : _is_valid_item
                 (set_unit_price (Some (mkDec false vp 0))
                    (mkItem (group mt 1) (strip (group mt 2)) u
                       (Some (mkDec false vq 0)) None None)) = true).
  { unfold _is_valid_item, set_unit_price, Dec.positive.
    cbn [description quantity unit_price d_sign d_coeff].
    rewrite strip_idem, Hd, Pq. reflexivity. }
  rewrite Hv. unfold _clean_item, set_unit_price, set_description, set_unit.
  cbn [description quantity unit_price total_price code unit truthy].
  unfold Dec.nonzero. cbn [d_coeff]. rewrite Pq, Pp. cbn [negb andb].
  rewrite (mul_overflows _ _ kq kp);
    cbn [d_coeff d_exp]; [reflexivity | exact Lq | exact Lp | lia].
Qed.

End Props.

(** ** Runs of the extractor

    Concrete texts, read with the Latin-1 database. *)

Definition dec (coeff : N) (exp : Z) : Decimal := mkDec false coeff exp.

(** A list line with a work code, a quantity and a unit, and no price. *)
Definition wall_line : str := lit "AB12 Muro 5 m2".

Definition wall_item : item :=
  mkItem (lit "AB12") (lit "Muro") (lit "m2") (Some (dec 5 0)) None None.

(** A list line whose unit is written in capitals. *)
Definition capitals_line : str := lit "01 Muro 5 M2 $3".

Definition capitals_item : item :=
  mkItem (lit "01") (lit "Muro") [] (Some (dec 5 0)) (Some (dec 3 0))
         (Some (dec 15 0)).

(** C1 fails as stated: the item read from [wall_line] has no unit
    price. *)
Lemma calculator_precondition_counterexample :
  extract_budget_items (U := Latin1) wall_line (Some (lit "list"))
  = [wall_item]
  /\ ~ calculator_precondition wall_item.
Proof.
  split; [vm_compute; reflexivity|].
  intros (_ & (p & Hp & _) & _). discriminate Hp.
Qed.

(** Nor is the unit always there: the one of [capitals_line] is not in
    the extractor's table of units and is dropped. *)
Lemma unit_may_be_empty :
  extract_budget_items (U := Latin1) capitals_line (Some (lit "list"))
  = [capitals_item]
  /\ unit capitals_item = [].
Proof. split; vm_compute; reflexivity. Qed.

Lemma positive_amount_witness :
  has_positive (quantity wall_item) \/ has_positive (unit_price wall_item).
Proof.
  apply (returned_items_have_a_positive_amount
           (U := Latin1) wall_line (Some (lit "list")) wall_item).
  vm_compute. left. reflexivity.
Defined.

Lemma validity_witness : validity_invariant capitals_item.
Proof.
  apply (returned_items_are_valid
           (U := Latin1) capitals_line (Some (lit "list")) capitals_item).
  vm_compute. left. reflexivity.
Defined.

(** The table line of the first end-to-end scenario. *)
Definition scenario_1 : str :=
  lit "01.01.01  Demolición de concreto  10.00 m3  150.00  1500.00".

(** C3 on the code: [_clean_text] turns every run of blanks into one
    blank before the lines are cut into columns at runs of two blanks, so
    the line has a single column and the table strategy returns no
    item. *)
Theorem table_scenario_returns_no_item :
  _clean_text (U := Latin1) scenario_1
  = lit "01.01.01 Demolición de concreto 10.00 m3 150.00 1500.00"
  /\ _split_table_row (U := Latin1) (_clean_text scenario_1)
     = [lit "01.01.01 Demolición de concreto 10.00 m3 150.00 1500.00"]
  /\ extract_budget_items (U := Latin1) scenario_1 (Some (lit "table")) = [].
Proof. repeat split; vm_compute; reflexivity. Qed.

(** The five columns the line was meant to give. *)
Definition scenario_1_columns : list str :=
  map lit ["01.01.01"; "Demolición de concreto"; "10.00 m3"; "150.00";
           "1500.00"]%string.

(** Were the columns kept apart, the column parser would still not find
    the unit price of the scenario: of the price-like pieces of all the
    columns it takes the smallest, the 00 that ends 1500.00, as unit
    price. *)
Lemma separated_columns_unit_price :
  option_map (fun it => (quantity it, unit_price it, total_price it))
             (_parse_table_columns (U := Latin1) scenario_1_columns)
  = Some (Some (dec 1000 (-2)), Some (dec 0 0), Some (dec 150000 (-2))).
Proof. vm_compute. reflexivity. Qed.

(** Two lines without a code. *)
Definition two_uncoded_lines : str :=
  lit "Muro 5 m2 10.00" ++ [LF] ++ lit "Losa 3 m2 20.00".

(** C4 on the code: both items get the same placeholder; the numbers do
    not run. *)
Theorem placeholder_codes_are_not_sequential :
  map (fun it => (code it, description it))
      (extract_budget_items (U := Latin1) two_uncoded_lines None)
  = [(lit "AUTO_007", lit "Muro"); (lit "AUTO_007", lit "Losa")].
Proof. vm_compute. reflexivity. Qed.

(** Candidates as a strategy hands them over: blanks to collapse, a unit
    to abbreviate, a total to derive, a code to invent, an invalid
    candidate and a duplicate. *)
Definition raw_candidates : list item :=
  [ mkItem [] (lit "  Muro   de  piedra ") (lit "Metros Cuadrados")
           (Some (dec 5 0)) (Some (dec 250 (-2))) None;
    mkItem (lit "02") (lit "Sin cantidades") (lit "m") None None None;
    mkItem (lit "01.01") (lit "Losa") (lit "m3") (Some (dec 3 0)) None None;
    mkItem (lit "01.01") (lit "Losa") (lit "m3") (Some (dec 4 0)) None None ].

Definition clean_candidates : list item :=
  [ mkItem (lit "AUTO_007") (lit "Muro de piedra") (lit "m2")
           (Some (dec 5 0)) (Some (dec 250 (-2))) (Some (dec 1250 (-2)));
    mkItem (lit "01.01") (lit "Losa") (lit "m3") (Some (dec 3 0)) None None ].

Lemma idempotent_witness :
  _validate_and_clean_items (U := Latin1) clean_candidates
  = Ok clean_candidates.
Proof.
  apply (validate_and_clean_idempotent (U := Latin1) raw_candidates).
  vm_compute. reflexivity.
Defined.

(** A numeral of [n] nines. *)
Definition nines (n : nat) : str := repeat 57%N n.

(** A list line whose quantity and unit price have [n] digits each:
    "1 x 99...9 m2 99...9". *)
Definition long_amounts_line (n : nat) : str :=
  lit "1 x " ++ nines n ++ lit " m2 " ++ nines n.

(** A line without items. *)
Definition quiet_line : str := lit "sin partidas".

(** The first template reads the line as code 1, description x, the
    first numeral as quantity, unit m2 and the second numeral as price,
    whatever the length of the numerals. *)
Lemma coded_template_reads (n : nat) :
  1 <= n ->
  exists e,
    match_at (U := Latin1) I coded_template false
             (mkState 0 None (long_amounts_line n) []) = Some e /\
    ms_caps e = [(5, nines n); (4, lit "m2"); (3, nines n); (2, lit "x");
                 (1, lit "1")].
Proof.
  intros Hn. destruct n as [|n]; [lia|]. eexists. split.
  - unfold match_at. cbn [ms_pos].
    let r := eval vm_compute in coded_template in change coded_template with r.
    change (long_amounts_line (S n))
      with ([49%N] ++ 32%N :: 120%N :: 32%N
            :: (nines (S n) ++ 32%N :: 109%N :: 50%N :: 32%N :: nines (S n))).
    (* start of the line *)
    rewrite m_seq, m_bol. step.
    (* group 1, the code *)
    rewrite m_seq, m_group, m_seq.
    apply (m_greedy_run I _ (in_match I [CCat CatDigit]) _ 1 [49%N]);
      [reflexivity | reflexivity | reflexivity | cbn; lia |]. step.
    rewrite m_skip by (intros k'; reflexivity). step.
    (* blanks *)
    rewrite m_seq.
    apply (m_greedy_run I _ (in_match I [CCat CatSpace]) _ 1 [32%N]);
      [reflexivity | reflexivity | reflexivity | cbn; lia |]. step.
    (* group 2, the description, lazy *)
    rewrite m_seq, m_group.
    apply (m_lazy_one I _ (fun x => negb (char_eqb x LF)));
      [reflexivity | reflexivity |]. step.
    (* blanks *)
    rewrite m_seq.
    apply (m_greedy_run I _ (in_match I [CCat CatSpace]) _ 1 [32%N]);
      [reflexivity | reflexivity | reflexivity | cbn; lia |]. step.
    (* group 3, the quantity *)
    rewrite m_seq, m_group, m_seq.
    apply (m_greedy_run I _ (in_match I [CCat CatDigit]) _ 1 (nines (S n)));
      [reflexivity | now apply forallb_repeat | reflexivity
       | unfold nines; rewrite repeat_length; exact Hn |]. step.
    rewrite m_skip by (intros k'; reflexivity). step.
    (* optional blanks *)
    rewrite m_seq.
    apply (m_greedy_run I _ (in_match I [CCat CatSpace]) _ 0 [32%N]);
      [reflexivity | reflexivity | reflexivity | cbn; lia |]. step.
    (* group 4, the unit *)
    rewrite m_seq, m_group. apply m_alt_left. rewrite m_seq.
    rewrite (m_char I _ (lit_match I 109%N)) by reflexivity. step.
    rewrite (m_char I _ (lit_match I 50%N)) by reflexivity. step.
    (* blanks *)
    rewrite m_seq.
    apply (m_greedy_run I _ (in_match I [CCat CatSpace]) _ 1 [32%N]);
      [reflexivity | reflexivity | reflexivity | cbn; lia |]. step.
    (* group 5, the price *)
    rewrite m_group.
    apply (m_greedy_run_end I _
             (in_match I [CLit 36%N; CCat CatDigit; CLit 44%N; CLit 46%N]));
      [reflexivity | now apply forallb_repeat
       | unfold nines; rewrite repeat_length; exact Hn |]. step.
    reflexivity.
  - cbn [ms_caps set_cap]. repeat f_equal.
    + apply firstn_whole. reflexivity.
    + replace (N.to_nat _) with 2 by lia. reflexivity.
    + apply firstn_run. reflexivity.
Qed.

Lemma long_numeral_nines (n : nat) :
  long_numeral (U := Latin1) n (nines (S n)) = true.
Proof.
  unfold long_numeral, nines. cbn [repeat].
  change (uc_decimal 57%N) with (Some 9%N).
  rewrite (forallb_repeat _ 57%N (S n)) by reflexivity.
  rewrite repeat_length, Nat.eqb_refl. reflexivity.
Qed.

Lemma long_amounts_line_is_long (n : nat) :
  long_amounts (U := Latin1) n n (long_amounts_line (S n)) = true.
Proof.
  unfold long_amounts.
  assert (Hp : printable (long_amounts_line (S n)) = true).
  { unfold printable, long_amounts_line. rewrite !forallb_app.
    unfold nines. rewrite !forallb_repeat by reflexivity. reflexivity. }
  assert (Ht : tidy (U := Latin1) false (long_amounts_line (S n)) = true).
  { change (tidy false (long_amounts_line (S n)))
      with (tidy false (nines n ++ lit " m2 " ++ nines (S n))).
    rewrite tidy_skip by now apply forallb_repeat.
    change (tidy false (lit " m2 " ++ nines (S n)))
      with (tidy false (nines n)).
    apply tidy_no_space. now apply forallb_repeat. }
  assert (Hs : strip (U := Latin1) (long_amounts_line (S n))
               = long_amounts_line (S n)).
  { unfold strip.
    change (lstrip (long_amounts_line (S n))) with (long_amounts_line (S n)).
    replace (long_amounts_line (S n))
      with ((lit "1 x " ++ nines (S n) ++ lit " m2 " ++ nines n) ++ [57%N]).
    - now apply rstrip_last.
    - unfold long_amounts_line. rewrite <- !app_assoc.
      do 3 f_equal. unfold nines. symmetry. apply repeat_cons. }
  rewrite Hp, Ht, Hs, str_eqb_refl. cbn [andb].
  destruct (coded_template_reads (S n)) as (e & He & Hc); [lia|].
  unfold re_search. rewrite (search_from_hit _ _ _ _ _ _ _ He).
  unfold group, to_match. cbn [m_caps]. rewrite Hc.
  cbn [lookup_cap Nat.eqb].
  rewrite long_numeral_nines.
  unfold clean_price, remove_char, nines.
  rewrite (filter_kept (fun x => negb (char_eqb x DOLLAR)))
    by now apply forallb_repeat.
  rewrite (filter_kept (fun x => negb (char_eqb x COMMA)))
    by now apply forallb_repeat.
  fold (nines (S n)). rewrite long_numeral_nines. reflexivity.
Qed.

(** The failure branch is not idle: a list line whose quantity and unit
    price have more than 500000 digits each makes the body raise
    [decimal.Overflow] when [_clean_item] multiplies them. *)
Lemma long_amounts_line_raises (n : nat) :
  (500000 <= Z.of_nat n)%Z ->
  extract_body (U := Latin1) (long_amounts_line (S n)) (Some (lit "list"))
  = Raise DecimalOverflow.
Proof.
  intros H. apply (long_amounts_raise n n).
  - apply long_amounts_line_is_long.
  - unfold ETOP, EMAX, PREC. lia.
Qed.

(** C10. [extract_budget_items] never raises: for every text and format
    hint it returns the list its body returns, and the empty list when
    anything inside raises.  The caller cannot tell the two apart: a
    line without items and a line on which the validator fails are both
    answered with the empty list. *)
Theorem extract_budget_items_never_raises :
  (forall (U : UnicodeDB) (text : str) (format_type : option str),
     (exists items, extract_body text format_type = Ok items /\
                    extract_budget_items text format_type = items) \/
     (exists e, extract_body text format_type = Raise e /\
                extract_budget_items text format_type = [])) /\
  (exists quiet failing : str,
     extract_body (U := Latin1) quiet (Some (lit "list")) = Ok [] /\
     extract_body (U := Latin1) failing (Some (lit "list"))
     = Raise DecimalOverflow /\
     extract_budget_items (U := Latin1) quiet (Some (lit "list"))
     = extract_budget_items (U := Latin1) failing (Some (lit "list"))).
Proof.
  split; [intros U text format_type; apply entry_point_cases|].
  exists quiet_line, (long_amounts_line (S (Z.to_nat 500000))).
  assert (Hq : extract_body (U := Latin1) quiet_line (Some (lit "list"))
               = Ok []) by (vm_compute; reflexivity).
  assert (Hf : extract_body (U := Latin1)
                 (long_amounts_line (S (Z.to_nat 500000)))
                 (Some (lit "list")) = Raise DecimalOverflow)
    by (apply long_amounts_line_raises; rewrite Z2Nat.id; lia).
  split; [exact Hq|]. split; [exact Hf|].
  unfold extract_budget_items. now rewrite Hq, Hf.
Qed.

End ExtractorProps.

(* ================================================================== *)
(** * PDFReader: detection of scanned documents *)
(* ================================================================== *)

Module Reader.
Import Str.

(** An entry of [pages_text]. *)
Record page := mkPage {
  page_number : nat;
  text : str;
  text_length : nat
}.

(** The page loop of [read_pdf], over the texts [page.get_text()] gives
    for the pages of the document in order. *)
Fixpoint read_pages (page_num : nat) (texts : list str) : list page :=
  match texts with
  | [] => []
  | t :: texts' =>
    mkPage (page_num + 1) t (List.length t) :: read_pages (S page_num) texts'
  end.

Definition total_text_length (pages_text : list page) : nat :=
  fold_left (fun acc page => acc + text_length page) pages_text 0.

(** [_detect_scanned_pdf].  The average is a quotient of two integers
    and is compared with 100; it is computed here in the rationals (for
    a document of fewer than 2^46 pages the float quotient compares
    with 100 the same way). *)
Definition _detect_scanned_pdf (pages_text : list page) : bool :=
  match pages_text with
  | [] => true
  | _ =>
    let total_text_length := total_text_length pages_text in
    let avg_text_length : Q :=
      Qmake (Z.of_nat total_text_length)
            (Pos.of_nat (List.length pages_text)) in
    Qlt_bool avg_text_length (Qmake 100 1)
  end.

(** [is_scanned] of the document [read_pdf] returns. *)
Definition is_scanned (texts : list str) : bool :=
  _detect_scanned_pdf (read_pages 0 texts).

(** Sum of the lengths of the page texts. *)
Definition characters (texts : list str) : nat :=
  list_sum (map (@List.length char) texts).

Lemma fold_left_add (pages : list page) (acc : nat) :
  fold_left (fun a page => a + text_length page) pages acc
  = acc + list_sum (map text_length pages).
Proof.
  revert acc; induction pages as [|p pages IH]; intros acc; simpl; [lia|].
  rewrite IH. lia.
Qed.

Lemma read_pages_lengths (n : nat) (texts : list str) :
  map text_length (read_pages n texts) = map (@List.length char) texts.
Proof.
  revert n; induction texts as [|t texts IH]; intros n; simpl;
    [reflexivity|]. now rewrite IH.
Qed.

Lemma read_pages_length (n : nat) (texts : list str) :
  List.length (read_pages n texts) = List.length texts.
Proof.
  revert n; induction texts as [|t texts IH]; intros n; simpl;
    [reflexivity|]. now rewrite IH.
Qed.

Lemma detect_scanned_spec (pages : list page) :
  pages <> [] ->
  (_detect_scanned_pdf pages = true
   <-> total_text_length pages < 100 * List.length pages).
Proof.
  intros Hne. destruct pages as [|p pages]; [contradiction|].
  unfold _detect_scanned_pdf, Qlt_bool.
  set (total := total_text_length (p :: pages)).
  set (n := List.length (p :: pages)).
  assert (Hn : 0 < n) by (unfold n; simpl; lia).
  rewrite negb_true_iff, <- not_true_iff_false, Qle_bool_iff.
  unfold Qle. cbn [Qnum Qden].
  replace (Z.pos (Pos.of_nat n)) with (Z.of_nat n)
    by (destruct n as [|k]; [lia|];
        rewrite <- Pos.of_nat_succ, Zpos_P_of_succ_nat; lia).
  lia.
Qed.

(** C7. For every document with at least one page, the loader marks it
    as scanned exactly when the average text length per page is strictly
    below 100 characters, that is when the characters of all pages are
    fewer than 100 times the number of pages; a document whose average is
    exactly 100 is not scanned. *)
Theorem scanned_iff_average_below_100 (texts : list str) :
  texts <> [] ->
  (is_scanned texts = true
   <-> characters texts < 100 * List.length texts)
  /\ (characters texts = 100 * List.length texts ->
      is_scanned texts = false).
Proof.
  intros Hne.
  assert (Hp : read_pages 0 texts <> [])
    by (destruct texts; [contradiction | discriminate]).
  pose proof (detect_scanned_spec _ Hp) as H.
  unfold is_scanned, characters.
  unfold total_text_length in H.
  rewrite fold_left_add, read_pages_lengths, read_pages_length in H.
  simpl in H. split; [exact H|].
  intros E. apply not_true_iff_false. intros T. apply H in T. lia.
Qed.

(** A one-page document of 40 characters is scanned. *)
Lemma scanned_witness :
  (is_scanned [repeat 120%N 40] = true
   <-> characters [repeat 120%N 40] < 100 * 1)
  /\ (characters [repeat 120%N 40] = 100 * 1 ->
      is_scanned [repeat 120%N 40] = false).
Proof.
  apply (scanned_iff_average_below_100 [repeat 120%N 40]). discriminate.
Defined.

(** A page of exactly 100 characters is not. *)
Example exactly_100_is_not_scanned :
  is_scanned [repeat 120%N 100] = false
  /\ is_scanned [repeat 120%N 99] = true.
Proof. split; vm_compute; reflexivity. Qed.

End Reader.

(* ================================================================== *)
(** * OCRProcessor *)
(* ================================================================== *)

Module Ocr.
Import Str.

(** The recogniser's output ([pytesseract.image_to_data] as a
    dictionary): parallel lists, one position per box.  A confidence is
    an integer, -1 for a box that is not a word. *)
Record ocr_data := mkOcr {
  d_level : list Z;
  d_conf : list Z;
  d_text : list str;
  d_left : list Z;
  d_top : list Z;
  d_width : list Z;
  d_height : list Z;
  d_line_num : list Z
}.

Record word_info := mkWord {
  w_text : str;
  w_confidence : Z;
  w_x : Z;
  w_y : Z;
  w_width : Z;
  w_height : Z;
  w_line_num : Z
}.

Record line_info := mkLine {
  line_number : Z;
  line_text : str;
  line_words : list word_info;
  y_position : Z
}.

Record processed := mkProcessed {
  words : list word_info;
  lines : list line_info;
  average_confidence : Q
}.

(** [l[i]] *)
Definition index {A : Type} (l : list A) (i : nat) : result A :=
  match nth_error l i with
  | Some a => Ok a
  | None => Raise IndexError
  end.

(** The state of the loop over the boxes; [acc_lines] is the dictionary
    from line numbers to their words, in insertion order. *)
Record acc := mkAcc {
  acc_words : list word_info;
  acc_lines : list (Z * list word_info);
  total_confidence : Z;
  valid_words : nat
}.

Fixpoint add_to_line (line_key : Z) (w : word_info)
  (ls : list (Z * list word_info)) : list (Z * list word_info) :=
  match ls with
  | [] => [(line_key, [w])]
  | (k, ws) :: ls' =>
    if (k =? line_key)%Z then (k, ws ++ [w]) :: ls'
    else (k, ws) :: add_to_line line_key w ls'
  end.

(** Stable sort by a strict order on keys. *)
Fixpoint insert_by {A : Type} (lt : A -> A -> bool) (x : A) (l : list A)
  : list A :=
  match l with
  | [] => [x]
  | y :: l' => if lt x y then x :: l else y :: insert_by lt x l'
  end.

Definition sort_by {A : Type} (lt : A -> A -> bool) (l : list A) : list A :=
  fold_left (fun sorted x => insert_by lt x sorted) l [].

Section WithDB.
Context {U : UnicodeDB}.

Definition box_step (d : ocr_data) (a : acc) (i : nat) : result acc :=
  c <- index (d_conf d) i ;;
  if (0 <? c)%Z then
    t <- index (d_text d) i ;;
    l <- index (d_left d) i ;;
    tp <- index (d_top d) i ;;
    w <- index (d_width d) i ;;
    h <- index (d_height d) i ;;
    ln <- index (d_line_num d) i ;;
    let word_info := mkWord (strip t) c l tp w h ln in
    if nonempty (w_text word_info) then
      Ok (mkAcc (acc_words a ++ [word_info])
                (add_to_line ln word_info (acc_lines a))
                (total_confidence a + c)
                (S (valid_words a)))
    else Ok a
  else Ok a.

Fixpoint box_loop (d : ocr_data) (boxes : list nat) (a : acc) : result acc :=
  match boxes with
  | [] => Ok a
  | i :: boxes' => a' <- box_step d a i ;; box_loop d boxes' a'
  end.

Definition line_of (entry : Z * list word_info) : line_info :=
  let line_words := sort_by (fun a b => (w_x a <? w_x b)%Z) (snd entry) in
  mkLine (fst entry)
         (join [SP] (map w_text line_words))
         line_words
         (match line_words with w :: _ => w_y w | [] => 0%Z end).

(** [_process_ocr_data].  The mean is computed in the rationals. *)
Definition _process_ocr_data (d : ocr_data) : result processed :=
  let n_boxes := List.length (d_level d) in
  a <- box_loop d (seq 0 n_boxes) (mkAcc [] [] 0%Z 0) ;;
  let average_confidence : Q :=
    if 0 <? valid_words a
    then Qmake (total_confidence a) (Pos.of_nat (valid_words a))
    else Qmake 0 1 in
  let words :=
    sort_by (fun a b => (w_y a <? w_y b)%Z
                        || ((w_y a =? w_y b)%Z && (w_x a <? w_x b)%Z))
            (acc_words a) in
  let line_list :=
    map line_of
        (sort_by (fun a b => (fst a <? fst b)%Z) (acc_lines a)) in
  Ok (mkProcessed words line_list average_confidence).

(** ** The aggregate confidence *)

(** Arithmetic mean of a list of confidences, 0 for the empty list. *)
Definition mean (cs : list Z) : Q :=
  match cs with
  | [] => Qmake 0 1
  | _ => Qmake (fold_right Z.add 0%Z cs) (Pos.of_nat (List.length cs))
  end.

(** The confidences of the boxes whose confidence is strictly positive:
    the tokens the mean is taken over according to the specification. *)
Definition positive_confidences (d : ocr_data) : list Z :=
  filter (fun c => (0 <? c)%Z) (firstn (List.length (d_level d)) (d_conf d)).

(** The confidences of the boxes whose confidence is strictly positive
    and whose text is not blank: the tokens the code counts. *)
Definition counted (d : ocr_data) (i : nat) : list Z :=
  match nth_error (d_conf d) i, nth_error (d_text d) i with
  | Some c, Some t =>
    if (0 <? c)%Z && nonempty (strip t) then [c] else []
  | _, _ => []
  end.

Definition counted_confidences (d : ocr_data) : list Z :=
  flat_map (counted d) (seq 0 (List.length (d_level d))).

Lemma box_step_totals (d : ocr_data) (a a' : acc) (i : nat) :
  box_step d a i = Ok a' ->
  total_confidence a'
  = (total_confidence a + fold_right Z.add 0 (counted d i))%Z
  /\ valid_words a' = valid_words a + List.length (counted d i).
Proof.
  unfold box_step, counted, index.
  destruct (nth_error (d_conf d) i) as [c|]; [|discriminate]. cbn [bind].
  destruct (0 <? c)%Z eqn:C.
  - destruct (nth_error (d_text d) i) as [t|]; [|discriminate]. cbn [bind].
    destruct (nth_error (d_left d) i); [|discriminate]. cbn [bind].
    destruct (nth_error (d_top d) i); [|discriminate]. cbn [bind].
    destruct (nth_error (d_width d) i); [|discriminate]. cbn [bind].
    destruct (nth_error (d_height d) i); [|discriminate]. cbn [bind].
    destruct (nth_error (d_line_num d) i); [|discriminate]. cbn [bind].
    cbn [w_text andb].
    destruct (nonempty (strip t)); intros H; injection H as <-; simpl; lia.
  - intros H; injection H as <-. cbn [andb].
    destruct (nth_error (d_text d) i); simpl; lia.
Qed.

Lemma box_loop_totals (d : ocr_data) (boxes : list nat) (a a' : acc) :
  box_loop d boxes a = Ok a' ->
  total_confidence a'
  = (total_confidence a
     + fold_right Z.add 0 (flat_map (counted d) boxes))%Z
  /\ valid_words a'
     = valid_words a + List.length (flat_map (counted d) boxes).
Proof.
  revert a; induction boxes as [|i boxes IH]; intros a; simpl.
  - intros H; injection H as <-. split; lia.
  - destruct (box_step d a i) as [a1|e] eqn:S1; [|discriminate]. cbn [bind].
    intros H. destruct (IH _ H) as [Ht Hv].
    destruct (box_step_totals _ _ _ _ S1) as [Ht1 Hv1].
    rewrite Ht, Hv, Ht1, Hv1.
    rewrite length_app.
    assert (Hsum : forall l1 l2 : list Z,
               fold_right Z.add 0%Z (l1 ++ l2)
               = (fold_right Z.add 0 l1 + fold_right Z.add 0 l2)%Z).
    { induction l1 as [|x l1 IHl]; intros l2; simpl; [reflexivity|].
      rewrite IHl. lia. }
    rewrite Hsum. split; lia.
Qed.

(** C8, as the code has it. For every recogniser output the code
    accepts, the aggregate confidence is the arithmetic mean of the
    confidences of the tokens whose confidence is strictly positive and
    whose text is not blank, and 0 when there is no such token. *)
Theorem average_confidence_is_mean_of_counted (d : ocr_data) (r : processed) :
  _process_ocr_data d = Ok r ->
  average_confidence r = mean (counted_confidences d).
Proof.
  unfold _process_ocr_data.
  destruct (box_loop d (seq 0 (List.length (d_level d))) (mkAcc [] [] 0%Z 0))
    as [a|e] eqn:L; [|discriminate].
  cbn [bind]. intros H; injection H as <-. cbn [average_confidence].
  destruct (box_loop_totals _ _ _ _ L) as [Ht Hv].
  cbn [total_confidence valid_words] in Ht, Hv.
  unfold counted_confidences, mean. rewrite Ht, Hv.
  destruct (flat_map (counted d) (seq 0 (List.length (d_level d))));
    reflexivity.
Qed.

End WithDB.

(** Two tokens on one line: a blank recognised with confidence 50 and
    the letter "a" with confidence 90. *)
Definition blank_and_letter : ocr_data :=
  mkOcr [5; 5]%Z [50; 90]%Z [lit " "; lit "a"] [0; 10]%Z [0; 0]%Z
        [8; 8]%Z [12; 12]%Z [1; 1]%Z.

(** C8 fails as stated: the blank token has a positive confidence and is
    left out of the mean, which is 90 and not 70. *)
Lemma mean_over_positive_confidences_counterexample :
  exists r,
    _process_ocr_data (U := Latin1) blank_and_letter = Ok r
    /\ average_confidence r = Qmake 90 1
    /\ mean (positive_confidences blank_and_letter) = Qmake 140 2
    /\ ~ Qeq (average_confidence r)
             (mean (positive_confidences blank_and_letter)).
Proof.
  eexists. split; [vm_compute; reflexivity|].
  split; [reflexivity|]. split; [reflexivity|].
  cbn. unfold Qeq. cbn. discriminate.
Qed.

Lemma average_confidence_witness :
  Qmake 90 1 = mean (counted_confidences (U := Latin1) blank_and_letter).
Proof.
  apply (average_confidence_is_mean_of_counted
           (U := Latin1) blank_and_letter
           (mkProcessed
              [mkWord (lit "a") 90 10 0 8 12 1]
              [mkLine 1 (lit "a") [mkWord (lit "a") 90 10 0 8 12 1] 0]
              (Qmake 90 1))).
  vm_compute. reflexivity.
Defined.

(** ** Batches *)

Section Batch.

(** [process_image] depends on the image library and on the recogniser;
    here it is any function from a path to the dictionary it returns or
    the exception it raises. *)
Variable image_result : Type.
Variable process_image : str -> bool -> result image_result.

(** An entry of the list [batch_process_images] returns: the dictionary
    of a processed page, or the error dictionary with its four keys
    ['image_path'], ['error'], ['text'] and ['confidence']. *)
Inductive batch_entry :=
| Processed (r : image_result)
| Failed (image_path : str) (error : str) (text : str) (confidence : Z).

(** One turn of the loop: the [try] and its handler. *)
Definition batch_step (preprocess : bool) (results : list batch_entry)
  (image_path : str) : list batch_entry :=
  match process_image image_path preprocess with
  | Ok r => results ++ [Processed r]
  | Raise e => results ++ [Failed image_path (exn_message e) [] 0%Z]
  end.

Definition batch_process_images (image_paths : list str) (preprocess : bool)
  : list batch_entry :=
  fold_left (batch_step preprocess) image_paths [].

(** What a page contributes, whatever happened to the others. *)
Definition entry_of (preprocess : bool) (image_path : str) : batch_entry :=
  match process_image image_path preprocess with
  | Ok r => Processed r
  | Raise e => Failed image_path (exn_message e) [] 0%Z
  end.

Lemma batch_loop_map (preprocess : bool) (image_paths : list str)
  (results : list batch_entry) :
  fold_left (batch_step preprocess) image_paths results
  = results ++ map (entry_of preprocess) image_paths.
Proof.
  revert results; induction image_paths as [|p ps IH]; intros results; simpl.
  - now rewrite app_nil_r.
  - rewrite IH. unfold batch_step, entry_of.
    destruct (process_image p preprocess); now rewrite <- app_assoc.
Qed.

(** C9. Batch OCR returns one result per input page, in input order: the
    entry at each position is the dictionary of that page, or, when
    processing that page raised, an error entry with empty text, zero
    confidence and the message of the exception; a failure leaves the
    entries of the other pages as they would be without it. *)
Theorem batch_returns_one_entry_per_page (image_paths : list str)
  (preprocess : bool) :
  batch_process_images image_paths preprocess
  = map (entry_of preprocess) image_paths
  /\ List.length (batch_process_images image_paths preprocess)
     = List.length image_paths
  /\ forall i image_path,
       nth_error image_paths i = Some image_path ->
       nth_error (batch_process_images image_paths preprocess) i
       = Some (match process_image image_path preprocess with
               | Ok r => Processed r
               | Raise e => Failed image_path (exn_message e) [] 0%Z
               end).
Proof.
  assert (E : batch_process_images image_paths preprocess
              = map (entry_of preprocess) image_paths)
    by (unfold batch_process_images; now rewrite batch_loop_map).
  rewrite E. split; [reflexivity|]. split; [apply length_map|].
  intros i image_path H. now rewrite nth_error_map, H.
Qed.

End Batch.

(** Three pages of which the second cannot be processed. *)
Example batch_with_a_failing_page :
  let process_image (path : str) (_ : bool) : result nat :=
    if str_eqb path (lit "p2.png")
    then Raise (Error (lit "cannot identify image file"))
    else Ok (List.length path) in
  batch_process_images nat process_image
    [lit "p1.png"; lit "p2.png"; lit "page3.png"] true
  = [ Processed nat 6;
      Failed nat (lit "p2.png") (lit "cannot identify image file") [] 0%Z;
      Processed nat 9 ].
Proof. vm_compute. reflexivity. Qed.

End Ocr.

(* ================================================================== *)
(** * FormatDetector *)
(* ================================================================== *)

Module Detector.
Import Str Re.

(** The values of the analysis dictionaries: booleans, counts, and one
    float (the average line length), kept as a rational. *)
Inductive pyval :=
| VBool (b : bool)
| VInt (n : Z)
| VFloat (q : Q).

(** A dictionary with string keys, in insertion order. *)
Definition dict := list (string * pyval).

Fixpoint dict_get (key : string) (d : dict) : option pyval :=
  match d with
  | [] => None
  | (k, v) :: d' => if String.eqb key k then Some v else dict_get key d'
  end.

Arguments dict_get key%_string d.

Definition entry (key : string) (v : pyval) : string * pyval := (key, v).
Arguments entry key%_string v.

(** Truth value of [d.get(key)]. *)
Definition truth (v : option pyval) : bool :=
  match v with
  | None => false
  | Some (VBool b) => b
  | Some (VInt n) => negb (n =? 0)%Z
  | Some (VFloat q) => negb (Qeq_bool q (Qmake 0 1))
  end.

(** [min(a, b)] *)
Definition py_min (a b : Q) : Q := if Qlt_bool b a then b else a.

(** An entry of [self.known_formats]. *)
Record format_info := mkFormat {
  name : str;
  description : str;
  indicators : list regex
}.

Definition standard_table : format_info :=
  mkFormat (lit "Tabla Estándar") (lit "Formato de tabla con columnas fijas")
    [ words ["Item"; "Código"; "Code"];
      words ["Descripción"; "Description"];
      words ["Cantidad"; "Quantity"; "Qty"];
      words ["Unidad"; "Unit"];
      words ["Precio"; "Price"; "Cost"];
      word "Total" ]%string.

Definition chapters_list : format_info :=
  mkFormat (lit "Lista por Capítulos")
    (lit "Organizado por capítulos con items numerados")
    [ words ["Capítulo"; "Chapter"; "CAP"]%string;
      (* \d+\.\d+\.\d+ *)
      seq_of [plus digit; dot; plus digit; dot; plus digit];
      (* \b\d+\.\d+\b *)
      seq_of [RWordB; plus digit; dot; plus digit; RWordB];
      (* \b\d+\s*[.-] *)
      seq_of [RWordB; plus digit; star space;
              RIn [CLit DOT; CLit (ch "-")]] ].

Definition unit_prices : format_info :=
  mkFormat (lit "Precios Unitarios")
    (lit "Lista de precios unitarios por partida")
    [ words ["Precio Unitario"; "Unit Price"]%string;
      (* PU\s*= *)
      seq_of [word "PU"; star space; RLit (ch "=")];
      (* \$\s*\d+\.\d{2} *)
      seq_of [RLit DOLLAR; star space; plus digit; dot; times 2 digit];
      (* \d+\.\d{2}\s*€ *)
      seq_of [plus digit; dot; times 2 digit; star space; RLit (ch "€")] ].

Definition detailed_breakdown : format_info :=
  mkFormat (lit "Desglose Detallado")
    (lit "Incluye desglose de materiales, mano de obra, etc.")
    [ words ["Materiales"; "Materials"];
      words ["Mano de Obra"; "Labor"];
      words ["Equipo"; "Equipment"];
      words ["Indirectos"; "Overhead"] ]%string.

Definition known_formats : list (string * format_info) :=
  [ ("standard_table", standard_table);
    ("chapters_list", chapters_list);
    ("unit_prices", unit_prices);
    ("detailed_breakdown", detailed_breakdown) ]%string.

(** The counters of the loop of [_analyze_structure]. *)
Record counters := mkCounters {
  header_lines : nat;
  table_lines : nat;
  list_items : nat;
  section_headers : nat
}.

Section WithDB.
Context {U : UnicodeDB}.

(** ** Structure *)

Definition _is_table_line (line : str) : bool :=
  let numbers := re_findall NOFLAGS Extractor.number line in
  let words := split_ws line in
  (2 <=? List.length numbers) && (4 <=? List.length words).

Definition _is_list_item (line : str) : bool :=
  existsb (fun pattern => is_some (re_match NOFLAGS pattern line))
    [ (* ^\s*\d+(?:\.\d+)*\s+ *)
      seq_of [RBol; star space; Extractor.dotted; plus space];
      (* ^\s*\d+\s*[.-]\s+ *)
      seq_of [RBol; star space; plus digit; star space;
              RIn [CLit DOT; CLit (ch "-")]; plus space];
      (* ^\s*[A-Z]{2,3}\d{2,4}\s+ *)
      seq_of [RBol; star space; Extractor.work_code; plus space] ].

Definition _is_section_header (line : str) : bool :=
  let line := strip line in
  let is_short := List.length line <? 50 in
  let is_uppercase := isupper line in
  let has_keywords :=
    existsb (fun keyword => contains keyword line)
            (map lit ["CAPÍTULO"; "CHAPTER"; "SECCIÓN"; "SECTION"]%string) in
  is_short && (is_uppercase || has_keywords).

Definition bump (b : bool) (n : nat) : nat := if b then S n else n.

Definition structure_step (c : counters) (line : str) : counters :=
  let line := strip line in
  if negb (nonempty line) then c
  else
    mkCounters
      (bump (existsb (fun indicator => contains indicator (str_upper line))
                     (map lit ["ITEM"; "CÓDIGO"; "DESCRIPCIÓN"; "CANTIDAD";
                               "PRECIO"]%string))
            (header_lines c))
      (bump (_is_table_line line) (table_lines c))
      (bump (_is_list_item line) (list_items c))
      (bump (_is_section_header line) (section_headers c)).

Definition _analyze_structure (lines : list str) : dict :=
  let total_lines := List.length lines in
  let empty_lines :=
    List.length (filter (fun line => negb (nonempty (strip line))) lines) in
  let average_line_length :=
    match lines with
    | [] => VInt 0
    | _ => VFloat (Qmake (Z.of_nat (list_sum (map (@List.length char) lines)))
                         (Pos.of_nat total_lines))
    end in
  let c := fold_left structure_step lines (mkCounters 0 0 0 0) in
  [ entry "total_lines" (VInt (Z.of_nat total_lines));
    entry "empty_lines" (VInt (Z.of_nat empty_lines));
    entry "header_lines" (VInt (Z.of_nat (header_lines c)));
    entry "table_lines" (VInt (Z.of_nat (table_lines c)));
    entry "list_items" (VInt (Z.of_nat (list_items c)));
    entry "section_headers" (VInt (Z.of_nat (section_headers c)));
    entry "has_table_structure"
          (VBool (exceeds_share (table_lines c) total_lines 3 10));
    entry "has_list_structure"
          (VBool (exceeds_share (list_items c) total_lines 4 10));
    entry "average_line_length" average_line_length ].

(** ** Content *)

Definition count (pattern : regex) (fl : flags) (text : str) : nat :=
  List.length (re_findall fl pattern text).

Definition any_in (needles : list string) (text : str) : bool :=
  existsb (fun needle => contains (lit needle) text) needles.

Definition _analyze_content (text : str) : dict :=
  [ entry "has_currency_symbols" (VBool (any_in ["$"; "€"]%string text));
    (* \d+\.\d{2} *)
    entry "has_decimal_numbers"
          (VBool (0 <? count (seq_of [plus digit; dot; times 2 digit])
                             NOFLAGS text));
    (* \d,\d{3} *)
    entry "has_thousand_separators"
          (VBool (0 <? count (seq_of [digit; RLit COMMA; times 3 digit])
                             NOFLAGS text));
    entry "has_units"
          (VBool (any_in ["m2"; "m3"; "kg"; "ml"; "l"; "un"]%string
                         (str_lower text)));
    entry "has_chapter_headers"
          (VBool (0 <? count (words ["CAPÍTULO"; "CHAPTER"]%string)
                             NOFLAGS text));
    entry "has_totals"
          (VBool (any_in ["TOTAL"; "SUBTOTAL"; "SUB-TOTAL"]%string text));
    entry "has_breakdown"
          (VBool (any_in ["MATERIALES"; "MANO DE OBRA"; "EQUIPO"]%string
                         text));
    (* [$€] *)
    entry "currency_count"
          (VInt (Z.of_nat (count (RIn [CLit DOLLAR; CLit (ch "€")])
                                 NOFLAGS text)));
    (* \d+\.\d+ *)
    entry "number_count"
          (VInt (Z.of_nat (count (seq_of [plus digit; dot; plus digit])
                                 NOFLAGS text)));
    (* \b(m2|m3|kg|ml|l|un)\b *)
    entry "unit_count"
          (VInt (Z.of_nat
                   (count (seq_of [RWordB;
                                   RGroup 1 (words ["m2"; "m3"; "kg"; "ml";
                                                    "l"; "un"]%string);
                                   RWordB]) I text))) ].

(** ** Scores *)

Section Score.

(** [repr] of a float is left to the interpreter. *)
Variable repr_float : Q -> str.

Definition repr_int (n : Z) : str :=
  (if (n <? 0)%Z then lit "-" else [])
  ++ str_of_nat (Z.abs_nat n).

Definition repr (v : pyval) : str :=
  match v with
  | VBool true => lit "True"
  | VBool false => lit "False"
  | VInt n => repr_int n
  | VFloat q => repr_float q
  end.

(** [str(d)] of a dictionary with string keys. *)
Definition dict_str (d : dict) : str :=
  lit "{"
  ++ join (lit ", ")
          (map (fun kv => lit "'" ++ lit (fst kv) ++ lit "': " ++ repr (snd kv))
               d)
  ++ lit "}".

(** The indicators found in the summary, counted as the score is. *)
Definition indicator_hits (format : format_info) (summary : str) : Q :=
  fold_left (fun score indicator =>
               if is_some (re_search I indicator summary)
               then Qplus score (Qmake 1 1) else score)
            (indicators format) (Qmake 0 1).

Definition normalized (format : format_info) (score : Q) : Q :=
  match indicators format with
  | [] => score
  | _ => Qdiv score (Qmake (Z.of_nat (List.length (indicators format))) 1)
  end.

Definition bonus (condition : bool) (amount : Q) (score : Q) : Q :=
  if condition then Qplus score amount else score.

Definition _calculate_format_score (format : format_info)
  (structure content patterns : dict) : Q :=
  let score :=
    indicator_hits format (dict_str structure ++ dict_str content) in
  let score := normalized format score in
  let score :=
    bonus (truth (dict_get "has_table_structure" content)
           && contains (lit "table") (str_lower (name format)))
          (Qmake 3 10) score in
  let score :=
    bonus (truth (dict_get "has_list_structure" content)
           && contains (lit "list") (str_lower (name format)))
          (Qmake 3 10) score in
  let score :=
    bonus (truth (dict_get "has_breakdown" content)
           && contains (lit "detallado") (str_lower (name format)))
          (Qmake 2 10) score in
  py_min score (Qmake 1 1).

(** ** The bonuses *)

(** The content analysis has no entry for the shape of the document:
    ['has_table_structure'] and ['has_list_structure'] are entries of the
    structure analysis. *)
Lemma content_lacks_structure_keys (text : str) :
  dict_get "has_table_structure" (_analyze_content text) = None
  /\ dict_get "has_list_structure" (_analyze_content text) = None.
Proof. split; reflexivity. Qed.

(** The score of a format for a text: the share of its indicators found
    in the summary, with the bonus for cost breakdowns. *)
Definition score_without_shape_bonus (format : format_info)
  (structure content : dict) : Q :=
  bonus (truth (dict_get "has_breakdown" content)
         && contains (lit "detallado") (str_lower (name format)))
        (Qmake 2 10)
        (normalized format
           (indicator_hits format (dict_str structure ++ dict_str content))).

(** Whatever the text and the format, the score is the capped share of
    indicators plus the breakdown bonus: the bonuses for a table-shaped
    or list-shaped document are looked up in the content analysis, which
    does not hold them, and are never added. *)
Theorem shape_bonuses_are_never_added (text : str) (format : format_info)
  (patterns : dict) :
  let clean_text := str_upper text in
  let structure := _analyze_structure (split_on LF clean_text) in
  let content := _analyze_content clean_text in
  _calculate_format_score format structure content patterns
  = py_min (score_without_shape_bonus format structure content) (Qmake 1 1).
Proof.
  cbv zeta. unfold _calculate_format_score, score_without_shape_bonus.
  destruct (content_lacks_structure_keys (str_upper text)) as [Ht Hl].
  rewrite Ht, Hl. reflexivity.
Qed.

(** Every score is at most 1. *)
Lemma score_is_capped (format : format_info) (structure content patterns : dict) :
  Qle (_calculate_format_score format structure content patterns)
      (Qmake 1 1).
Proof.
  unfold _calculate_format_score, py_min, Qlt_bool.
  match goal with |- context [Qle_bool ?a ?b] =>
    destruct (Qle_bool a b) eqn:E end; cbn [negb].
  - now apply Qle_bool_iff.
  - apply Qle_refl.
Qed.

End Score.
End WithDB.

(** [repr] of a float whose value is a whole number. *)
Definition repr_whole_float (q : Q) : str :=
  repr_int (Qnum q / Z.pos (Qden q)) ++ lit ".0".

(** A text of one line, which has the shape of a table row. *)
Definition table_shaped_text : str := lit "A 1 2 B".

(** C6 on the code: the only line of [table_shaped_text] is table-shaped
    (ratio 1 > 0.3) and the structure analysis says so, but the score of
    the table format is 3/6, the share of its indicators found in the
    summary, without the 0.3 the table shape should add. *)
Theorem table_shaped_text_gets_no_bonus :
  let clean_text := @str_upper Latin1 table_shaped_text in
  let structure := _analyze_structure (split_on LF clean_text) in
  let content := _analyze_content clean_text in
  dict_get "has_table_structure" structure = Some (VBool true)
  /\ dict_get "has_table_structure" content = None
  /\ normalized standard_table
       (indicator_hits standard_table
          (dict_str repr_whole_float structure
           ++ dict_str repr_whole_float content))
     = Qmake 3 6
  /\ _calculate_format_score repr_whole_float standard_table
       structure content []
     = Qmake 3 6.
Proof. cbv zeta. repeat split; vm_compute; reflexivity. Qed.

End Detector.

(* ================================================================== *)
(** * Invariants of the extractor *)
(* ================================================================== *)

Module ExtractorInvariants.
Import Str Re Dec Extractor ReFacts StrFacts DecFacts ExtractorProps.

Section Invariants.
Context {U : UnicodeDB}.

(** ** The cleaned text *)

(** X1. Whatever the text, what [_clean_text] returns holds no control
    character (no line feed and no tabulation among them), no whitespace
    but single blanks between other characters, and none at either end;
    split at line feeds it is one line. *)
Theorem clean_text_normal_form (text : str) :
  let s := _clean_text text in
  printable s = true /\ tidy false s = true /\ strip s = s /\
  split_on LF s = [s].
Proof.
  cbv zeta. destruct (clean_text_shape text) as [Ht Hp].
  repeat split; try assumption.
  - unfold _clean_text. apply strip_idem.
  - apply split_on_none. now apply (printable_excludes LF).
Qed.

(** X2. [_clean_text] is idempotent. *)
Theorem clean_text_idempotent (text : str) :
  _clean_text (_clean_text text) = _clean_text text.
Proof.
  destruct (clean_text_shape text) as [Ht Hp].
  apply clean_text_fixed; try assumption.
  unfold _clean_text. apply strip_idem.
Qed.

(** ** Without a format hint *)

Lemma detect_format_short (lines : list str) :
  List.length lines < 3 -> _detect_format lines = lit "unknown".
Proof.
  intros H. unfold _detect_format.
  now replace (List.length lines <? 3) with true
    by (symmetry; apply Nat.ltb_lt; exact H).
Qed.

(** X3. Without a format hint ([None] or the empty string) the detection
    of [extract_budget_items] answers ['unknown'] for every text, since
    the cleaned text is a single line, and the body runs the pattern
    strategy on that line. *)
Theorem no_hint_runs_the_pattern_strategy (text : str)
  (format_type : option str) :
  format_type = None \/ format_type = Some [] ->
  _detect_format (split_on LF (_clean_text text)) = lit "unknown" /\
  extract_body text format_type
  = (items <- _extract_with_patterns [_clean_text text] ;;
     _validate_and_clean_items items).
Proof.
  intros Hf.
  assert (Hl : split_on LF (_clean_text text) = [_clean_text text]).
  { apply split_on_none, (printable_excludes LF); [reflexivity|].
    apply clean_text_shape. }
  assert (Hd : _detect_format (split_on LF (_clean_text text))
               = lit "unknown")
    by (rewrite Hl; apply detect_format_short; simpl; lia).
  split; [exact Hd|].
  unfold extract_body.
  replace (match format_type with
           | Some (c :: f) => c :: f
           | _ => _detect_format (split_on LF (_clean_text text))
           end) with (lit "unknown")
    by (destruct Hf as [-> | ->]; now rewrite Hd).
  rewrite Hl. reflexivity.
Qed.

(** ** Table rows *)

(** X4. Every column [_split_table_row] returns is non-empty and has no
    whitespace at either end. *)
Theorem split_table_row_columns (line col : str) :
  In col (_split_table_row line) -> col <> [] /\ strip col = col.
Proof.
  unfold _split_table_row. intros H.
  apply in_map_iff in H as (c & <- & Hc).
  apply filter_In in Hc as [_ Hc]. split.
  - intros E. now rewrite E in Hc.
  - apply strip_idem.
Qed.

(** ** List lines *)

Lemma item_of_groups_shape (groups : list str) (it : item) :
  item_of_groups groups = Ok it ->
  quantity it <> None /\ total_price it = None /\
  (unit it = [] \/ str_in (unit it) common_units = true) /\
  strip (description it) = description it.
Proof.
  unfold item_of_groups.
  destruct (decimal (nth 2 groups [])) as [q|e]; [|discriminate].
  cbn [bind].
  set (u := if (3 <? List.length groups)
                 && str_in (nth 3 groups []) common_units
            then nth 3 groups [] else []).
  assert (Hu : u = [] \/ str_in u common_units = true).
  { subst u. destruct (3 <? List.length groups); cbn [andb]; [|now left].
    destruct (str_in (nth 3 groups []) common_units) eqn:E; [now right|].
    now left. }
  intros H. injection H as <-.
  destruct (4 <? List.length groups);
    [destruct (of_str (clean_price (nth 4 groups [])))|];
    cbn [set_unit_price quantity total_price unit description];
    (repeat split; [discriminate | exact Hu | apply strip_idem]).
Qed.

Lemma first_template_shape (patterns : list (regex * nat)) (line : str)
  (it : item) :
  first_template patterns line = Ok (Some it) ->
  quantity it <> None /\ total_price it = None /\
  (unit it = [] \/ str_in (unit it) common_units = true) /\
  strip (description it) = description it.
Proof.
  induction patterns as [|[pattern n] patterns IH]; cbn [first_template];
    [discriminate|].
  destruct (re_search I pattern line) as [mt|]; [|exact IH].
  destruct (item_of_groups (groups_of mt n)) as [x|e] eqn:E; [|discriminate].
  cbn [bind]. intros H. injection H as <-.
  now apply item_of_groups_shape in E.
Qed.

(** X5. An item [_parse_list_item] reads from a line has a quantity and
    no total, a unit that is empty or one of [common_units], and a
    description without whitespace at either end; a blank line gives no
    item. *)
Theorem parse_list_item_shape (line : str) :
  (nonempty (strip line) = false -> _parse_list_item line = Ok None) /\
  (forall it, _parse_list_item line = Ok (Some it) ->
     quantity it <> None /\ total_price it = None /\
     (unit it = [] \/ str_in (unit it) common_units = true) /\
     strip (description it) = description it).
Proof.
  unfold _parse_list_item. split.
  - intros ->. reflexivity.
  - intros it. destruct (nonempty (strip line)); cbn [negb]; [|discriminate].
    apply first_template_shape.
Qed.

(** The item the loop holds back until the next one starts. *)
Definition pending (cur : option item) : nat :=
  match cur with Some _ => 1 | None => 0 end.

Lemma push_length (items : list item) (cur : option item) :
  List.length (push items cur) = List.length items + pending cur.
Proof.
  destruct cur; cbn [push pending]; [rewrite length_app; simpl; lia | lia].
Qed.

Lemma list_loop_length (lines : list str) :
  forall items cur out,
    list_loop lines items cur = Ok out ->
    List.length out <= List.length items + pending cur + List.length lines.
Proof.
  induction lines as [|line lines IH]; intros items cur out; cbn [list_loop].
  - intros H. injection H as <-. rewrite push_length. simpl. lia.
  - destruct (_parse_list_item line) as [new_item|e]; [|discriminate].
    cbn [bind]. destruct new_item as [it|].
    + intros H. apply IH in H. rewrite push_length in H.
      cbn [List.length pending] in *. lia.
    + destruct cur as [cur|].
      * destruct ((10 <? List.length (strip line))
                  && negb (starts_with_digit (strip line)));
          intros H; apply IH in H; cbn [List.length pending] in *; lia.
      * intros H. apply IH in H. cbn [List.length pending] in *. lia.
Qed.

(** X6. The list strategy returns at most one item per line. *)
Theorem extract_from_list_length (lines : list str) (items : list item) :
  _extract_from_list lines = Ok items ->
  List.length items <= List.length lines.
Proof.
  unfold _extract_from_list. intros H. apply list_loop_length in H.
  simpl in H. lia.
Qed.

(** ** Mixed layouts *)

Lemma keep_longer_spec (items : list item) (attempt : result (list item)) :
  List.length items <= List.length (keep_longer items attempt) /\
  (forall l, attempt = Ok l ->
     List.length l <= List.length (keep_longer items attempt)) /\
  (keep_longer items attempt = items \/
   attempt = Ok (keep_longer items attempt)).
Proof.
  unfold keep_longer. destruct attempt as [l|e].
  - destruct (Nat.ltb_spec (List.length items) (List.length l)).
    + split; [lia|]. split; [|now right].
      intros l' E. injection E as <-. lia.
    + split; [lia|]. split; [|now left].
      intros l' E. injection E as <-. lia.
  - split; [lia|]. split; [discriminate | now left].
Qed.

(** X7. The mixed strategy never raises: a strategy that raises is passed
    over.  Its result is at least as long as the result of each of the
    three strategies that returned, and it is the empty list or the
    result of one of them. *)
Theorem extract_from_mixed_longest (lines : list str) :
  let attempts := [ _extract_with_line_breaks lines;
                    _extract_with_context lines;
                    _extract_with_patterns lines ] in
  (forall l, In (Ok l) attempts ->
     List.length l <= List.length (_extract_from_mixed lines)) /\
  (_extract_from_mixed lines = [] \/
   In (Ok (_extract_from_mixed lines)) attempts).
Proof.
  cbv zeta. unfold _extract_from_mixed. cbn [fold_left].
  set (a := _extract_with_line_breaks lines).
  set (b := _extract_with_context lines).
  set (c := _extract_with_patterns lines).
  destruct (keep_longer_spec [] a) as (_ & La & Ca).
  destruct (keep_longer_spec (keep_longer [] a) b) as (Ka & Lb & Cb).
  destruct (keep_longer_spec (keep_longer (keep_longer [] a) b) c)
    as (Kb & Lc & Cc).
  split.
  - intros l [E | [E | [E | []]]].
    + specialize (La l E). lia.
    + specialize (Lb l E). lia.
    + now apply Lc.
  - cbn [In]. destruct Cc as [-> | <-]; [|auto].
    destruct Cb as [-> | <-]; [|auto].
    destruct Ca as [-> | <-]; auto.
Qed.

(** ** The pattern strategy *)

Lemma matches_step_valid (names : list (string * nat)) (mt : rmatch)
  (items out : list item) :
  Forall (fun it => _is_valid_item it = true) items ->
  matches_step names items mt = Ok out ->
  Forall (fun it => _is_valid_item it = true) out.
Proof.
  intros Hi. unfold matches_step.
  destruct (item_of_groupdict (groupdict mt names)) as [it|e];
    [|discriminate].
  cbn [bind]. destruct (_is_valid_item it) eqn:V; intros H; injection H as <-;
    [|exact Hi].
  apply Forall_app. split; [exact Hi|]. now constructor.
Qed.

Lemma foldM_invariant {A B : Type} (P : A -> Prop) (f : A -> B -> result A)
  (l : list B) :
  (forall a b a', P a -> f a b = Ok a' -> P a') ->
  forall a out, P a -> foldM f l a = Ok out -> P out.
Proof.
  intros Hf. induction l as [|b l IH]; intros a out Pa; cbn [foldM].
  - intros H. now injection H as <-.
  - destruct (f a b) as [a'|e] eqn:E; [|discriminate]. cbn [bind].
    apply IH. eapply Hf; eauto.
Qed.

(** X8. Every item the pattern strategy returns passes [_is_valid_item]. *)
Theorem extract_with_patterns_valid (lines : list str) (items : list item) :
  _extract_with_patterns lines = Ok items ->
  Forall (fun it => _is_valid_item it = true) items.
Proof.
  unfold _extract_with_patterns.
  apply (foldM_invariant (Forall (fun it => _is_valid_item it = true)));
    [|constructor].
  intros a pattern a' Ha. unfold pattern_step.
  apply (foldM_invariant (Forall (fun it => _is_valid_item it = true)));
    [|exact Ha].
  intros x mt x' Hx. now apply matches_step_valid.
Qed.

(** ** The validator *)

Lemma str_in_In (s : str) (l : list str) : str_in s l = true <-> In s l.
Proof.
  unfold str_in. rewrite existsb_exists. split.
  - intros (x & Hx & E). apply str_eqb_eq in E. now subst.
  - intros H. exists s. split; [exact H | apply str_eqb_refl].
Qed.

Lemma unique_keys (items : list item) :
  forall seen,
    NoDup (map item_key (unique items seen)) /\
    (forall it, In it (unique items seen) -> ~ In (item_key it) seen).
Proof.
  induction items as [|it items IH]; intros seen; cbn [unique].
  - split; [constructor | contradiction].
  - destruct (str_in (item_key it) seen) eqn:E; [apply IH|].
    destruct (IH (item_key it :: seen)) as [Hn Hs]. split.
    + cbn [map]. constructor; [|exact Hn].
      intros Hin. apply in_map_iff in Hin as (x & Ex & Hx).
      apply (Hs x Hx). left. now symmetry.
    + intros x [<- | Hx].
      * intros Hin. apply str_in_In in Hin. congruence.
      * intros Hin. apply (Hs x Hx). now right.
Qed.

Lemma clean_valid_length (items out : list item) :
  clean_valid items = Ok out -> List.length out <= List.length items.
Proof.
  revert out; induction items as [|it items IH]; intros out; cbn [clean_valid].
  - intros H. injection H as <-. simpl. lia.
  - destruct (_is_valid_item it).
    + destruct (_clean_item it); [|discriminate]. cbn [bind].
      destruct (clean_valid items) as [rest|]; [|discriminate]. cbn [bind].
      intros H. injection H as <-. specialize (IH rest eq_refl). simpl. lia.
    + intros H. specialize (IH out H). simpl. lia.
Qed.

Lemma unique_length (items : list item) (seen : list str) :
  List.length (unique items seen) <= List.length items.
Proof.
  revert seen; induction items as [|it items IH]; intros seen; cbn [unique];
    [lia|].
  destruct (str_in (item_key it) seen); cbn [List.length];
    [specialize (IH seen) | specialize (IH (item_key it :: seen))]; lia.
Qed.

(** X9. No two items the validator returns have the same key (code and
    first 50 characters of the description). *)
Theorem validated_keys_are_distinct (items out : list item) :
  _validate_and_clean_items items = Ok out ->
  NoDup (map item_key out).
Proof.
  unfold _validate_and_clean_items.
  destruct (clean_valid items) as [cleaned|e]; [|discriminate].
  cbn [bind]. intros H. injection H as <-. apply unique_keys.
Qed.

(** X10. The validator adds nothing: it returns no more items than it is
    given, and each one is what [_clean_item] makes of a candidate of the
    input that passes [_is_valid_item]. *)
Theorem validated_items_come_from_valid_candidates (items out : list item) :
  _validate_and_clean_items items = Ok out ->
  List.length out <= List.length items /\
  forall o, In o out ->
    exists it, In it items /\ _is_valid_item it = true /\
               _clean_item it = Ok o.
Proof.
  intros H. split.
  - unfold _validate_and_clean_items in H.
    destruct (clean_valid items) as [cleaned|e] eqn:C; [|discriminate].
    cbn [bind] in H. injection H as <-.
    pose proof (clean_valid_length _ _ C).
    pose proof (unique_length cleaned []). lia.
  - intros o Ho. eapply validate_In; eauto.
Qed.

(** X11. Every item [extract_budget_items] returns has a code, and has a
    total whenever its quantity and its unit price are both present and
    not zero. *)
Theorem returned_items_have_code_and_total (text : str)
  (format_type : option str) (it : item) :
  In it (extract_budget_items text format_type) ->
  code it <> [] /\
  (truthy (quantity it) = true -> truthy (unit_price it) = true ->
   total_price it <> None).
Proof.
  intros Hin. destruct (extract_In _ _ _ Hin) as (cand & _ & C).
  rewrite clean_item_eq in C.
  destruct (total_step (quantity cand) (unit_price cand) (total_price cand))
    as [t|e] eqn:T; [|discriminate].
  cbn [bind] in C. injection C as <-.
  cbn [code quantity unit_price total_price]. split.
  - unfold code_or_placeholder. destruct (code cand); discriminate.
  - unfold total_step in T.
    destruct (quantity cand) as [q|]; [|discriminate].
    destruct (unit_price cand) as [p|]; [|discriminate].
    cbn [truthy]. intros Hq Hp. rewrite Hq, Hp in T. cbn [andb] in T.
    destruct (truthy (total_price cand)) eqn:Tt; cbn [negb] in T.
    + injection T as <-. destruct (total_price cand); discriminate.
    + destruct (Dec.mul q p); [|discriminate]. cbn [bind] in T.
      injection T as <-. discriminate.
Qed.

(** X12. With the format ['list'] at most one item is returned, whatever
    the text: the cleaned text is a single line, and the list strategy
    returns at most one item per line. *)
Theorem list_format_returns_at_most_one_item (text : str) :
  List.length (extract_budget_items text (Some (lit "list"))) <= 1.
Proof.
  unfold extract_budget_items. rewrite extract_body_list.
  assert (Hl : split_on LF (_clean_text text) = [_clean_text text]).
  { apply split_on_none, (printable_excludes LF); [reflexivity|].
    apply clean_text_shape. }
  rewrite Hl. unfold _extract_from_list.
  destruct (list_loop [_clean_text text] [] None) as [items|e] eqn:L;
    cbn [bind]; [|simpl; lia].
  apply list_loop_length in L. cbn [List.length pending] in L.
  unfold _validate_and_clean_items.
  destruct (clean_valid items) as [cleaned|e] eqn:C; cbn [bind];
    [|simpl; lia].
  pose proof (clean_valid_length _ _ C).
  pose proof (unique_length cleaned []). lia.
Qed.

End Invariants.

Lemma split_table_row_columns_witness :
  lit "a" <> [] /\ strip (U := Latin1) (lit "a") = lit "a".
Proof.
  apply (split_table_row_columns (U := Latin1) (lit " a   b ") (lit "a")).
  vm_compute. left. reflexivity.
Defined.

Lemma no_hint_witness :
  _detect_format (U := Latin1) (split_on LF (_clean_text wall_line))
  = lit "unknown" /\
  extract_body (U := Latin1) wall_line None
  = (items <- _extract_with_patterns [_clean_text wall_line] ;;
     _validate_and_clean_items items).
Proof.
  apply (no_hint_runs_the_pattern_strategy (U := Latin1) wall_line None).
  left. reflexivity.
Defined.

Lemma extract_from_list_length_witness :
  List.length [wall_item] <= List.length [wall_line].
Proof.
  apply (extract_from_list_length (U := Latin1) [wall_line] [wall_item]).
  vm_compute. reflexivity.
Defined.

(** A line without a code, as the pattern strategy reads it. *)
Definition uncoded_item : item :=
  mkItem [] (lit "Muro") (lit "m2") (Some (dec 5 0)) (Some (dec 1000 (-2)))
         None.

Lemma extract_with_patterns_valid_witness :
  Forall (fun it => _is_valid_item (U := Latin1) it = true) [uncoded_item].
Proof.
  apply (extract_with_patterns_valid (U := Latin1) [lit "Muro 5 m2 10.00"]).
  vm_compute. reflexivity.
Defined.

Lemma validated_keys_witness : NoDup (map item_key clean_candidates).
Proof.
  apply (validated_keys_are_distinct (U := Latin1) raw_candidates).
  vm_compute. reflexivity.
Defined.

Lemma validated_items_witness :
  List.length clean_candidates <= List.length raw_candidates /\
  forall o, In o clean_candidates ->
    exists it, In it raw_candidates /\
               _is_valid_item (U := Latin1) it = true /\
               _clean_item (U := Latin1) it = Ok o.
Proof.
  apply (validated_items_come_from_valid_candidates (U := Latin1)).
  vm_compute. reflexivity.
Defined.

Lemma code_and_total_witness :
  code capitals_item <> [] /\
  (truthy (quantity capitals_item) = true ->
   truthy (unit_price capitals_item) = true ->
   total_price capitals_item <> None).
Proof.
  apply (returned_items_have_code_and_total
           (U := Latin1) capitals_line (Some (lit "list"))).
  vm_compute. left. reflexivity.
Defined.

End ExtractorInvariants.

(* ================================================================== *)
(** * Bounds on the line strategies *)
(* ================================================================== *)

Module StrategyBounds.
Import Str Re Dec Extractor ExtractorProps ExtractorInvariants.

Section Bounds.
Context {U : UnicodeDB}.

(** A line that is not blank. *)
Definition written (line : str) : bool := nonempty (strip line).

(** The buffer the loop has still to parse. *)
Definition buffered (buffer : list str) : nat :=
  match buffer with [] => 0 | _ => 1 end.

Lemma flush_length (buffer : list str) (items out : list item) :
  flush buffer items = Ok out ->
  List.length out <= List.length items + buffered buffer.
Proof.
  destruct buffer as [|b buffer]; cbn [flush buffered].
  - intros H. injection H as <-. lia.
  - destruct (_parse_buffered_lines (b :: buffer)) as [it|e]; [|discriminate].
    cbn [bind]. intros H. injection H as <-. rewrite push_length.
    destruct it; cbn [pending]; lia.
Qed.

Lemma line_break_loop_length (lines : list str) :
  forall items buffer out,
    line_break_loop lines items buffer = Ok out ->
    List.length out
    <= List.length items + buffered buffer
       + List.length (filter written lines).
Proof.
  induction lines as [|line lines IH]; intros items buffer out;
    cbn [line_break_loop filter].
  - intros H. apply flush_length in H. simpl. lia.
  - unfold written at 1. destruct (nonempty (strip line)); cbn [negb].
    + destruct (_is_new_item_line (strip line)).
      * destruct (flush buffer items) as [items'|e] eqn:F; [|discriminate].
        cbn [bind]. intros H. apply IH in H. apply flush_length in F.
        cbn [buffered List.length] in *. lia.
      * intros H. apply IH in H.
        assert (buffered (buffer ++ [strip line]) = 1)
          by (destruct buffer; reflexivity).
        cbn [List.length]. lia.
    + apply IH.
Qed.

Lemma context_loop_spec (all : list str) (lines : list str) :
  forall i items out,
    context_loop all i lines items = Ok out ->
    Forall (fun it => _is_valid_item it = true) items ->
    List.length out <= List.length items + List.length (filter written lines)
    /\ Forall (fun it => _is_valid_item it = true) out.
Proof.
  induction lines as [|line lines IH]; intros i items out;
    cbn [context_loop filter].
  - intros H Hv. injection H as <-. split; [simpl; lia | exact Hv].
  - unfold written at 1. destruct (nonempty (strip line)); cbn [negb];
      [|apply IH].
    destruct (_extract_item_with_patterns _) as [[x|]|e]; cbn [bind];
      [|intros H Hv; destruct (IH _ _ _ H Hv); cbn [List.length];
        split; [lia | assumption]
       |discriminate].
    destruct (_is_valid_item x) eqn:V; intros H Hv.
    + destruct (IH _ _ _ H) as [Hl Ho].
      { apply Forall_app. split; [exact Hv|]. now constructor. }
      rewrite length_app in Hl. cbn [List.length] in *.
      split; [lia | assumption].
    + destruct (IH _ _ _ H Hv). cbn [List.length].
      split; [lia | assumption].
Qed.

(** X13. The line-break strategy and the context strategy return at most
    one item per line that is not blank, and every item of the context
    strategy passes [_is_valid_item]. *)
Theorem line_strategies_return_one_item_per_line (lines : list str) :
  (forall items, _extract_with_line_breaks lines = Ok items ->
     List.length items <= List.length (filter written lines)) /\
  (forall items, _extract_with_context lines = Ok items ->
     List.length items <= List.length (filter written lines) /\
     Forall (fun it => _is_valid_item it = true) items).
Proof.
  split; intros items H.
  - apply line_break_loop_length in H. simpl in H. lia.
  - apply context_loop_spec in H; [|constructor]. simpl in H. exact H.
Qed.

End Bounds.
End StrategyBounds.

(* ================================================================== *)
(** * The order of decimals *)
(* ================================================================== *)

Module DecOrder.
Import Dec.

(** [a <= b]: not [b < a]. *)
Definition le (a b : Decimal) : bool := negb (lt b a).

Lemma pow10_pos (k : Z) : (0 < Z.of_N (pow10 k))%Z.
Proof.
  unfold pow10. pose proof (N.pow_nonzero 10 (Z.to_N k)). lia.
Qed.

Lemma scaled_shift (a : Decimal) (e e' : Z) :
  (e' <= e)%Z -> (e <= d_exp a)%Z ->
  scaled a e' = (scaled a e * Z.of_N (pow10 (e - e')))%Z.
Proof.
  intros H1 H2. unfold scaled, pow10.
  replace (Z.to_N (d_exp a - e'))
    with (Z.to_N (d_exp a - e) + Z.to_N (e - e'))%N by lia.
  rewrite N.pow_add_r, N.mul_assoc, N2Z.inj_mul.
  destruct (d_sign a); lia.
Qed.

(** The comparison may be made at any exponent below both. *)
Lemma lt_at (a b : Decimal) (e' : Z) :
  (e' <= d_exp a)%Z -> (e' <= d_exp b)%Z ->
  lt a b = (scaled a e' <? scaled b e')%Z.
Proof.
  intros Ha Hb. unfold lt.
  set (e := Z.min (d_exp a) (d_exp b)).
  rewrite (scaled_shift a e e'), (scaled_shift b e e') by (subst e; lia).
  pose proof (pow10_pos (e - e')) as Hp.
  set (x := scaled a e). set (y := scaled b e).
  set (f := Z.of_N (pow10 (e - e'))) in *.
  destruct (Z.ltb_spec x y), (Z.ltb_spec (x * f) (y * f)); try reflexivity; nia.
Qed.

Lemma le_trans (a b c : Decimal) :
  le a b = true -> le b c = true -> le a c = true.
Proof.
  unfold le. rewrite !negb_true_iff.
  set (e := Z.min (d_exp a) (Z.min (d_exp b) (d_exp c))).
  rewrite (lt_at b a e), (lt_at c b e), (lt_at c a e) by (subst e; lia).
  rewrite !Z.ltb_ge. lia.
Qed.

Lemma lt_le (a b : Decimal) : lt a b = true -> le a b = true.
Proof.
  unfold le. rewrite negb_true_iff.
  rewrite (lt_at a b (Z.min (d_exp a) (d_exp b))),
          (lt_at b a (Z.min (d_exp a) (d_exp b))) by lia.
  rewrite Z.ltb_lt, Z.ltb_ge. lia.
Qed.

(** ** [sorted] *)

(** Every element is at most the ones after it. *)
Fixpoint ascending (l : list Decimal) : Prop :=
  match l with
  | [] => True
  | x :: l' => (forall y, In y l' -> le x y = true) /\ ascending l'
  end.

Lemma insert_sorted_In (x y : Decimal) (l : list Decimal) :
  In y (insert_sorted x l) <-> y = x \/ In y l.
Proof.
  induction l as [|z l IH]; cbn [insert_sorted In].
  - intuition.
  - destruct (lt x z); cbn [In]; [intuition|]. rewrite IH. intuition.
Qed.

Lemma insert_sorted_ascending (x : Decimal) (l : list Decimal) :
  ascending l -> ascending (insert_sorted x l).
Proof.
  induction l as [|z l IH]; cbn [insert_sorted ascending].
  - intros _. split; [contradiction | exact Logic.I].
  - intros [Hz Hl]. destruct (lt x z) eqn:E; cbn [ascending].
    + split; [|split; assumption].
      intros y [<- | Hy]; [now apply lt_le|].
      apply (le_trans x z y); [now apply lt_le | now apply Hz].
    + split; [|now apply IH].
      intros y Hy. apply insert_sorted_In in Hy as [-> | Hy];
        [unfold le; now rewrite E | now apply Hz].
Qed.

Lemma sorted_spec (l : list Decimal) :
  ascending (sorted l) /\ forall y, In y (sorted l) <-> In y l.
Proof.
  unfold sorted. rewrite <- fold_left_rev_right.
  assert (H : forall r,
             ascending (fold_right (fun x acc => insert_sorted x acc) [] r)
             /\ forall y, In y (fold_right (fun x acc => insert_sorted x acc)
                                           [] r) <-> In y r).
  { induction r as [|x r [IHa IHi]]; cbn [fold_right].
    - split; [exact Logic.I | reflexivity].
    - split; [now apply insert_sorted_ascending|].
      intros y. rewrite insert_sorted_In, IHi. cbn [In]. intuition. }
  destruct (H (rev l)) as [Ha Hi]. split; [exact Ha|].
  intros y. rewrite Hi. symmetry. apply in_rev.
Qed.

Lemma le_refl (a : Decimal) : le a a = true.
Proof. unfold le, lt. now rewrite Z.ltb_irrefl. Qed.

Lemma ascending_last (l : list Decimal) (d : Decimal) :
  ascending l -> forall y, In y l -> le y (last l d) = true.
Proof.
  induction l as [|x l IH]; [contradiction|].
  intros [Hx Hl] y Hy. destruct l as [|z l].
  - destruct Hy as [<- | []]. apply le_refl.
  - change (last (x :: z :: l) d) with (last (z :: l) d).
    destruct Hy as [<- | Hy]; [|now apply IH].
    apply Hx. clear. revert z. induction l as [|w l IH]; intros z.
    + now left.
    + change (last (z :: w :: l) d) with (last (w :: l) d).
      right. apply IH.
Qed.

End DecOrder.

(* ================================================================== *)
(** * The prices of a table row *)
(* ================================================================== *)

Module TablePrices.
Import Str Re Dec Extractor DecOrder ExtractorProps.

Section Prices.
Context {U : UnicodeDB}.

(** X14. When the columns of a table row hold two prices or more, the
    item [_parse_table_columns] returns has the smallest of them as unit
    price and the largest as total. *)
Theorem table_row_prices (columns : list str) (it : item) :
  _parse_table_columns columns = Some it ->
  2 <= List.length (column_prices columns) ->
  exists u t,
    unit_price it = Some u /\ total_price it = Some t /\
    In u (column_prices columns) /\ In t (column_prices columns) /\
    forall p, In p (column_prices columns) ->
      le u p = true /\ le p t = true.
Proof.
  unfold _parse_table_columns. destruct columns as [|first rest]; [discriminate|].
  set (columns := first :: rest).
  set (it0 := if negb (nonempty (code (code_loop 0 (firstn 2 columns) columns
                                                  empty_item)))
              then set_description first
                     (code_loop 0 (firstn 2 columns) columns empty_item)
              else code_loop 0 (firstn 2 columns) columns empty_item).
  destruct (foldM quantity_step columns it0) as [it1|e]; [|discriminate].
  cbn [bind]. intros H Hlen.
  destruct (sorted_spec (column_prices columns)) as [Ha Hi].
  destruct (column_prices columns) as [|p1 [|p2 prices]] eqn:P;
    [simpl in Hlen; lia | simpl in Hlen; lia |].
  set (all := p1 :: p2 :: prices) in *.
  destruct (sorted all) as [|u s] eqn:S.
  { exfalso. apply (proj2 (Hi p1)). now left. }
  cbn [bind hd_error] in H.
  set (t := last (u :: s) (mkDec false 0 0)) in *.
  destruct (nonempty _ && _) in H; [|discriminate].
  injection H as <-. exists u, t.
  cbn [set_total_price set_unit_price unit_price total_price].
  assert (Ht : In t (u :: s)).
  { subst t. clear. revert u. induction s as [|x s IH]; intros u.
    - now left.
    - change (last (u :: x :: s) (mkDec false 0 0))
        with (last (x :: s) (mkDec false 0 0)).
      right. apply IH. }
  repeat split.
  - apply Hi. now left.
  - now apply Hi.
  - apply Hi in H as [<- | H]; [apply le_refl|].
    destruct Ha as [Hu _]. now apply Hu.
  - apply Hi in H. now apply ascending_last.
Qed.

End Prices.

(** The columns of the first scenario hold eleven price-like pieces; the
    smallest is 0 and the largest 1500.00. *)
Lemma table_row_prices_witness :
  exists u t,
    Some (dec 0 0) = Some u /\ Some (dec 150000 (-2)) = Some t /\
    In u (column_prices (U := Latin1) scenario_1_columns) /\
    In t (column_prices (U := Latin1) scenario_1_columns) /\
    forall p, In p (column_prices (U := Latin1) scenario_1_columns) ->
      le u p = true /\ le p t = true.
Proof.
  apply (table_row_prices (U := Latin1) scenario_1_columns
           (mkItem (lit "01.01.01") (lit "Demolición de concreto") (lit "m3")
                   (Some (dec 1000 (-2))) (Some (dec 0 0))
                   (Some (dec 150000 (-2))))).
  - vm_compute. reflexivity.
  - vm_compute. lia.
Defined.

End TablePrices.

(* ================================================================== *)
(** * The totals of a budget *)
(* ================================================================== *)

Module Totals.
Import Str Re Dec Extractor.

(** The dictionary [extract_totals] returns. *)
Record totals := mkTotals {
  subtotal : Decimal;
  tax : Decimal;
  total : Decimal;
  profit : Decimal
}.

(** [Decimal('0.00')] *)
Definition zero_00 : Decimal := mkDec false 0 (-2).

(** The four kinds of line, in the order the [if]/[elif] chain tests
    them, each with its keywords. *)
Inductive kind := Subtotal | Tax | Total | Profit.

Definition keywords (k : kind) : list str :=
  match k with
  | Subtotal => map lit ["SUBTOTAL"; "SUB-TOTAL"; "SUB TOTAL"]%string
  | Tax => map lit ["IVA"; "TAX"; "IMPUESTO"]%string
  | Total => map lit ["TOTAL"; "TOTAL GENERAL"]%string
  | Profit => map lit ["BENEFICIO"; "GANANCIA"; "PROFIT"]%string
  end.

Definition set_field (k : kind) (amount : Decimal) (t : totals) : totals :=
  match k with
  | Subtotal => mkTotals amount (tax t) (total t) (profit t)
  | Tax => mkTotals (subtotal t) amount (total t) (profit t)
  | Total => mkTotals (subtotal t) (tax t) amount (profit t)
  | Profit => mkTotals (subtotal t) (tax t) (total t) amount
  end.

Definition field (k : kind) (t : totals) : Decimal :=
  match k with
  | Subtotal => subtotal t
  | Tax => tax t
  | Total => total t
  | Profit => profit t
  end.

Definition kind_eqb (a b : kind) : bool :=
  match a, b with
  | Subtotal, Subtotal | Tax, Tax | Total, Total | Profit, Profit => true
  | _, _ => false
  end.

Section WithDB.
Context {U : UnicodeDB}.

(** [_extract_amount_from_line]: the last match of the first currency
    pattern that has matches and whose last match [Decimal] accepts. *)
Fixpoint _extract_amount_from_line_aux (patterns : list regex) (line : str)
  : option Decimal :=
  match patterns with
  | [] => None
  | pattern :: patterns' =>
    match re_findall NOFLAGS pattern line with
    | [] => _extract_amount_from_line_aux patterns' line
    | matches =>
      match of_str (clean_price (last matches [])) with
      | Some d => Some d
      | None => _extract_amount_from_line_aux patterns' line
      end
    end
  end.

Definition _extract_amount_from_line (line : str) : option Decimal :=
  _extract_amount_from_line_aux currency_patterns line.

(** [any(keyword in line for keyword in ...)] *)
Definition mentions (k : kind) (line : str) : bool :=
  existsb (fun keyword => contains keyword line) (keywords k).

(** The branch of the chain a line takes. *)
Definition kind_of (line : str) : option kind :=
  if mentions Subtotal line then Some Subtotal
  else if mentions Tax line then Some Tax
  else if mentions Total line then Some Total
  else if mentions Profit line then Some Profit
  else None.

Definition totals_step (t : totals) (line : str) : totals :=
  match kind_of line with
  | Some k =>
    match _extract_amount_from_line line with
    | Some amount => if Dec.nonzero amount then set_field k amount t else t
    | None => t
    end
  | None => t
  end.

Definition extract_totals (text : str) : totals :=
  let lines := split_on LF (str_upper text) in
  fold_left totals_step lines (mkTotals zero_00 zero_00 zero_00 zero_00).

(** The amount a line contributes to the field [k]. *)
Definition contribution (k : kind) (line : str) : list Decimal :=
  match kind_of line, _extract_amount_from_line line with
  | Some k', Some amount =>
    if kind_eqb k k' && Dec.nonzero amount then [amount] else []
  | _, _ => []
  end.

Lemma field_set_field (k k' : kind) (amount : Decimal) (t : totals) :
  field k (set_field k' amount t)
  = if kind_eqb k k' then amount else field k t.
Proof. destruct k, k'; reflexivity. Qed.

Lemma totals_step_field (k : kind) (t : totals) (line : str) :
  field k (totals_step t line)
  = last (contribution k line) (field k t).
Proof.
  unfold totals_step, contribution.
  destruct (kind_of line) as [k'|]; [|reflexivity].
  destruct (_extract_amount_from_line line) as [amount|]; [|reflexivity].
  destruct (Dec.nonzero amount); rewrite ?andb_false_r; [|reflexivity].
  rewrite field_set_field, andb_true_r.
  destruct (kind_eqb k k'); reflexivity.
Qed.

Lemma last_default {A : Type} (x : A) (l : list A) (d d' : A) :
  last (x :: l) d = last (x :: l) d'.
Proof.
  revert x; induction l as [|y l IH]; intros x; [reflexivity|].
  change (last (y :: l) d = last (y :: l) d'). apply IH.
Qed.

Lemma last_app_default {A : Type} (l1 l2 : list A) (d : A) :
  last (l1 ++ l2) d = last l2 (last l1 d).
Proof.
  induction l1 as [|x l1 IH]; [reflexivity|].
  destruct l2 as [|y l2]; [now rewrite app_nil_r|].
  destruct l1 as [|z l1].
  - cbn [app]. change (last (y :: l2) d = last (y :: l2) x).
    apply last_default.
  - change (last ((x :: z :: l1) ++ y :: l2) d)
      with (last ((z :: l1) ++ y :: l2) d).
    rewrite IH. apply last_default.
Qed.

Lemma fold_totals_field (k : kind) (lines : list str) (t : totals) :
  field k (fold_left totals_step lines t)
  = last (flat_map (contribution k) lines) (field k t).
Proof.
  revert t; induction lines as [|line lines IH]; intros t;
    cbn [fold_left flat_map]; [reflexivity|].
  rewrite IH, totals_step_field. symmetry. apply last_app_default.
Qed.

(** X15. Each of the four totals [extract_totals] returns is the amount
    of the last line of its kind whose amount is not zero, and 0.00 when
    there is no such line; a line belongs to the first kind of subtotal,
    tax, total and profit whose keywords it holds. *)
Theorem extract_totals_takes_the_last (text : str) (k : kind) :
  field k (extract_totals text)
  = last (flat_map (contribution k) (split_on LF (str_upper text))) zero_00.
Proof.
  unfold extract_totals. rewrite fold_totals_field. now destruct k.
Qed.

End WithDB.

(** A subtotal line counts as a subtotal and not as a total, and the
    later of two total lines wins. *)
Example totals_of_three_lines :
  extract_totals (U := Latin1)
    (lit "Subtotal 100.00" ++ [LF] ++ lit "Total 110.00" ++ [LF]
     ++ lit "total general 116.00")
  = mkTotals (mkDec false 10000 (-2)) zero_00 (mkDec false 11600 (-2))
             zero_00.
Proof. vm_compute. reflexivity. Qed.

End Totals.

(* ================================================================== *)
(** * Invariants of the OCR post-processing *)
(* ================================================================== *)

Module OcrInvariants.
Import Str Ocr.

(** ** Sorting *)

Section Sorting.
Variable A : Type.
Variable lt : A -> A -> bool.

(** [a <= b]: not [b < a]. *)
Let le (a b : A) : bool := negb (lt b a).

Hypothesis lt_le : forall a b, lt a b = true -> le a b = true.
Hypothesis le_trans :
  forall a b c, le a b = true -> le b c = true -> le a c = true.

(** Every element is at most the ones after it. *)
Fixpoint ascending (l : list A) : Prop :=
  match l with
  | [] => True
  | x :: l' => (forall y, In y l' -> negb (lt y x) = true) /\ ascending l'
  end.

Lemma insert_by_In (x y : A) (l : list A) :
  In y (insert_by lt x l) <-> y = x \/ In y l.
Proof.
  induction l as [|z l IH]; cbn [insert_by In].
  - intuition.
  - destruct (lt x z); cbn [In]; [intuition|]. rewrite IH. intuition.
Qed.

Lemma insert_by_length (x : A) (l : list A) :
  List.length (insert_by lt x l) = S (List.length l).
Proof.
  induction l as [|z l IH]; cbn [insert_by]; [reflexivity|].
  destruct (lt x z); cbn [List.length]; [reflexivity | now rewrite IH].
Qed.

Lemma insert_by_ascending (x : A) (l : list A) :
  ascending l -> ascending (insert_by lt x l).
Proof.
  induction l as [|z l IH]; cbn [insert_by ascending].
  - intros _. split; [contradiction | exact Logic.I].
  - intros [Hz Hl]. destruct (lt x z) eqn:E; cbn [ascending].
    + split; [|split; assumption].
      intros y [<- | Hy]; [now apply lt_le|].
      apply (le_trans x z y); [now apply lt_le | now apply Hz].
    + split; [|now apply IH].
      intros y Hy. apply insert_by_In in Hy as [-> | Hy];
        [now rewrite E | now apply Hz].
Qed.

Lemma insert_by_perm (x : A) (l : list A) :
  Permutation (insert_by lt x l) (x :: l).
Proof.
  induction l as [|z l IH]; cbn [insert_by]; [reflexivity|].
  destruct (lt x z); [reflexivity|].
  rewrite IH. apply perm_swap.
Qed.

Lemma sort_by_perm (l : list A) : Permutation (sort_by lt l) l.
Proof.
  unfold sort_by.
  assert (H : forall acc, Permutation
                (fold_left (fun sorted x => insert_by lt x sorted) l acc)
                (acc ++ l)).
  { induction l as [|x l IH]; intros acc; cbn [fold_left].
    - now rewrite app_nil_r.
    - rewrite IH, insert_by_perm. apply Permutation_middle. }
  apply (H []).
Qed.

Lemma sort_by_spec (l : list A) :
  ascending (sort_by lt l)
  /\ (forall y, In y (sort_by lt l) <-> In y l)
  /\ List.length (sort_by lt l) = List.length l.
Proof.
  unfold sort_by. rewrite <- fold_left_rev_right.
  assert (H : forall r,
             let s := fold_right (fun x acc => insert_by lt x acc) [] r in
             ascending s /\ (forall y, In y s <-> In y r)
             /\ List.length s = List.length r).
  { induction r as [|x r (IHa & IHi & IHl)]; cbn [fold_right].
    - repeat split; auto.
    - cbv zeta. split; [now apply insert_by_ascending|]. split.
      + intros y. rewrite insert_by_In, IHi. cbn [In]. intuition.
      + rewrite insert_by_length, IHl. reflexivity. }
  destruct (H (rev l)) as (Ha & Hi & Hl). split; [exact Ha|]. split.
  - intros y. rewrite Hi. symmetry. apply in_rev.
  - etransitivity; [exact Hl | apply length_rev].
Qed.

End Sorting.

Arguments ascending {A} lt l.

(** The order of [words.sort(key=lambda w: (w['y'], w['x']))]. *)
Definition by_position (a b : word_info) : bool :=
  (w_y a <? w_y b)%Z || ((w_y a =? w_y b)%Z && (w_x a <? w_x b)%Z).

(** The order of [sorted(lines[line_num], key=lambda w: w['x'])]. *)
Definition by_x (a b : word_info) : bool := (w_x a <? w_x b)%Z.

(** The order of [sorted(lines.keys())]. *)
Definition by_key (a b : Z * list word_info) : bool := (fst a <? fst b)%Z.

Ltac order_facts :=
  unfold by_position, by_x, by_key; intros;
  repeat match goal with
  | H : _ = true |- _ =>
    first [ apply negb_true_iff in H | apply orb_true_iff in H
          | apply andb_true_iff in H | apply Z.ltb_lt in H
          | apply Z.eqb_eq in H ]
  | H : _ = false |- _ =>
    first [ apply orb_false_iff in H | apply andb_false_iff in H
          | apply Z.ltb_ge in H | apply Z.eqb_neq in H ]
  | H : _ /\ _ |- _ => destruct H
  | H : _ \/ _ |- _ => destruct H
  end;
  apply negb_true_iff;
  repeat match goal with
  | |- (_ || _) = false => apply orb_false_iff; split
  | |- (_ <? _)%Z = false => apply Z.ltb_ge
  end;
  try lia;
  try (apply andb_false_iff;
       first [ left; apply Z.eqb_neq; lia | right; apply Z.ltb_ge; lia ]).

Lemma by_position_sorted (l : list word_info) :
  ascending by_position (sort_by by_position l)
  /\ (forall w, In w (sort_by by_position l) <-> In w l)
  /\ List.length (sort_by by_position l) = List.length l.
Proof. apply sort_by_spec; order_facts. Qed.

Lemma by_x_sorted (l : list word_info) :
  ascending by_x (sort_by by_x l)
  /\ (forall w, In w (sort_by by_x l) <-> In w l)
  /\ List.length (sort_by by_x l) = List.length l.
Proof. apply sort_by_spec; order_facts. Qed.

Lemma by_key_sorted (l : list (Z * list word_info)) :
  ascending by_key (sort_by by_key l)
  /\ (forall w, In w (sort_by by_key l) <-> In w l)
  /\ List.length (sort_by by_key l) = List.length l.
Proof. apply sort_by_spec; order_facts. Qed.

(** ** The loop over the boxes *)

Section Boxes.
Context {U : UnicodeDB}.

(** A word the loop keeps. *)
Definition recognised (w : word_info) : Prop :=
  (0 < w_confidence w)%Z /\ w_text w <> [] /\ strip (w_text w) = w_text w.

Definition line_sizes (ls : list (Z * list word_info)) : nat :=
  list_sum (map (fun entry => List.length (snd entry)) ls).

(** What the loop keeps true of its state. *)
Record consistent (a : acc) : Prop := {
  words_recognised : forall w, In w (acc_words a) -> recognised w;
  keys_distinct : NoDup (map fst (acc_lines a));
  lines_hold_words :
    forall k ws, In (k, ws) (acc_lines a) ->
      ws <> [] /\ forall w, In w ws -> w_line_num w = k /\ In w (acc_words a);
  lines_cover_words : line_sizes (acc_lines a) = List.length (acc_words a);
  words_counted : valid_words a = List.length (acc_words a)
}.

Lemma add_to_line_keys (k : Z) (w : word_info) ls :
  map fst (add_to_line k w ls)
  = if existsb (Z.eqb k) (map fst ls) then map fst ls
    else map fst ls ++ [k].
Proof.
  induction ls as [|[k' ws] ls IH]; cbn [add_to_line map fst existsb];
    [reflexivity|].
  rewrite (Z.eqb_sym k k'). destruct (k' =? k)%Z; cbn [orb map fst];
    [reflexivity|].
  rewrite IH. now destruct (existsb (Z.eqb k) (map fst ls)).
Qed.

Lemma add_to_line_distinct (k : Z) (w : word_info) ls :
  NoDup (map fst ls) -> NoDup (map fst (add_to_line k w ls)).
Proof.
  intros H. rewrite add_to_line_keys.
  destruct (existsb (Z.eqb k) (map fst ls)) eqn:E; [exact H|].
  apply NoDup_app; [exact H | repeat constructor; intros [] |].
  intros x Hx [<- | []].
  assert (existsb (Z.eqb k) (map fst ls) = true); [|congruence].
  apply existsb_exists. exists k. split; [exact Hx | apply Z.eqb_refl].
Qed.

Lemma add_to_line_In (k : Z) (w : word_info) ls k' ws' :
  In (k', ws') (add_to_line k w ls) ->
  In (k', ws') ls \/
  (k' = k /\ (ws' = [w] \/ exists ws, In (k, ws) ls /\ ws' = ws ++ [w])).
Proof.
  induction ls as [|[k0 ws0] ls IH]; cbn [add_to_line In].
  - intros [E | []]. injection E as <- <-. right. auto.
  - destruct (k0 =? k)%Z eqn:E; cbn [In].
    + apply Z.eqb_eq in E. subst k0. intros [H | H]; [|now left; right].
      injection H as <- <-. right. split; [reflexivity|]. right.
      exists ws0. auto.
    + intros [H | H]; [now left; left|].
      destruct (IH H) as [H1 | (-> & [-> | (ws & Hw & ->)])];
        [now left; right | right; auto |].
      right. split; [reflexivity|]. right. exists ws. auto.
Qed.

Lemma add_to_line_sizes (k : Z) (w : word_info) ls :
  line_sizes (add_to_line k w ls) = S (line_sizes ls).
Proof.
  unfold line_sizes.
  induction ls as [|[k0 ws0] ls IH]; [reflexivity|].
  cbn [add_to_line]. destruct (k0 =? k)%Z.
  - change (List.length (ws0 ++ [w])
            + list_sum (map (fun e => List.length (snd e)) ls)
            = S (List.length ws0
                 + list_sum (map (fun e => List.length (snd e)) ls))).
    rewrite length_app. simpl. lia.
  - change (List.length ws0
            + list_sum (map (fun e => List.length (snd e))
                            (add_to_line k w ls))
            = S (List.length ws0
                 + list_sum (map (fun e => List.length (snd e)) ls))).
    rewrite IH. lia.
Qed.

Lemma box_step_consistent (d : ocr_data) (a a' : acc) (i : nat) :
  consistent a -> box_step d a i = Ok a' -> consistent a'.
Proof.
  intros [Hw Hk Hl Hc Hv]. unfold box_step, index.
  destruct (nth_error (d_conf d) i) as [c|]; [|discriminate]. cbn [bind].
  destruct (0 <? c)%Z eqn:C; [|intros H; injection H as <-; now split].
  destruct (nth_error (d_text d) i) as [t|]; [|discriminate]. cbn [bind].
  destruct (nth_error (d_left d) i) as [l|]; [|discriminate]. cbn [bind].
  destruct (nth_error (d_top d) i) as [tp|]; [|discriminate]. cbn [bind].
  destruct (nth_error (d_width d) i) as [w|]; [|discriminate]. cbn [bind].
  destruct (nth_error (d_height d) i) as [h|]; [|discriminate]. cbn [bind].
  destruct (nth_error (d_line_num d) i) as [ln|]; [|discriminate].
  cbn [bind w_text].
  destruct (nonempty (strip t)) eqn:T;
    [|intros H; injection H as <-; now split].
  intros H. injection H as <-.
  assert (Hr : recognised (mkWord (strip t) c l tp w h ln)).
  { unfold recognised. cbn [w_confidence w_text]. repeat split.
    - now apply Z.ltb_lt.
    - intros E. now rewrite E in T.
    - apply StrFacts.strip_idem. }
  set (word := mkWord (strip t) c l tp w h ln) in *.
  split; cbn [acc_words acc_lines total_confidence valid_words].
  - intros x Hx. apply in_app_iff in Hx as [Hx | [<- | []]]; auto.
  - now apply add_to_line_distinct.
  - intros k ws Hin.
    apply add_to_line_In in Hin
      as [Hin | (-> & [-> | (ws0 & Hin & ->)])].
    + destruct (Hl k ws Hin) as [Hne Hws]. split; [exact Hne|].
      intros x Hx. destruct (Hws x Hx). split; [assumption|].
      apply in_app_iff. now left.
    + split; [discriminate|]. intros x [<- | []]. split; [reflexivity|].
      apply in_app_iff. right. now left.
    + destruct (Hl ln ws0 Hin) as [Hne Hws]. split.
      * destruct ws0; discriminate.
      * intros x Hx. apply in_app_iff in Hx as [Hx | [<- | []]].
        -- destruct (Hws x Hx). split; [assumption|].
           apply in_app_iff. now left.
        -- split; [reflexivity|]. apply in_app_iff. right. now left.
  - rewrite add_to_line_sizes, length_app, Hc. simpl. lia.
  - rewrite length_app, Hv. simpl. lia.
Qed.

Lemma box_loop_consistent (d : ocr_data) (boxes : list nat) (a a' : acc) :
  consistent a -> box_loop d boxes a = Ok a' -> consistent a'.
Proof.
  revert a; induction boxes as [|i boxes IH]; intros a Ha; cbn [box_loop].
  - intros H. now injection H as <-.
  - destruct (box_step d a i) as [a1|e] eqn:S1; [|discriminate]. cbn [bind].
    apply IH. eapply box_step_consistent; eauto.
Qed.

Lemma start_consistent : consistent (mkAcc [] [] 0%Z 0).
Proof.
  split; cbn [acc_words acc_lines valid_words];
    try contradiction; try reflexivity. constructor.
Qed.


(** ** Lines *)

(** Each number is below the ones after it. *)
Fixpoint increasing (l : list Z) : Prop :=
  match l with
  | [] => True
  | x :: l' => (forall y, In y l' -> (x < y)%Z) /\ increasing l'
  end.

Lemma sorted_keys_increasing (l : list (Z * list word_info)) :
  ascending by_key l -> NoDup (map fst l) -> increasing (map fst l).
Proof.
  induction l as [|x l IH]; cbn [ascending map increasing]; [trivial|].
  intros [Hx Hl] Hn. inversion Hn as [|? ? Hnot Hn']; subst.
  split; [|now apply IH].
  intros y Hy. apply in_map_iff in Hy as (e & <- & He).
  specialize (Hx e He). unfold by_key in Hx.
  apply negb_true_iff, Z.ltb_ge in Hx.
  assert (fst x <> fst e); [|lia].
  intros E. apply Hnot. rewrite E. now apply in_map.
Qed.

Lemma line_sizes_perm (l l' : list (Z * list word_info)) :
  Permutation l l' -> line_sizes l = line_sizes l'.
Proof.
  unfold line_sizes. induction 1; cbn [map list_sum]; simpl; lia.
Qed.

(** What [line_of] makes of an entry of the dictionary of lines. *)
Definition well_formed (ws : list word_info) (ln : line_info) : Prop :=
  line_words ln <> [] /\
  ascending by_x (line_words ln) /\
  (forall w, In w (line_words ln) ->
     w_line_num w = line_number ln /\ In w ws) /\
  line_text ln = join [SP] (map w_text (line_words ln)) /\
  y_position ln = match line_words ln with w :: _ => w_y w | [] => 0%Z end.

(** X17. The lines [_process_ocr_data] returns come by increasing line
    number, each number once.  A line holds at least one word; its words
    are words of the result with that line number, sorted by their left
    coordinate; its text is their texts joined by blanks and its position
    the top coordinate of its first word.  The lines hold as many words as
    the result. *)
Theorem lines_partition_the_words (d : ocr_data) (r : processed) :
  _process_ocr_data d = Ok r ->
  increasing (map line_number (lines r)) /\
  (forall ln, In ln (lines r) -> well_formed (words r) ln) /\
  list_sum (map (fun ln => List.length (line_words ln)) (lines r))
  = List.length (words r).
Proof.
  unfold _process_ocr_data.
  destruct (box_loop d (seq 0 (List.length (d_level d))) (mkAcc [] [] 0%Z 0))
    as [a|e] eqn:L; [|discriminate].
  cbn [bind]. intros H. injection H as <-. cbn [words lines].
  pose proof (box_loop_consistent _ _ _ _ start_consistent L)
    as [_ Hk Hl Hc _].
  fold by_position by_key.
  destruct (by_key_sorted (acc_lines a)) as (Ha & Hi & _).
  pose proof (sort_by_perm _ by_key (acc_lines a)) as Hp.
  destruct (by_position_sorted (acc_words a)) as (_ & Hwi & Hwl).
  split; [|split].
  - rewrite map_map. cbn [line_of line_number].
    apply sorted_keys_increasing; [exact Ha|].
    eapply Permutation_NoDup; [|exact Hk].
    apply Permutation_map. now symmetry.
  - intros ln Hin. apply in_map_iff in Hin as ([k ws] & <- & Hin).
    apply Hi in Hin. destruct (Hl k ws Hin) as [Hne Hws].
    unfold line_of, well_formed.
    cbn [line_words line_number line_text y_position fst snd].
    fold by_x. destruct (by_x_sorted ws) as (Hxa & Hxi & Hxl).
    repeat split; try reflexivity; try assumption.
    + intros E. rewrite E in Hxl. destruct ws; [now apply Hne | discriminate].
    + now apply Hws, Hxi.
    + apply Hwi. now apply Hws, Hxi.
  - rewrite Hwl, <- Hc, <- (line_sizes_perm _ _ Hp). unfold line_sizes.
    rewrite map_map. f_equal. apply map_ext. intros [k ws].
    cbn [line_of line_words snd]. fold by_x.
    now destruct (by_x_sorted ws) as (_ & _ & ->).
Qed.

(** ** Bounds *)

Definition long_enough {A : Type} (d : ocr_data) (l : list A) : Prop :=
  List.length (d_level d) <= List.length l.

Lemma index_ok {A : Type} (l : list A) (i : nat) :
  i < List.length l -> exists a, index l i = Ok a.
Proof.
  intros H. unfold index. destruct (nth_error l i) as [a|] eqn:E; [eauto|].
  apply nth_error_None in E. lia.
Qed.

Lemma box_step_returns (d : ocr_data) (a : acc) (i : nat) :
  long_enough d (d_conf d) -> long_enough d (d_text d) ->
  long_enough d (d_left d) -> long_enough d (d_top d) ->
  long_enough d (d_width d) -> long_enough d (d_height d) ->
  long_enough d (d_line_num d) ->
  i < List.length (d_level d) -> exists a', box_step d a i = Ok a'.
Proof.
  unfold long_enough. intros H1 H2 H3 H4 H5 H6 H7 Hi. unfold box_step.
  destruct (index_ok (d_conf d) i) as [c ->]; [lia|]. cbn [bind].
  destruct (0 <? c)%Z; [|eauto].
  destruct (index_ok (d_text d) i) as [t ->]; [lia|]. cbn [bind].
  destruct (index_ok (d_left d) i) as [l ->]; [lia|]. cbn [bind].
  destruct (index_ok (d_top d) i) as [tp ->]; [lia|]. cbn [bind].
  destruct (index_ok (d_width d) i) as [w ->]; [lia|]. cbn [bind].
  destruct (index_ok (d_height d) i) as [h ->]; [lia|]. cbn [bind].
  destruct (index_ok (d_line_num d) i) as [ln ->]; [lia|]. cbn [bind].
  destruct (nonempty _); eauto.
Qed.

Lemma box_loop_returns (d : ocr_data) (boxes : list nat) :
  (forall a i, In i boxes -> exists a', box_step d a i = Ok a') ->
  forall a, exists a', box_loop d boxes a = Ok a'.
Proof.
  induction boxes as [|i boxes IH]; intros H a; cbn [box_loop]; [eauto|].
  destruct (H a i) as [a1 ->]; [now left|]. cbn [bind].
  apply IH. intros a2 j Hj. apply H. now right.
Qed.

Lemma box_step_raises (d : ocr_data) (a : acc) (i : nat) (e : exn) :
  box_step d a i = Raise e -> e = IndexError.
Proof.
  unfold box_step, index.
  repeat first
    [ match goal with
      | |- context [nth_error ?l i] => destruct (nth_error l i)
      end
    | progress cbn [bind]
    | match goal with |- context [if ?c then _ else _] => destruct c end ];
    congruence.
Qed.

Lemma box_loop_raises (d : ocr_data) (boxes : list nat) (a : acc) (e : exn) :
  box_loop d boxes a = Raise e -> e = IndexError.
Proof.
  revert a; induction boxes as [|i boxes IH]; intros a; cbn [box_loop];
    [discriminate|].
  destruct (box_step d a i) as [a1|e1] eqn:S1; cbn [bind].
  - apply IH.
  - intros H. injection H as <-. eapply box_step_raises, S1.
Qed.

Lemma box_loop_missing (d : ocr_data) (boxes : list nat) (i : nat) :
  In i boxes -> List.length (d_conf d) <= i ->
  forall a, exists e, box_loop d boxes a = Raise e.
Proof.
  intros Hin Hi. induction boxes as [|j boxes IH]; [contradiction|].
  intros a. cbn [box_loop].
  destruct (box_step d a j) as [a1|e1] eqn:S1; cbn [bind]; [|eauto].
  destruct Hin as [-> | Hin]; [|now apply IH].
  exfalso. unfold box_step, index in S1.
  replace (nth_error (d_conf d) i) with (@None Z) in S1
    by (symmetry; now apply nth_error_None).
  discriminate.
Qed.

(** X18. [_process_ocr_data] reads as many boxes as the list ['level']
    has entries.  When each of the other seven lists has at least as many
    it returns; when the list ['conf'] has fewer it raises [IndexError]. *)
Theorem process_ocr_data_bounds (d : ocr_data) :
  (long_enough d (d_conf d) -> long_enough d (d_text d) ->
   long_enough d (d_left d) -> long_enough d (d_top d) ->
   long_enough d (d_width d) -> long_enough d (d_height d) ->
   long_enough d (d_line_num d) ->
   exists r, _process_ocr_data d = Ok r) /\
  (List.length (d_conf d) < List.length (d_level d) ->
   _process_ocr_data d = Raise IndexError).
Proof.
  unfold _process_ocr_data. split.
  - intros H1 H2 H3 H4 H5 H6 H7.
    destruct (box_loop_returns d (seq 0 (List.length (d_level d))))
      with (a := mkAcc [] [] 0%Z 0) as [a ->]; [|cbn [bind]; eauto].
    intros a i Hi. apply in_seq in Hi. apply box_step_returns; auto. lia.
  - intros H.
    destruct (box_loop_missing d (seq 0 (List.length (d_level d)))
                (List.length (d_conf d)))
      with (a := mkAcc [] [] 0%Z 0) as [e He];
      [apply in_seq; lia | lia |].
    rewrite He. cbn [bind]. f_equal. eapply box_loop_raises, He.
Qed.

End Boxes.

(** A page of five boxes: the page itself, the words "b" and "a" of line
    1, out of order, and on line 2 the word "c" and a blank. *)
Definition page_boxes : ocr_data :=
  mkOcr [1; 5; 5; 5; 5]%Z [-1; 80; 90; 70; 60]%Z
        [[]; lit "b "; lit "a"; lit "c"; lit "  "]
        [0; 30; 10; 5; 50]%Z [0; 0; 0; 20; 20]%Z
        [100; 8; 8; 8; 8]%Z [40; 12; 12; 12; 12]%Z [0; 1; 1; 2; 2]%Z.

Definition word_a : word_info := mkWord (lit "a") 90 10 0 8 12 1.
Definition word_b : word_info := mkWord (lit "b") 80 30 0 8 12 1.
Definition word_c : word_info := mkWord (lit "c") 70 5 20 8 12 2.

Definition page_processed : processed :=
  mkProcessed [word_a; word_b; word_c]
              [ mkLine 1 (lit "a b") [word_a; word_b] 0;
                mkLine 2 (lit "c") [word_c] 20 ]
              (Qmake 240 3).

Lemma page_is_processed :
  _process_ocr_data (U := Latin1) page_boxes = Ok page_processed.
Proof. vm_compute. reflexivity. Qed.


Lemma lines_witness :
  increasing (map line_number (lines page_processed)) /\
  (forall ln, In ln (lines page_processed) ->
     well_formed (words page_processed) ln) /\
  list_sum (map (fun ln => List.length (line_words ln))
                (lines page_processed))
  = List.length (words page_processed).
Proof.
  apply (lines_partition_the_words (U := Latin1) page_boxes).
  vm_compute. reflexivity.
Defined.

(** ** Tables in the recognised words *)

(** A row of [_detect_tables_in_ocr]. *)
Record table_row := mkRow {
  row_y_position : Z;
  row_words : list word_info;
  row_text : str
}.

(** [round(y / 10)] for an integer [y]: the quotient is a float, and
    [round] takes a float halfway between two integers to the even one.
    For a coordinate below 2^53 in absolute value the float quotient is
    halfway exactly when [y] ends in 5, and is otherwise on the same side
    of the halfway point as the exact quotient. *)
Definition round_tenth (y : Z) : Z :=
  let q := (y / 10)%Z in
  let r := (y mod 10)%Z in
  if (r <? 5)%Z then q
  else if (5 <? r)%Z then (q + 1)%Z
  else if Z.even q then q else (q + 1)%Z.

(** [round(word['y'] / 10) * 10] *)
Definition y_key (w : word_info) : Z := (round_tenth (w_y w) * 10)%Z.

Definition group_rows (words : list word_info) : list (Z * list word_info) :=
  fold_left (fun rows word => add_to_line (y_key word) word rows) words [].

Definition row_of (entry : Z * list word_info) : table_row :=
  let row_words := sort_by by_x (snd entry) in
  mkRow (fst entry) row_words (join [SP] (map w_text row_words)).

Definition by_row_position (a b : table_row) : bool :=
  (row_y_position a <? row_y_position b)%Z.

Definition _detect_tables_in_ocr (words : list word_info) : list table_row :=
  if List.length words <? 10 then []
  else
    let rows := group_rows words in
    let table_rows :=
      map row_of (filter (fun entry => 3 <=? List.length (snd entry)) rows) in
    let table_rows := sort_by by_row_position table_rows in
    if 3 <=? List.length table_rows then table_rows else [].

Lemma y_key_near (w : word_info) :
  (Z.abs (w_y w - y_key w) <= 5)%Z /\ (y_key w mod 10 = 0)%Z.
Proof.
  unfold y_key, round_tenth.
  destruct (w_y w mod 10 <? 5)%Z eqn:E1;
    [|destruct (5 <? w_y w mod 10)%Z eqn:E2;
      [|destruct (Z.even (w_y w / 10))]];
    rewrite ?Z.ltb_lt, ?Z.ltb_ge in *;
    (split; [|apply Z.mod_mul; lia]);
    Z.div_mod_to_equations; lia.
Qed.

(** What the grouping keeps true of the rows. *)
Record grouped (words : list word_info) (rows : list (Z * list word_info))
  : Prop := {
  row_keys_distinct : NoDup (map fst rows);
  rows_hold_words :
    forall k ws, In (k, ws) rows ->
      forall w, In w ws -> y_key w = k /\ In w words
}.

Lemma group_rows_grouped (words : list word_info) :
  grouped words (group_rows words).
Proof.
  unfold group_rows.
  assert (H : forall rows seen,
             grouped seen rows ->
             grouped (seen ++ words)
                     (fold_left (fun rows word =>
                                   add_to_line (y_key word) word rows)
                                words rows)).
  { induction words as [|x words IH]; intros rows seen G; cbn [fold_left].
    - now rewrite app_nil_r.
    - replace (seen ++ x :: words) with ((seen ++ [x]) ++ words)
        by now rewrite <- app_assoc.
      apply IH. destruct G as [Gk Gw]. split.
      + now apply add_to_line_distinct.
      + intros k ws Hin w Hw.
        apply add_to_line_In in Hin
          as [Hin | (-> & [-> | (ws0 & Hin & ->)])].
        * destruct (Gw k ws Hin w Hw). split; [assumption|].
          apply in_app_iff. now left.
        * destruct Hw as [<- | []]. split; [reflexivity|].
          apply in_app_iff. right. now left.
        * apply in_app_iff in Hw as [Hw | [<- | []]].
          -- destruct (Gw _ ws0 Hin w Hw). split; [assumption|].
             apply in_app_iff. now left.
          -- split; [reflexivity|]. apply in_app_iff. right. now left. }
  apply (H [] []). split; [constructor | contradiction].
Qed.

Lemma by_row_position_sorted (l : list table_row) :
  ascending by_row_position (sort_by by_row_position l)
  /\ (forall w, In w (sort_by by_row_position l) <-> In w l)
  /\ List.length (sort_by by_row_position l) = List.length l.
Proof.
  apply sort_by_spec; unfold by_row_position; intros;
    repeat match goal with
    | H : _ = true |- _ =>
      first [apply negb_true_iff in H | apply Z.ltb_lt in H]
    | H : _ = false |- _ => apply Z.ltb_ge in H
    end; apply negb_true_iff, Z.ltb_ge; lia.
Qed.

Lemma sorted_rows_increasing (l : list table_row) :
  ascending by_row_position l -> NoDup (map row_y_position l) ->
  increasing (map row_y_position l).
Proof.
  induction l as [|x l IH]; cbn [ascending map increasing]; [trivial|].
  intros [Hx Hl] Hn. inversion Hn as [|? ? Hnot Hn']; subst.
  split; [|now apply IH].
  intros y Hy. apply in_map_iff in Hy as (e & <- & He).
  specialize (Hx e He). unfold by_row_position in Hx.
  apply negb_true_iff, Z.ltb_ge in Hx.
  assert (row_y_position x <> row_y_position e); [|lia].
  intros E. apply Hnot. rewrite E. now apply in_map.
Qed.

(** Leaving rows out keeps the positions of the others distinct. *)
Lemma kept_rows_distinct (position : Z * list word_info -> Z)
  (keep : Z * list word_info -> bool) (rows : list (Z * list word_info)) :
  NoDup (map position rows) -> NoDup (map position (filter keep rows)).
Proof.
  induction rows as [|entry rows IH]; cbn [map filter]; [trivial|].
  intros H. apply NoDup_cons_iff in H as [Hnot Hrest].
  destruct (keep entry); cbn [map]; [|now apply IH].
  apply NoDup_cons_iff. split; [|now apply IH].
  intros Hin. apply Hnot.
  apply in_map_iff in Hin as (other & <- & Hother).
  apply filter_In in Hother as [Hother _]. now apply in_map.
Qed.

(** X19. [_detect_tables_in_ocr] returns no row for fewer than ten
    words, and otherwise no row or at least three.  The rows come by
    increasing position, a multiple of 10; a row holds at least three of
    the words given, sorted by their left coordinate, each with a top
    coordinate within 5 of the position of the row. *)
Theorem detected_table_rows (words : list word_info) :
  (List.length words < 10 -> _detect_tables_in_ocr words = []) /\
  (_detect_tables_in_ocr words = [] \/
   3 <= List.length (_detect_tables_in_ocr words)) /\
  increasing (map row_y_position (_detect_tables_in_ocr words)) /\
  forall row, In row (_detect_tables_in_ocr words) ->
    (row_y_position row mod 10 = 0)%Z /\
    3 <= List.length (row_words row) /\
    ascending by_x (row_words row) /\
    row_text row = join [SP] (map w_text (row_words row)) /\
    forall w, In w (row_words row) ->
      In w words /\ (Z.abs (w_y w - row_y_position row) <= 5)%Z.
Proof.
  unfold _detect_tables_in_ocr. split.
  { intros H. now replace (List.length words <? 10) with true
      by (symmetry; now apply Nat.ltb_lt). }
  destruct (List.length words <? 10);
    [split; [now left|]; split; [exact Logic.I | contradiction]|].
  set (kept := filter (fun entry => 3 <=? List.length (snd entry))
                      (group_rows words)).
  destruct (by_row_position_sorted (map row_of kept)) as (Ha & Hi & Hl).
  pose proof (sort_by_perm _ by_row_position (map row_of kept)) as Hp.
  destruct (group_rows_grouped words) as [Gk Gw].
  destruct (3 <=? List.length (sort_by by_row_position (map row_of kept)))
    eqn:E; [|split; [now left|]; split; [exact Logic.I | contradiction]].
  apply Nat.leb_le in E. split; [now right|]. split.
  - apply sorted_rows_increasing; [exact Ha|].
    eapply Permutation_NoDup;
      [apply Permutation_map; symmetry; exact Hp|].
    rewrite map_map. cbn [row_of row_y_position].
    now apply kept_rows_distinct.
  - intros row Hin. apply Hi in Hin.
    apply in_map_iff in Hin as ([k ws] & <- & Hin).
    apply filter_In in Hin as [Hin Hlen]. cbn [snd] in Hlen.
    apply Nat.leb_le in Hlen.
    cbn [row_of row_y_position row_words row_text fst snd].
    destruct (by_x_sorted ws) as (Hxa & Hxi & Hxl).
    assert (Hk : forall w, In w ws -> y_key w = k /\ In w words)
      by (intros w; apply (Gw k ws Hin)).
    repeat split; try assumption.
    + destruct ws as [|w ws]; [simpl in Hlen; lia|].
      destruct (Hk w (or_introl eq_refl)) as [<- _]. apply y_key_near.
    + now rewrite Hxl.
    + now apply Hk, Hxi.
    + apply Hxi in H. destruct (Hk w H) as [<- _]. apply y_key_near.
Qed.

End OcrInvariants.

(* ================================================================== *)
(** * Layout analysis and format detection *)
(* ================================================================== *)

Module Detection.
Import Str Re Ocr OcrInvariants Detector.

(** ** The layout of the recognised words *)

(** The words with their [line_key], in insertion order of the keys
    (the dictionary [lines] of [_analyze_alignment]). *)
Definition group_by (key : word_info -> Z) (words : list word_info)
  : list (Z * list word_info) :=
  fold_left (fun lines word => add_to_line (key word) word lines) words [].

(** [round(y / 15)] for an integer [y]; the quotient of an integer by 15
    is never halfway between two integers. *)
Definition round_fifteenth (y : Z) : Z :=
  if (2 * (y mod 15) <? 15)%Z then (y / 15)%Z else (y / 15 + 1)%Z.

(** [max(l)] and [min(l)] of a list that is not empty. *)
Definition max_of (x : Z) (l : list Z) : Z := fold_left Z.max l x.
Definition min_of (x : Z) (l : list Z) : Z := fold_left Z.min l x.

(** The differences between neighbours. *)
Fixpoint gaps_of (l : list Z) : list Z :=
  match l with
  | x :: (y :: _) as l' => (y - x)%Z :: gaps_of l'
  | _ => []
  end.

Definition _detect_columns (x_coords y_coords : list Z) : bool :=
  match x_coords with
  | [] => false
  | _ =>
    let x_coords_sorted := sort_by Z.ltb x_coords in
    let gaps := filter (fun gap => (50 <? gap)%Z) (gaps_of x_coords_sorted) in
    3 <? List.length gaps
  end.

(** [len(set(l))] *)
Definition distinct (l : list Z) : nat := List.length (nodup Z.eq_dec l).

(** [n < len * 0.3]; the float product compares with a count as the
    exact product does. *)
Definition below_share (n len : nat) : bool :=
  (10 * Z.of_nat n <? 3 * Z.of_nat len)%Z.

Definition _detect_grid_structure (words : list word_info) : bool :=
  if List.length words <? 10 then false
  else
    let y_positions := distinct (map (fun w => round_tenth (w_y w)) words) in
    let x_positions := distinct (map (fun w => round_tenth (w_x w)) words) in
    below_share y_positions (List.length words)
    && below_share x_positions (List.length words).

(** The mean of a list of rationals, 0.0 for the empty list. *)
Definition Qmean (l : list Q) : Q :=
  match l with
  | [] => Qmake 0 1
  | _ => Qdiv (fold_right Qplus (Qmake 0 1) l)
              (Qmake (Z.of_nat (List.length l)) 1)
  end.

Fixpoint spacings_of (words_sorted : list word_info) : list Q :=
  match words_sorted with
  | prev :: (cur :: _) as rest =>
    if (Z.abs (w_y cur - w_y prev) <? 20)%Z
    then Qmake (w_x cur - (w_x prev + w_width prev)) 1 :: spacings_of rest
    else spacings_of rest
  | _ => []
  end.

(** The float results of the layout analysis are computed in the
    rationals. *)
Definition _calculate_average_spacing (words : list word_info) : Q :=
  if List.length words <? 2 then Qmake 0 1
  else Qmean (spacings_of (sort_by by_position words)).

Definition consistency_of (line_words : list word_info) : list Q :=
  match line_words with
  | w :: (_ :: _) =>
    let x_coords := map w_x line_words in
    let consistency :=
      Qminus (Qmake 1 1)
             (Qmake (max_of (w_x w) x_coords - min_of (w_x w) x_coords)
                    1000) in
    [if Qlt_bool consistency (Qmake 0 1) then Qmake 0 1 else consistency]
  | _ => []
  end.

Definition _analyze_alignment (words : list word_info) : Q :=
  if List.length words <? 2 then Qmake 0 1
  else
    let lines := group_by (fun w => round_fifteenth (w_y w)) words in
    Qmean (flat_map (fun entry => consistency_of (snd entry)) lines).

(** The OCR data handed to [detect_format]: none (or an empty
    dictionary), a dictionary without the key ['words'], or one with its
    words. *)
Inductive ocr_input :=
| NoOcr
| OcrWithoutWords
| OcrWords (words : list word_info).

(** [_analyze_layout]: raises [ZeroDivisionError] when the words span no
    height. *)
Definition _analyze_layout (ocr_data : ocr_input) : result dict :=
  match ocr_data with
  | NoOcr | OcrWithoutWords => Ok []
  | OcrWords [] => Ok []
  | OcrWords ((w :: _) as words) =>
    let x_coords := map w_x words in
    let y_coords := map w_y words in
    let has_aligned_columns := _detect_columns x_coords y_coords in
    let has_grid_structure := _detect_grid_structure words in
    let height := (max_of (w_y w) y_coords - min_of (w_y w) y_coords)%Z in
    text_density <-
      (if (height =? 0)%Z then Raise (Error (lit "division by zero"))
       else Ok (Qdiv (Qmake (Z.of_nat (List.length words)) 1)
                     (Qmake height 1))) ;;
    Ok [ entry "has_aligned_columns" (VBool has_aligned_columns);
         entry "has_grid_structure" (VBool has_grid_structure);
         entry "text_density" (VFloat text_density);
         entry "average_word_spacing"
               (VFloat (_calculate_average_spacing words));
         entry "alignment_consistency" (VFloat (_analyze_alignment words)) ]
  end.

(** ** Detection *)

(** [_get_recommendations] *)
Definition _get_recommendations (format_key : string) : list str :=
  if String.eqb format_key "standard_table" then
    map lit [ "Usar extracción por columnas fijas";
              "Validar que todas las filas tengan el mismo número de columnas";
              "Buscar encabezados de tabla para mapear campos" ]%string
  else if String.eqb format_key "chapters_list" then
    map lit [ "Extraer capítulos como secciones principales";
              "Usar numeración para identificar jerarquía";
              "Agrupar items por capítulo" ]%string
  else if String.eqb format_key "unit_prices" then
    map lit [ "Enfocarse en extracción de precios unitarios";
              "Validar precios contra rangos esperados";
              "Buscar actualizaciones de precios" ]%string
  else if String.eqb format_key "detailed_breakdown" then
    map lit [ "Extraer desglose de costos por categoría";
              "Sumar componentes para obtener totales";
              "Validar que la suma de componentes coincida con totales"
            ]%string
  else
    map lit [ "Usar extracción basada en patrones";
              "Aplicar múltiples estrategias de extracción";
              "Validar resultados manualmente" ]%string.

(** The dictionary [detect_format] returns when nothing raises. *)
Record report := mkReport {
  detected_format : string;
  format_name : str;
  confidence : Q;
  all_scores : list (string * Q);
  structure_analysis : dict;
  content_analysis : dict;
  pattern_analysis : dict;
  layout_analysis : dict;
  recommendations : list str
}.

(** What [detect_format] returns: the report, or the dictionary of the
    handler, with ['detected_format': 'unknown'],
    ['format_name': 'Formato Desconocido'], ['confidence': 0.0] and the
    message of the exception. *)
Inductive detection :=
| Detected (r : report)
| Unknown (error : str).

Definition detected_key (d : detection) : string :=
  match d with
  | Detected r => detected_format r
  | Unknown _ => "unknown"
  end.

Definition detected_confidence (d : detection) : Q :=
  match d with
  | Detected r => confidence r
  | Unknown _ => Qmake 0 1
  end.

(** [max(format_scores.items(), key=lambda x: x[1])]: the first entry
    with the greatest score. *)
Definition best_of (first : string * Q) (rest : list (string * Q))
  : string * Q :=
  fold_left (fun best kv => if Qlt_bool (snd best) (snd kv) then kv else best)
            rest first.

Section WithDB.
Context {U : UnicodeDB}.

Record pattern_counters := mkPatterns {
  code_patterns : nat;
  price_patterns : nat;
  quantity_patterns : nat;
  tab_separated : nat
}.

Definition patterns_step (c : pattern_counters) (line : str)
  : pattern_counters :=
  let line := strip line in
  if negb (nonempty line) then c
  else
    mkPatterns
      (* \d+(?:\.\d+)+ *)
      (bump (is_some (re_search NOFLAGS
                        (RSeq (plus digit) (plus (RSeq dot (plus digit))))
                        line))
            (code_patterns c))
      (bump (existsb (fun p => is_some (re_search NOFLAGS p line))
               [ seq_of [opt (RLit DOLLAR); plus digit;
                         star (RSeq (RLit COMMA) (times 3 digit)); dot;
                         times 2 digit];
                 seq_of [plus digit; star (RSeq dot (times 3 digit));
                         RLit COMMA; times 2 digit] ])
            (price_patterns c))
      (bump (is_some (re_search I
                        (seq_of [Extractor.number; star space;
                                 Extractor.units]) line))
            (quantity_patterns c))
      (bump (contains [TAB] line
             || is_some (re_search NOFLAGS (at_least 3 space) line))
            (tab_separated c)).

Definition _analyze_patterns (lines : list str) : dict :=
  let c := fold_left patterns_step lines (mkPatterns 0 0 0 0) in
  let total_lines :=
    List.length (filter (fun l => nonempty (strip l)) lines) in
  let share (n : nat) : Q :=
    Qdiv (Qmake (Z.of_nat n) 1) (Qmake (Z.of_nat total_lines) 1) in
  let repeated_patterns :=
    if 0 <? total_lines
    then VFloat (Qdiv (Qplus (Qplus (share (code_patterns c))
                                    (share (price_patterns c)))
                             (share (quantity_patterns c)))
                      (Qmake 3 1))
    else VInt 0 in
  [ entry "repeated_patterns" repeated_patterns;
    entry "code_patterns" (VInt (Z.of_nat (code_patterns c)));
    entry "price_patterns" (VInt (Z.of_nat (price_patterns c)));
    entry "quantity_patterns" (VInt (Z.of_nat (quantity_patterns c)));
    entry "consistent_spacing" (VInt 0);
    entry "tab_separated" (VInt (Z.of_nat (tab_separated c))) ].

Section Detect.
Variable repr_float : Q -> str.

(** The score of every known format, in the order of the dictionary. *)
Definition format_scores (structure content patterns : dict)
  : list (string * Q) :=
  map (fun kf => (fst kf,
                  _calculate_format_score repr_float (snd kf)
                                          structure content patterns))
      known_formats.

Definition name_of (format_key : string) : str :=
  match find (fun kf => String.eqb format_key (fst kf)) known_formats with
  | Some kf => name (snd kf)
  | None => []
  end.

(** The body of the [try] block of [detect_format]. *)
Definition detect_body (text : str) (ocr_data : ocr_input) : result report :=
  let clean_text := str_upper text in
  let lines := split_on LF clean_text in
  let structure_analysis := _analyze_structure lines in
  let content_analysis := _analyze_content clean_text in
  let pattern_analysis := _analyze_patterns lines in
  let format_scores :=
    format_scores structure_analysis content_analysis pattern_analysis in
  best_format <-
    match format_scores with
    | first :: rest => Ok (best_of first rest)
    | [] => Raise (Error (lit "max() arg is an empty sequence"))
    end ;;
  layout_analysis <-
    match ocr_data with
    | NoOcr => Ok []
    | _ => _analyze_layout ocr_data
    end ;;
  Ok (mkReport (fst best_format) (name_of (fst best_format))
               (snd best_format) format_scores
               structure_analysis content_analysis pattern_analysis
               layout_analysis (_get_recommendations (fst best_format))).

Definition detect_format (text : str) (ocr_data : ocr_input) : detection :=
  match detect_body text ocr_data with
  | Ok result => Detected result
  | Raise e => Unknown (exn_message e)
  end.

End Detect.
End WithDB.

(** ** What detection answers *)

Lemma Qlt_bool_false (a b : Q) : Qlt_bool a b = false -> Qle b a.
Proof.
  unfold Qlt_bool. intros H. apply negb_false_iff in H.
  now apply Qle_bool_iff.
Qed.

Lemma Qlt_bool_true (a b : Q) : Qlt_bool a b = true -> Qle a b.
Proof.
  unfold Qlt_bool. intros H. apply negb_true_iff in H.
  apply Qlt_le_weak, Qnot_le_lt. intros L.
  apply Qle_bool_iff in L. congruence.
Qed.

Lemma best_of_spec (first : string * Q) (rest : list (string * Q)) :
  In (best_of first rest) (first :: rest) /\
  forall kv, In kv (first :: rest) -> Qle (snd kv) (snd (best_of first rest)).
Proof.
  unfold best_of. revert first.
  induction rest as [|x rest IH]; intros first; cbn [fold_left].
  - split; [now left|]. intros kv [<- | []]. apply Qle_refl.
  - destruct (Qlt_bool (snd first) (snd x)) eqn:E.
    + destruct (IH x) as [Hin Hmax]. split; [now right|].
      intros kv [<- | Hkv]; [|now apply Hmax].
      eapply Qle_trans; [apply Qlt_bool_true, E|]. apply Hmax. now left.
    + destruct (IH first) as [Hin Hmax]. split.
      * destruct Hin as [<- | Hin]; [now left | now right; right].
      * intros kv [<- | [<- | Hkv]].
        -- apply Hmax. now left.
        -- eapply Qle_trans; [apply Qlt_bool_false, E|]. apply Hmax. now left.
        -- apply Hmax. now right.
Qed.

Section Scores.
Context {U : UnicodeDB}.
Variable repr_float : Q -> str.

Lemma indicator_hits_nonneg (format : format_info) (summary : str) :
  Qle (Qmake 0 1) (indicator_hits format summary).
Proof.
  unfold indicator_hits.
  assert (H : forall l acc, Qle (Qmake 0 1) acc ->
            Qle (Qmake 0 1)
                (fold_left (fun score indicator =>
                              if is_some (re_search I indicator summary)
                              then Qplus score (Qmake 1 1) else score)
                           l acc)).
  { induction l as [|r l IH]; intros acc Hacc; cbn [fold_left]; [exact Hacc|].
    apply IH. destruct (is_some _); [|exact Hacc].
    apply (Qle_trans _ (acc + 0)%Q); [now rewrite Qplus_0_r|].
    apply Qplus_le_r. discriminate. }
  apply H, Qle_refl.
Qed.

Lemma bonus_nonneg (condition : bool) (amount score : Q) :
  Qle (Qmake 0 1) amount -> Qle (Qmake 0 1) score ->
  Qle (Qmake 0 1) (bonus condition amount score).
Proof.
  intros Ha Hs. unfold bonus. destruct condition; [|exact Hs].
  apply (Qle_trans _ (score + 0)%Q); [now rewrite Qplus_0_r|].
  now apply Qplus_le_r.
Qed.

(** X20. Every score [_calculate_format_score] gives lies between 0 and
    1. *)
Theorem score_between_0_and_1 (format : format_info)
  (structure content patterns : dict) :
  Qle (Qmake 0 1)
      (_calculate_format_score repr_float format structure content patterns)
  /\ Qle (_calculate_format_score repr_float format structure content
                                  patterns)
         (Qmake 1 1).
Proof.
  split.
  - unfold _calculate_format_score, py_min.
    match goal with |- context [Qlt_bool ?a ?b] => destruct (Qlt_bool a b) end;
      [discriminate|].
    repeat apply bonus_nonneg; try discriminate.
    unfold normalized.
    pose proof (indicator_hits_nonneg format
                  (dict_str repr_float structure
                   ++ dict_str repr_float content)) as Hh.
    destruct (indicators format) as [|r l] eqn:E; [exact Hh|].
    apply Qle_shift_div_l; [reflexivity|]. now rewrite Qmult_0_l.
  - unfold _calculate_format_score, py_min.
    match goal with |- context [Qlt_bool ?a ?b] =>
      destruct (Qlt_bool a b) eqn:E end.
    + apply Qle_refl.
    + now apply Qlt_bool_false.
Qed.

End Scores.

(** Words that are all at one height (a single word is). *)
Definition flat (words : list word_info) : bool :=
  match words with
  | [] => false
  | w :: ws => forallb (fun w' => (w_y w' =? w_y w)%Z) ws
  end.

(** The OCR data on which the layout analysis divides by zero. *)
Definition spans_no_height (ocr_data : ocr_input) : bool :=
  match ocr_data with
  | OcrWords words => flat words
  | _ => false
  end.

Lemma max_of_spec (x : Z) (l : list Z) :
  (x <= max_of x l)%Z /\ (forall y, In y l -> (y <= max_of x l)%Z) /\
  (max_of x l = x \/ In (max_of x l) l).
Proof.
  unfold max_of. revert x; induction l as [|z l IH]; intros x; cbn [fold_left].
  - split; [lia|]. split; [contradiction | now left].
  - destruct (IH (Z.max x z)) as (H1 & H2 & H3). split; [lia|]. split.
    + intros y [<- | Hy]; [lia | now apply H2].
    + destruct H3 as [H3 | H3]; [|now right; right].
      rewrite H3. destruct (Z.max_spec x z) as [[_ ->] | [_ ->]];
        [right; now left | now left].
Qed.

Lemma min_of_spec (x : Z) (l : list Z) :
  (min_of x l <= x)%Z /\ (forall y, In y l -> (min_of x l <= y)%Z) /\
  (min_of x l = x \/ In (min_of x l) l).
Proof.
  unfold min_of. revert x; induction l as [|z l IH]; intros x; cbn [fold_left].
  - split; [lia|]. split; [contradiction | now left].
  - destruct (IH (Z.min x z)) as (H1 & H2 & H3). split; [lia|]. split.
    + intros y [<- | Hy]; [lia | now apply H2].
    + destruct H3 as [H3 | H3]; [|now right; right].
      rewrite H3. destruct (Z.min_spec x z) as [[_ ->] | [_ ->]];
        [now left | right; now left].
Qed.

(** The height the words span is zero exactly when they are flat. *)
Lemma height_zero (w : word_info) (ws : list word_info) :
  (max_of (w_y w) (map w_y (w :: ws))
   - min_of (w_y w) (map w_y (w :: ws)) =? 0)%Z
  = flat (w :: ws).
Proof.
  destruct (max_of_spec (w_y w) (map w_y (w :: ws))) as (M1 & M2 & M3).
  destruct (min_of_spec (w_y w) (map w_y (w :: ws))) as (N1 & N2 & N3).
  cbn [flat]. destruct (forallb _ ws) eqn:E.
  - apply Z.eqb_eq.
    assert (H : forall y, In y (map w_y (w :: ws)) -> y = w_y w).
    { intros y Hy. cbn [map In] in Hy. destruct Hy as [<- | Hy]; [reflexivity|].
      apply in_map_iff in Hy as (x & <- & Hx).
      rewrite forallb_forall in E. now apply Z.eqb_eq, E. }
    destruct M3 as [-> | M3], N3 as [-> | N3];
      rewrite ?(H _ M3), ?(H _ N3); lia.
  - apply Z.eqb_neq. intros Hz.
    assert (Hall : forallb (fun w' => (w_y w' =? w_y w)%Z) ws = true);
      [|congruence].
    apply forallb_forall. intros x Hx. apply Z.eqb_eq.
    assert (Hy : In (w_y x) (map w_y (w :: ws)))
      by (right; now apply in_map).
    specialize (M2 _ Hy). specialize (N2 _ Hy). lia.
Qed.

Section Verdict.
Context {U : UnicodeDB}.
Variable repr_float : Q -> str.

Lemma analyze_layout_verdict (ocr_data : ocr_input) :
  if spans_no_height ocr_data
  then _analyze_layout ocr_data = Raise (Error (lit "division by zero"))
  else exists layout, _analyze_layout ocr_data = Ok layout.
Proof.
  destruct ocr_data as [| |[|w ws]]; cbn [spans_no_height flat];
    try (eexists; reflexivity).
  change (forallb (fun w' => (w_y w' =? w_y w)%Z) ws) with (flat (w :: ws)).
  unfold _analyze_layout. rewrite height_zero.
  destruct (flat (w :: ws)); [reflexivity|]. eexists. reflexivity.
Qed.

(** The report of the body: the first format with the greatest score. *)
Lemma detect_body_report (text : str) (ocr_data : ocr_input) (r : report) :
  detect_body repr_float text ocr_data = Ok r ->
  exists first rest,
    all_scores r = first :: rest /\
    all_scores r
    = format_scores repr_float (structure_analysis r) (content_analysis r)
                    (pattern_analysis r) /\
    map fst (all_scores r)
    = ["standard_table"; "chapters_list"; "unit_prices";
       "detailed_breakdown"]%string /\
    detected_format r = fst (best_of first rest) /\
    confidence r = snd (best_of first rest) /\
    format_name r = name_of (detected_format r) /\
    recommendations r = _get_recommendations (detected_format r).
Proof.
  unfold detect_body.
  set (scores := format_scores repr_float _ _ _).
  assert (Hs : exists first rest,
             scores = first :: rest /\
             map fst scores = ["standard_table"; "chapters_list";
                               "unit_prices"; "detailed_breakdown"]%string).
  { subst scores. unfold format_scores. cbn [known_formats map fst].
    eexists. eexists. split; reflexivity. }
  destruct Hs as (first & rest & Hs & Hkeys).
  rewrite Hs. cbn [bind].
  destruct (match ocr_data with NoOcr => Ok [] | _ => _analyze_layout ocr_data
            end) as [layout|e]; [|discriminate].
  cbn [bind]. intros H. injection H as <-.
  exists first, rest.
  cbn [detected_format format_name recommendations all_scores confidence
       structure_analysis content_analysis pattern_analysis].
  rewrite <- Hs. repeat split; try reflexivity; try assumption.
Qed.

Lemma detect_body_verdict (text : str) (ocr_data : ocr_input) :
  if spans_no_height ocr_data
  then detect_body repr_float text ocr_data
       = Raise (Error (lit "division by zero"))
  else exists r, detect_body repr_float text ocr_data = Ok r.
Proof.
  pose proof (analyze_layout_verdict ocr_data) as H.
  unfold detect_body.
  change (format_scores repr_float _ _ _)
    with (let s := _analyze_structure (split_on LF (str_upper text)) in
          let c := _analyze_content (str_upper text) in
          let p := _analyze_patterns (split_on LF (str_upper text)) in
          map (fun kf => (fst kf,
                          _calculate_format_score repr_float (snd kf) s c p))
              known_formats).
  cbv zeta. cbn [known_formats map bind].
  destruct (spans_no_height ocr_data) eqn:E.
  - destruct ocr_data; try discriminate. rewrite H. reflexivity.
  - destruct H as [layout H].
    destruct ocr_data; [eexists; reflexivity | |];
      rewrite H; eexists; reflexivity.
Qed.

(** The key [detect_format] answers with is one of five. *)
Lemma detected_key_is_known (text : str) (ocr_data : ocr_input) :
  In (detected_key (detect_format repr_float text ocr_data))
     ["standard_table"; "chapters_list"; "unit_prices";
      "detailed_breakdown"; "unknown"]%string.
Proof.
  unfold detect_format.
  destruct (detect_body repr_float text ocr_data) as [r|e] eqn:B;
    cbn [detected_key]; [|cbn [In]; tauto].
  destruct (detect_body_report _ _ _ B)
    as (first & rest & Hs & _ & Hkeys & Hk & _).
  destruct (best_of_spec first rest) as [Hin _].
  assert (H : In (detected_format r) (map fst (all_scores r)))
    by (rewrite Hk, Hs; now apply in_map).
  rewrite Hkeys in H. cbn [In] in *. tauto.
Qed.

(** X21. [detect_format] never raises.  Given OCR words that are all at
    one height (a single word is enough) the layout analysis divides by
    zero and the answer is ['unknown'], with confidence 0.0 and the
    message of the exception; in every other case the answer is a
    report. *)
Theorem detection_fails_on_flat_words (text : str) (ocr_data : ocr_input) :
  if spans_no_height ocr_data
  then detect_format repr_float text ocr_data
       = Unknown (lit "division by zero")
  else exists r, detect_format repr_float text ocr_data = Detected r.
Proof.
  pose proof (detect_body_verdict text ocr_data) as H.
  unfold detect_format. destruct (spans_no_height ocr_data).
  - now rewrite H.
  - destruct H as [r ->]. now exists r.
Qed.

(** X22. A report of [detect_format] names one of the four known
    formats, with its name and its own recommendations; it lists the
    score of each format for the analyses it reports, its confidence is
    the score of the format it names, and no score is greater. *)
Theorem detection_reports_the_best_format (text : str)
  (ocr_data : ocr_input) (r : report) :
  detect_format repr_float text ocr_data = Detected r ->
  In (detected_format r)
     ["standard_table"; "chapters_list"; "unit_prices";
      "detailed_breakdown"]%string /\
  format_name r = name_of (detected_format r) /\
  recommendations r = _get_recommendations (detected_format r) /\
  all_scores r
  = format_scores repr_float (structure_analysis r) (content_analysis r)
                  (pattern_analysis r) /\
  In (detected_format r, confidence r) (all_scores r) /\
  (forall key score, In (key, score) (all_scores r) ->
     Qle score (confidence r)).
Proof.
  unfold detect_format.
  destruct (detect_body repr_float text ocr_data) as [res|e] eqn:B;
    [|discriminate].
  intros H. injection H as <-.
  destruct (detect_body_report _ _ _ B)
    as (first & rest & Hs & Hall & Hkeys & Hk & Hc & Hn & Hr).
  destruct (best_of_spec first rest) as [Hin Hmax].
  repeat split; try assumption.
  - rewrite <- Hkeys, Hk, Hs. now apply in_map.
  - rewrite Hk, Hc, Hs. now destruct (best_of first rest).
  - intros key score Hin'. rewrite Hc. rewrite Hs in Hin'.
    apply (Hmax (key, score) Hin').
Qed.

End Verdict.

(** The report on [table_shaped_text]. *)
Definition sample_report : report :=
  Eval vm_compute in
    match detect_format (U := Latin1) repr_whole_float table_shaped_text
                        NoOcr with
    | Detected r => r
    | Unknown _ => mkReport EmptyString [] (Qmake 0 1) [] [] [] [] [] []
    end.

Lemma detection_witness :
  In (detected_format sample_report)
     ["standard_table"; "chapters_list"; "unit_prices";
      "detailed_breakdown"]%string /\
  format_name sample_report = name_of (detected_format sample_report) /\
  recommendations sample_report
  = _get_recommendations (detected_format sample_report) /\
  all_scores sample_report
  = format_scores (U := Latin1) repr_whole_float
      (structure_analysis sample_report) (content_analysis sample_report)
      (pattern_analysis sample_report) /\
  In (detected_format sample_report, confidence sample_report)
     (all_scores sample_report) /\
  (forall key score, In (key, score) (all_scores sample_report) ->
     Qle score (confidence sample_report)).
Proof.
  apply (detection_reports_the_best_format
           (U := Latin1) repr_whole_float table_shaped_text NoOcr).
  vm_compute. reflexivity.
Defined.

End Detection.

(* ================================================================== *)
(** * Bounds on the counters of the analyses *)
(* ================================================================== *)

Module AnalysisBounds.
Import Str Re Detector Detection.

Section Bounds.
Context {U : UnicodeDB}.

(** The lines the loops of the analyses do not pass over. *)
Definition nonblank (lines : list str) : nat :=
  List.length (filter (fun line => nonempty (strip line)) lines).

Lemma bump_le (b : bool) (n m : nat) : n <= m -> bump b n <= S m.
Proof. unfold bump. destruct b; lia. Qed.

Definition structure_bounded (c : counters) (k : nat) : Prop :=
  header_lines c <= k /\ table_lines c <= k /\ list_items c <= k /\
  section_headers c <= k.

Lemma structure_step_bounds (c : counters) (k : nat) (line : str) :
  structure_bounded c k ->
  structure_bounded (structure_step c line)
                    (if nonempty (strip line) then S k else k).
Proof.
  intros (H1 & H2 & H3 & H4). unfold structure_step.
  destruct (nonempty (strip line)); cbn [negb];
    [|repeat split; assumption].
  repeat split;
    cbn [header_lines table_lines list_items section_headers];
    now apply bump_le.
Qed.

Lemma structure_loop_bounds (lines : list str) :
  forall c k,
    structure_bounded c k ->
    structure_bounded (fold_left structure_step lines c)
                      (k + nonblank lines).
Proof.
  unfold nonblank.
  induction lines as [|line lines IH]; intros c k H;
    cbn [fold_left filter]; [cbn [List.length]; now rewrite Nat.add_0_r|].
  apply (structure_step_bounds _ _ line) in H.
  destruct (nonempty (strip line)); apply IH in H; cbn [List.length];
    [now rewrite Nat.add_succ_r | exact H].
Qed.

Lemma blank_lines (lines : list str) :
  List.length (filter (fun line => negb (nonempty (strip line))) lines)
  + nonblank lines = List.length lines.
Proof.
  unfold nonblank. induction lines as [|line lines IH]; cbn [filter];
    [reflexivity|].
  destruct (nonempty (strip line)); cbn [negb List.length]; lia.
Qed.

(** X23. [_analyze_structure] counts every line and, among them, the blank
    ones; none of its four counters of headers, table lines, list items
    and section headers exceeds the number of lines that are not
    blank. *)
Theorem structure_counts_are_bounded (lines : list str) :
  exists empty header table items sections : nat,
    let analysis := _analyze_structure lines in
    dict_get "total_lines" analysis
    = Some (VInt (Z.of_nat (List.length lines))) /\
    dict_get "empty_lines" analysis = Some (VInt (Z.of_nat empty)) /\
    dict_get "header_lines" analysis = Some (VInt (Z.of_nat header)) /\
    dict_get "table_lines" analysis = Some (VInt (Z.of_nat table)) /\
    dict_get "list_items" analysis = Some (VInt (Z.of_nat items)) /\
    dict_get "section_headers" analysis = Some (VInt (Z.of_nat sections)) /\
    empty + nonblank lines = List.length lines /\
    header <= nonblank lines /\ table <= nonblank lines /\
    items <= nonblank lines /\ sections <= nonblank lines.
Proof.
  set (c := fold_left structure_step lines (mkCounters 0 0 0 0)).
  exists (List.length (filter (fun line => negb (nonempty (strip line)))
                              lines)),
         (header_lines c), (table_lines c), (list_items c),
         (section_headers c).
  cbv zeta.
  destruct (structure_loop_bounds lines (mkCounters 0 0 0 0) 0)
    as (H1 & H2 & H3 & H4);
    [repeat split; cbn [header_lines table_lines list_items section_headers];
     lia|].
  fold c in H1, H2, H3, H4. cbn [Nat.add] in *.
  repeat split; try reflexivity; try assumption.
  apply blank_lines.
Qed.

Definition patterns_bounded (c : pattern_counters) (k : nat) : Prop :=
  code_patterns c <= k /\ price_patterns c <= k /\
  quantity_patterns c <= k /\ tab_separated c <= k.

Lemma patterns_step_bounds (c : pattern_counters) (k : nat) (line : str) :
  patterns_bounded c k ->
  patterns_bounded (patterns_step c line)
                   (if nonempty (strip line) then S k else k).
Proof.
  intros (H1 & H2 & H3 & H4). unfold patterns_step.
  destruct (nonempty (strip line)); cbn [negb];
    [|repeat split; assumption].
  repeat split;
    cbn [code_patterns price_patterns quantity_patterns tab_separated];
    now apply bump_le.
Qed.

Lemma patterns_loop_bounds (lines : list str) :
  forall c k,
    patterns_bounded c k ->
    patterns_bounded (fold_left patterns_step lines c) (k + nonblank lines).
Proof.
  unfold nonblank.
  induction lines as [|line lines IH]; intros c k H;
    cbn [fold_left filter]; [cbn [List.length]; now rewrite Nat.add_0_r|].
  apply (patterns_step_bounds _ _ line) in H.
  destruct (nonempty (strip line)); apply IH in H; cbn [List.length];
    [now rewrite Nat.add_succ_r | exact H].
Qed.

Lemma mean_share_bounds (a b c t : nat) :
  0 < t -> a <= t -> b <= t -> c <= t ->
  let share (n : nat) : Q :=
    Qdiv (Qmake (Z.of_nat n) 1) (Qmake (Z.of_nat t) 1) in
  let mean := Qdiv (Qplus (Qplus (share a) (share b)) (share c))
                   (Qmake 3 1) in
  Qle (Qmake 0 1) mean /\ Qle mean (Qmake 1 1).
Proof.
  intros Ht Ha Hb Hc. cbv zeta.
  assert (Hs : forall n, n <= t ->
            Qle (Qmake 0 1)
                (Qdiv (Qmake (Z.of_nat n) 1) (Qmake (Z.of_nat t) 1)) /\
            Qle (Qdiv (Qmake (Z.of_nat n) 1) (Qmake (Z.of_nat t) 1))
                (Qmake 1 1)).
  { intros n Hn.
    assert (Hpos : Qlt (Qmake 0 1) (Qmake (Z.of_nat t) 1))
      by (unfold Qlt; cbn [Qnum Qden]; lia).
    split.
    - apply Qle_shift_div_l; [exact Hpos|]. unfold Qle, Qmult.
      cbn [Qnum Qden]. lia.
    - apply Qle_shift_div_r; [exact Hpos|]. unfold Qle, Qmult.
      cbn [Qnum Qden]. lia. }
  destruct (Hs a Ha) as [A0 A1], (Hs b Hb) as [B0 B1], (Hs c Hc) as [C0 C1].
  set (x := Qdiv (Qmake (Z.of_nat a) 1) (Qmake (Z.of_nat t) 1)) in *.
  set (y := Qdiv (Qmake (Z.of_nat b) 1) (Qmake (Z.of_nat t) 1)) in *.
  set (z := Qdiv (Qmake (Z.of_nat c) 1) (Qmake (Z.of_nat t) 1)) in *.
  split.
  - apply Qle_shift_div_l; [reflexivity|].
    setoid_replace (Qmult (Qmake 0 1) (Qmake 3 1)) with (Qmake 0 1)
      by reflexivity.
    setoid_replace (Qmake 0 1)
      with (Qplus (Qplus (Qmake 0 1) (Qmake 0 1)) (Qmake 0 1))
      by reflexivity.
    repeat apply Qplus_le_compat; assumption.
  - apply Qle_shift_div_r; [reflexivity|].
    setoid_replace (Qmult (Qmake 1 1) (Qmake 3 1))
      with (Qplus (Qplus (Qmake 1 1) (Qmake 1 1)) (Qmake 1 1))
      by reflexivity.
    repeat apply Qplus_le_compat; assumption.
Qed.

(** X24. None of the four counters of [_analyze_patterns] exceeds the
    number of lines that are not blank; ['repeated_patterns'] is a share
    between 0 and 1 when there is such a line and the integer 0 when
    there is none, and ['consistent_spacing'] is always 0. *)
Theorem pattern_counts_are_bounded (lines : list str) :
  exists codes prices quantities tabs : nat,
    let analysis := _analyze_patterns lines in
    dict_get "code_patterns" analysis = Some (VInt (Z.of_nat codes)) /\
    dict_get "price_patterns" analysis = Some (VInt (Z.of_nat prices)) /\
    dict_get "quantity_patterns" analysis
    = Some (VInt (Z.of_nat quantities)) /\
    dict_get "tab_separated" analysis = Some (VInt (Z.of_nat tabs)) /\
    dict_get "consistent_spacing" analysis = Some (VInt 0) /\
    codes <= nonblank lines /\ prices <= nonblank lines /\
    quantities <= nonblank lines /\ tabs <= nonblank lines /\
    match dict_get "repeated_patterns" analysis with
    | Some (VFloat share) =>
      0 < nonblank lines /\ Qle (Qmake 0 1) share /\ Qle share (Qmake 1 1)
    | Some (VInt n) => nonblank lines = 0 /\ n = 0%Z
    | _ => False
    end.
Proof.
  set (c := fold_left patterns_step lines (mkPatterns 0 0 0 0)).
  exists (code_patterns c), (price_patterns c), (quantity_patterns c),
         (tab_separated c).
  cbv zeta.
  destruct (patterns_loop_bounds lines (mkPatterns 0 0 0 0) 0)
    as (H1 & H2 & H3 & H4);
    [repeat split;
     cbn [code_patterns price_patterns quantity_patterns tab_separated]; lia|].
  fold c in H1, H2, H3, H4. cbn [Nat.add] in *.
  repeat split; try reflexivity; try assumption.
  unfold _analyze_patterns. fold c. fold (nonblank lines).
  cbn [dict_get entry String.eqb Ascii.eqb Bool.eqb].
  destruct (Nat.ltb_spec 0 (nonblank lines)) as [Hpos | Hz].
  - split; [exact Hpos|]. now apply mean_share_bounds.
  - split; [lia | reflexivity].
Qed.

End Bounds.
End AnalysisBounds.

(* ================================================================== *)
(** * The scanned test on page lengths *)
(* ================================================================== *)

Module ReaderInvariants.
Import Str Reader.

(** X25. A document without pages is scanned; so is one whose pages all
    have fewer than 100 characters, and one whose pages all have 100 or
    more is not. *)
Theorem scanned_by_page_lengths (texts : list str) :
  (texts = [] -> is_scanned texts = true) /\
  (Forall (fun t => List.length t < 100) texts -> is_scanned texts = true) /\
  (texts <> [] -> Forall (fun t => 100 <= List.length t) texts ->
   is_scanned texts = false).
Proof.
  assert (Hsum : forall n, total_text_length (read_pages n texts)
                           = characters texts).
  { intros n. unfold total_text_length, characters.
    now rewrite fold_left_add, read_pages_lengths. }
  assert (Hlt : forall l : list str,
                Forall (fun t => List.length t < 100) l ->
                l <> [] ->
                characters l < 100 * List.length l).
  { unfold characters. induction 1 as [|t l Ht Hl IH];
      [intros E; exfalso; apply E; reflexivity|].
    intros _. cbn [map list_sum List.length].
    destruct l as [|t' l]; [simpl; lia|].
    assert (Hne : t' :: l <> []) by discriminate.
    specialize (IH Hne). unfold list_sum in *.
    cbn [map fold_right List.length] in *. lia. }
  assert (Hge : forall l : list str,
                Forall (fun t => 100 <= List.length t) l ->
                100 * List.length l <= characters l).
  { unfold characters, list_sum. induction 1 as [|t l Ht Hl IH]; [simpl; lia|].
    cbn [map fold_right List.length] in *. lia. }
  split; [intros ->; reflexivity|]. split.
  - intros H. destruct texts as [|t l] eqn:E; [reflexivity|]. rewrite <- E in *.
    assert (Hne : texts <> []) by (rewrite E; discriminate).
    unfold is_scanned. apply detect_scanned_spec.
    + destruct texts; [contradiction | discriminate].
    + rewrite Hsum, read_pages_length. now apply Hlt.
  - intros Hne H. unfold is_scanned. apply not_true_iff_false. intros T.
    apply detect_scanned_spec in T.
    + rewrite Hsum, read_pages_length in T. specialize (Hge _ H). lia.
    + destruct texts; [contradiction | discriminate].
Qed.

End ReaderInvariants.

(* ================================================================== *)
(** * The upload of a document *)
(* ================================================================== *)

Module Upload.
Import Str Re Dec Extractor ExtractorProps Reader Detector Detection.

(** ** The upload of a document

    The part of [upload_pdf] between the reading of the file and the
    answer: the text of the document, the detection of its format, the
    extraction of its items and their conversion into rows of the
    budget. *)

(** [pdf_data['extracted_text']] once [upload_pdf] has looked at
    [is_scanned]: the page texts joined by line feeds, or, for a scanned
    document, the text the handler puts in their place. *)
Definition ocr_placeholder : str := lit "Contenido extraído con OCR".

Definition extracted_text (texts : list str) : str :=
  if is_scanned texts then ocr_placeholder else join [LF] texts.






Section WithDB.
Context {U : UnicodeDB}.
Variable repr_float : Q -> str.

(** The items [upload_pdf] extracts: the format the detector names is
    handed to the extractor as the format hint. *)
Definition uploaded_items (texts : list str) : list item :=
  let text := extracted_text texts in
  let format_analysis := detect_format repr_float text NoOcr in
  extract_budget_items text (Some (lit (detected_key format_analysis))).

(** With any of the keys the detector answers with, the body of the
    extractor runs the pattern strategy. *)
Lemma detector_keys_run_the_pattern_strategy (text : str) (key : string) :
  In key ["standard_table"; "chapters_list"; "unit_prices";
          "detailed_breakdown"; "unknown"]%string ->
  extract_body text (Some (lit key))
  = (items <- _extract_with_patterns [_clean_text text] ;;
     _validate_and_clean_items items).
Proof.
  assert (Hl : split_on LF (_clean_text text) = [_clean_text text]).
  { apply StrFacts.split_on_none, (printable_excludes LF); [reflexivity|].
    apply clean_text_shape. }
  intros [<- | [<- | [<- | [<- | [<- | []]]]]];
    unfold extract_body; rewrite Hl; reflexivity.
Qed.

(** X26. Whatever the document, the format [upload_pdf] hands to the
    extractor is none of ['table'], ['list'] and ['mixed']: the items of
    an upload are those of the pattern strategy on the cleaned text. *)
Theorem upload_runs_the_pattern_strategy (texts : list str) :
  uploaded_items texts
  = match (items <- _extract_with_patterns
                      [_clean_text (extracted_text texts)] ;;
           _validate_and_clean_items items) with
    | Ok validated_items => validated_items
    | Raise _ => []
    end.
Proof.
  unfold uploaded_items, extract_budget_items. cbv zeta.
  now rewrite detector_keys_run_the_pattern_strategy
    by apply detected_key_is_known.
Qed.

End WithDB.


(** X28. A scanned document gives no item: the text put in the place of
    its pages holds none. *)
Theorem scanned_upload_has_no_item (repr_float : Q -> str)
  (texts : list str) :
  is_scanned texts = true ->
  uploaded_items (U := Latin1) repr_float texts = [].
Proof.
  intros H. unfold uploaded_items, extract_budget_items, extracted_text.
  cbv zeta. rewrite H.
  rewrite detector_keys_run_the_pattern_strategy
    by apply detected_key_is_known.
  vm_compute. reflexivity.
Qed.

Lemma scanned_upload_witness :
  uploaded_items (U := Latin1) repr_whole_float [lit "sello"] = [].
Proof.
  apply (scanned_upload_has_no_item repr_whole_float [lit "sello"]).
  vm_compute. reflexivity.
Defined.

End Upload.
